(** * TextModel: multinomial text classification

    A shallow embedding of [mmworkbench/models/text_models.py] (class
    [TextModel]) and a verification of its specification.

    Conventions of the embedding:
    - Python floats and numpy [float64] values are Rocq's primitive binary64
      floats ([PrimFloat.float]); the operations are the IEEE ones.
    - Exceptions are values of [exn]; a computation that can raise returns a
      [res]; a method that also mutates [self] or a dict it was handed is a
      function in the state monad [M], in which the state reached when the
      exception was raised is kept.
    - The scikit-learn estimators, the feature extractor and the label encoder
      of the base class are collaborators: the class [Collaborators] lists the
      operations the code calls on them.  scikit-learn's [LabelEncoder], whose
      class ids the code computes with, is modelled concretely.

    The file also embeds [mmworkbench/_util.py] (the callable [Blueprint],
    module [Util]) and [mmworkbench/query_factory.py] (class [QueryFactory],
    module [QueryFactory]), each with its collaborators as a class of
    operations. *)

From Stdlib Require Import Floats ZArith Uint63 Lia Bool.
From stdpp Require Import gmap strings list fin_maps sorting.

(** ** Floats *)

Module PyFloat.

(** [_NEG_INF = -1e10], the sentinel of [predict_log_proba]. *)
Definition _NEG_INF : float := (-1e10)%float.

(** The default of [probabilities.get(top_class, -1.0)]. *)
Definition minus_one : float := (-1.0)%float.

(** [float(n)] for a Python int that is a length or a count, and numpy's
    conversion of an [int64] count to [float64]: the nearest binary64 value.
    Lengths and counts are below [2^63] in CPython. *)
Definition of_nat (n : nat) : float := PrimFloat.of_uint63 (Uint63.of_Z (Z.of_nat n)).

(** A float that is neither infinite nor NaN. *)
Definition is_finite (x : float) : bool :=
  match Prim2SF x with
  | S754_zero _ | S754_finite _ _ _ => true
  | _ => false
  end.

(** The sign bit of a specification float is clear, or it is NaN. *)
Definition sf_nonneg (x : spec_float) : Prop :=
  match x with
  | S754_zero s | S754_infinity s | S754_finite s _ _ => s = false
  | S754_nan => True
  end.

(** The rank of a specification float in the order [SFcompare] decides: sign
    class first, then exponent, then mantissa (reversed for negatives). *)
Definition sf_rank (x : spec_float) : option (Z * Z * Z) :=
  match x with
  | S754_nan => None
  | S754_zero _ => Some (0, 0, 0)%Z
  | S754_infinity s => Some (if s then (-2) else 2, 0, 0)%Z
  | S754_finite s m e =>
      Some (if s then ((-1), - e, - Z.pos m) else (1, e, Z.pos m))%Z
  end.

Definition lex3_compare (a b : Z * Z * Z) : comparison :=
  let '(a1, a2, a3) := a in
  let '(b1, b2, b3) := b in
  match (a1 ?= b1)%Z with
  | Eq => match (a2 ?= b2)%Z with Eq => (a3 ?= b3)%Z | c => c end
  | c => c
  end.

Definition lex3_lt (a b : Z * Z * Z) : Prop :=
  (a.1.1 < b.1.1 ∨ a.1.1 = b.1.1 ∧ (a.1.2 < b.1.2 ∨ a.1.2 = b.1.2 ∧ a.2 < b.2))%Z.

(** The rank of a float; NaN has none. *)
Definition rank (x : float) : option (Z * Z * Z) := sf_rank (Prim2SF x).

(** A float that compares with itself: any float but NaN. *)
Definition ordered (x : float) : Prop := PrimFloat.leb x x = true.

(** The binary magnitude of a finite specification float: the number of digits
    of its mantissa plus its exponent. *)
Definition sf_mag (x : spec_float) : option Z :=
  match x with
  | S754_finite _ m e => Some (Z.pos (digits2_pos m) + e)%Z
  | _ => None
  end.

Definition sf_finite (x : spec_float) : bool :=
  match x with
  | S754_zero _ | S754_finite _ _ _ => true
  | _ => false
  end.

End PyFloat.

(** ** Exceptions and the two monads *)

(** The exceptions the code can raise.  [TypeError] stands for Python's
    [TypeError] and for an [AttributeError] on a value of the wrong kind (a
    float asked for [.items()], [None] asked for a method); [AttributeError]
    is a missing attribute of an object of the right kind ([classes_] of an
    encoder that was never fitted).  [CollaboratorError] is any exception a
    collaborator raises. *)
Inductive exn :=
| ValueError (msg : string)
| KeyError (key : string)
| IndexError
| TypeError
| AttributeError (attr : string)
| CollaboratorError (what : string).

Inductive res (A : Type) :=
| Ok (a : A)
| Raise (e : exn).
Arguments Ok {A} a.
Arguments Raise {A} e.

Global Instance res_ret : MRet res := @Ok.
Global Instance res_bind : MBind res :=
  λ A B f m, match m with Ok a => f a | Raise e => Raise e end.
Global Instance res_fmap : FMap res :=
  λ A B f m, match m with Ok a => Ok (f a) | Raise e => Raise e end.

(** [l[i]] for a Python list and a non-negative index. *)
Definition py_index {A} (l : list A) (i : nat) : res A :=
  match l !! i with
  | Some a => Ok a
  | None => Raise IndexError
  end.

(** ** scikit-learn's LabelEncoder *)

Module SKLabelEncoder.

(** The encoder's state is its [classes_] attribute, absent before [fit]. *)
Definition t := option (list string).

(** [np.unique]: the distinct labels, sorted. *)
Definition np_unique (y : list string) : list string :=
  merge_sort String.leb (remove_dups y).

(** The position of [x] in [classes_]. *)
Definition index_of (classes : list string) (x : string) : option nat :=
  fst <$> list_find (λ c, c = x) classes.

Definition unseen : exn := ValueError "y contains previously unseen labels".

Definition encode_with (classes : list string) (y : list string) : res (list nat) :=
  mapM (λ x, match index_of classes x with
             | Some i => Ok i
             | None => Raise unseen
             end) y.

(** [fit_transform(y)]: learns [classes_] and returns the class ids. *)
Definition fit_transform (y : list string) : t * res (list nat) :=
  let classes := np_unique y in
  (Some classes, encode_with classes y).

(** [transform(y)]: raises on an encoder that was not fitted and on a label
    that was not seen. *)
Definition transform (enc : t) (y : list string) : res (list nat) :=
  match enc with
  | None => Raise (AttributeError "classes_")
  | Some classes => encode_with classes y
  end.

(** [transform(y)] for a [y] of numpy integers: the classes are strings, so
    an integer is a label that was not seen. *)
Definition transform_int (enc : t) (y : list Z) : res (list nat) :=
  match enc with
  | None => Raise (AttributeError "classes_")
  | Some classes => mapM (λ _, Raise unseen) y
  end.

(** [inverse_transform(ids)]. *)
Definition inverse_transform (enc : t) (ids : list nat) : res (list string) :=
  match enc with
  | None => Raise (AttributeError "classes_")
  | Some classes =>
      mapM (λ i, match classes !! i with
                 | Some c => Ok c
                 | None => Raise unseen
                 end) ids
  end.

(** [encoder.classes_]. *)
Definition classes_ (enc : t) : res (list string) :=
  match enc with
  | None => Raise (AttributeError "classes_")
  | Some classes => Ok classes
  end.

End SKLabelEncoder.

(** [numpy.bincount(y)]: how often each of [0 .. max y] occurs in [y]. *)
Definition bincount (y : list nat) : list nat :=
  match y with
  | [] => []
  | _ => (λ c, length (filter (λ v, v = c) y)) <$> seq 0 (S (max_list y))
  end.

(** ** Python dicts whose insertion order matters *)

(** A dict as the sequence of its items, in insertion order; keys are unique. *)
Definition odict (K V : Type) : Type := list (K * V).

(** [d[k] = v]: an existing key keeps its place and takes the new value, a new
    key goes last. *)
Fixpoint dict_setitem {K V} `{EqDecision K} (k : K) (v : V) (d : odict K V) : odict K V :=
  match d with
  | [] => [(k, v)]
  | (k', v') :: d' =>
      if decide (k' = k) then (k', v) :: d' else (k', v') :: dict_setitem k v d'
  end.

(** [d.get(k)]. *)
Fixpoint dict_get {K V} `{EqDecision K} (k : K) (d : odict K V) : option V :=
  match d with
  | [] => None
  | (k', v') :: d' => if decide (k' = k) then Some v' else dict_get k d'
  end.

(** The dict comprehension [{k: v for x in items}], where [item x] evaluates
    the key and the value for [x] and may raise. *)
Definition dict_comprehension {A K V} `{EqDecision K}
    (item : A → res (K * V)) (items : list A) : res (odict K V) :=
  foldl (λ acc x, d ← acc; kv ← item x; mret (dict_setitem kv.1 kv.2 d))
        (Ok []) items.

(** The dict that successive assignments of [items] build, from [acc] on. *)
Definition assign_all {K V} `{EqDecision K} (acc : odict K V) (items : list (K * V))
    : odict K V :=
  foldl (λ acc kv, dict_setitem kv.1 kv.2 acc) acc items.

(** The same for keys of several kinds that Python compares by their [value]
    (the int [1] and the numpy integer [1] are one key): [d[k] = v] finds the
    key with the value of [k]; the key object that is in the dict stays, and
    takes the new value. *)
Fixpoint dict_setitem_by {K V C} `{EqDecision C} (value : K → C) (k : K) (v : V)
    (d : odict K V) : odict K V :=
  match d with
  | [] => [(k, v)]
  | (k', v') :: d' =>
      if decide (value k' = value k) then (k', v) :: d'
      else (k', v') :: dict_setitem_by value k v d'
  end.

(** The dict comprehension over such keys. *)
Definition dict_comprehension_by {A K V C} `{EqDecision C} (value : K → C)
    (item : A → res (K * V)) (items : list A) : res (odict K V) :=
  foldl (λ acc x, d ← acc; kv ← item x; mret (dict_setitem_by value kv.1 kv.2 d))
        (Ok []) items.

(** The dict that successive assignments of [items] build over such keys. *)
Definition assign_all_by {K V C} `{EqDecision C} (value : K → C) (acc : odict K V)
    (items : list (K * V)) : odict K V :=
  foldl (λ acc kv, dict_setitem_by value kv.1 kv.2 acc) acc items.

(** ** Classifier parameters *)

(** A key of a class-weight mapping: a Python int, a raw label, or a numpy
    integer, which is what the class encoder returns for a label.  A numpy
    integer is not an [int] for [isinstance] (Python 3), and as a key of a dict
    it is the key that the int of the same value is. *)
Inductive wkey :=
| KInt (i : Z)
| KLabel (s : string)
| KNumpy (i : Z).

Global Instance wkey_eq_dec : EqDecision wkey.
Proof. solve_decision. Defined.

(** What Python compares two keys by. *)
Definition key_value (k : wkey) : Z + string :=
  match k with
  | KInt i => inl i
  | KLabel s => inr s
  | KNumpy i => inl i
  end.

Definition wdict : Type := odict wkey float.

(** The values a parameter mapping holds.  [PFloats []] and [PWeightsGrid []]
    both stand for the empty list. *)
Inductive pval :=
| PFloat (x : float)
| PFloats (xs : list float)
| PWeights (w : wdict)
| PWeightsGrid (ws : list wdict)
| POther (v : string).

(** A reference to a parameter dict. *)
Definition loc : Type := positive.

(** The labels as the feature pipeline passes them on: nothing, raw labels, or
    the class ids the class encoder produced. *)
Inductive yval :=
| YNone
| YRaw (labels : list string)
| YIds (ids : list nat).

(** The underlying classifier classes. *)
Inductive model_class :=
| LogisticRegression
| DecisionTreeClassifier
| RandomForestClassifier
| SVC.

(** classifier types *)
Definition LOG_REG_TYPE : string := "logreg".
Definition DECISION_TREE_TYPE : string := "dtree".
Definition RANDOM_FOREST_TYPE : string := "rforest".
Definition SVM_TYPE : string := "svm".
Definition BASE_MODEL_TYPES : list string :=
  [LOG_REG_TYPE; DECISION_TREE_TYPE; RANDOM_FOREST_TYPE; SVM_TYPE].

(** [self.config]: the fields of the model configuration the code reads; the
    parameters and the selection settings are references to dicts. *)
Module ModelConfig.
Record t := {
  model_settings : option (gmap string string);
  params : option loc;
  param_selection : option loc;
}.
End ModelConfig.

(** ** Collaborators *)

Class Collaborators := {
  example : Type;
  label : Type;
  label_eq_dec :: EqDecision label;
  label_countable :: Countable label;
  featmap : Type;
  matrix : Type;
  vectorizer : Type;
  scaler : Type;
  selector : Type;
  classifier : Type;
  (** [Model._extract_features(example)] *)
  _extract_features : example → res featmap;
  (** Python's [repr] of a string *)
  py_repr : string → string;
  (** the label encoder of the base class, label by label *)
  encode_label : label → string;
  decode_label : string → label;
  (** [DictVectorizer] *)
  DictVectorizer : vectorizer;
  vec_fit_transform : vectorizer → list featmap → vectorizer * res matrix;
  vec_transform : vectorizer → list featmap → res matrix;
  (** [StandardScaler(with_mean=False)] and [MaxAbsScaler()] *)
  StandardScaler : scaler;
  MaxAbsScaler : scaler;
  scaler_fit_transform : scaler → matrix → scaler * res matrix;
  scaler_transform : scaler → matrix → res matrix;
  (** [SelectFromModel(LogisticRegression(penalty='l1', C=1))] and
      [SelectPercentile()] *)
  SelectFromModel : selector;
  SelectPercentile : selector;
  selector_fit_transform : selector → matrix → list nat → selector * res matrix;
  selector_transform : selector → matrix → res matrix;
  (** [model_class(params as keywords).fit(X, y)] and the fitted classifier's methods *)
  clf_fit : model_class → gmap string pval → matrix → yval → res classifier;
  clf_predict : classifier → matrix → res (list nat);
  clf_predict_proba : classifier → matrix → res (list (list float));
  clf_predict_log_proba : classifier → matrix → res (list (list float));
}.

(** ** The model object *)

Section Model.
Context `{Collaborators}.

(** The attributes of a [TextModel] the methods below read or write.  [_clf]
    and [_current_params] are set by the base class and start as [None]. *)
Record TextModel := {
  config : ModelConfig.t;
  _class_encoder : SKLabelEncoder.t;
  _feat_vectorizer : vectorizer;
  _feat_selector : option selector;
  _feat_scaler : option scaler;
  _clf : option classifier;
  _current_params : option loc;
}.

(** The state a method runs in: the model object and the parameter dicts that
    references denote (a cell never written holds the empty dict). *)
Record pystate := {
  heap : gmap loc (gmap string pval);
  self : TextModel;
}.

(** A method: from the state to the state it leaves and what it returned or
    raised. *)
Definition M (A : Type) : Type := pystate → pystate * res A.

Definition ret {A} (a : A) : M A := λ st, (st, Ok a).
Definition raise {A} (e : exn) : M A := λ st, (st, Raise e).
Definition bind {A B} (m : M A) (f : A → M B) : M B :=
  λ st, match m st with
        | (st', Ok a) => f a st'
        | (st', Raise e) => (st', Raise e)
        end.
Definition lift {A} (r : res A) : M A := λ st, (st, r).
Definition get_self : M TextModel := λ st, (st, Ok (self st)).
Definition set_self (f : TextModel → TextModel) : M unit :=
  λ st, ({| heap := heap st; self := f (self st) |}, Ok tt).
Definition get_dict (p : loc) : M (gmap string pval) :=
  λ st, (st, Ok (heap st !!! p)).
(** [d[key] = v] and [del d[key]] on the dict that [p] refers to. *)
Definition setitem (p : loc) (key : string) (v : pval) : M unit :=
  λ st, ({| heap := <[p := <[key := v]> (heap st !!! p)]> (heap st);
            self := self st |}, Ok tt).
Definition delitem (p : loc) (key : string) : M unit :=
  λ st, match (heap st !!! p) !! key with
        | Some _ => ({| heap := <[p := delete key (heap st !!! p)]> (heap st);
                        self := self st |}, Ok tt)
        | None => (st, Raise (KeyError key))
        end.

Global Instance M_ret : MRet M := @ret.
Global Instance M_bind : MBind M := λ A B f m, bind m f.


(** *** Construction *)

(** [_get_feature_selector]: the selector the model settings name, if any. *)
Definition _get_feature_selector (cfg : ModelConfig.t) : option selector :=
  let selector_type :=
    match ModelConfig.model_settings cfg with
    | None => None
    | Some settings => settings !! "feature_selector"
    end in
  match selector_type with
  | Some "l1" => Some SelectFromModel
  | Some "f" => Some SelectPercentile
  | _ => None
  end.

(** [_get_feature_scaler]: the scaler the model settings name, if any. *)
Definition _get_feature_scaler (cfg : ModelConfig.t) : option scaler :=
  let scale_type :=
    match ModelConfig.model_settings cfg with
    | None => None
    | Some settings => settings !! "feature_scaler"
    end in
  match scale_type with
  | Some "std-dev" => Some StandardScaler
  | Some "max-abs" => Some MaxAbsScaler
  | _ => None
  end.

(** [TextModel(config)]. *)
Definition __init__ (cfg : ModelConfig.t) : TextModel :=
  {| config := cfg;
     _class_encoder := None;
     _feat_vectorizer := DictVectorizer;
     _feat_selector := _get_feature_selector cfg;
     _feat_scaler := _get_feature_scaler cfg;
     _clf := None;
     _current_params := None |}.

(** ['{}: Classifier type {!r} not recognized'.format(class name, type)]. *)
Definition not_recognized (classifier_type : string) : string :=
  "TextModel: Classifier type " +:+ py_repr classifier_type +:+ " not recognized".

(** [_get_model_constructor]: the class of the underlying model. *)
Definition _get_model_constructor (m : TextModel) : res model_class :=
  match ModelConfig.model_settings (config m) with
  | None => Raise TypeError
  | Some settings =>
      match settings !! "classifier_type" with
      | None => Raise (KeyError "classifier_type")
      | Some classifier_type =>
          if decide (classifier_type = LOG_REG_TYPE) then Ok LogisticRegression
          else if decide (classifier_type = DECISION_TREE_TYPE) then Ok DecisionTreeClassifier
          else if decide (classifier_type = RANDOM_FOREST_TYPE) then Ok RandomForestClassifier
          else if decide (classifier_type = SVM_TYPE) then Ok SVC
          else Raise (ValueError (not_recognized classifier_type))
      end
  end.

(** *** Attribute updates *)

Definition set_class_encoder (e : SKLabelEncoder.t) (m : TextModel) : TextModel :=
  {| config := config m; _class_encoder := e;
     _feat_vectorizer := _feat_vectorizer m; _feat_selector := _feat_selector m;
     _feat_scaler := _feat_scaler m; _clf := _clf m;
     _current_params := _current_params m |}.

Definition set_feat_vectorizer (v : vectorizer) (m : TextModel) : TextModel :=
  {| config := config m; _class_encoder := _class_encoder m;
     _feat_vectorizer := v; _feat_selector := _feat_selector m;
     _feat_scaler := _feat_scaler m; _clf := _clf m;
     _current_params := _current_params m |}.

Definition set_feat_selector (s : option selector) (m : TextModel) : TextModel :=
  {| config := config m; _class_encoder := _class_encoder m;
     _feat_vectorizer := _feat_vectorizer m; _feat_selector := s;
     _feat_scaler := _feat_scaler m; _clf := _clf m;
     _current_params := _current_params m |}.

Definition set_feat_scaler (s : option scaler) (m : TextModel) : TextModel :=
  {| config := config m; _class_encoder := _class_encoder m;
     _feat_vectorizer := _feat_vectorizer m; _feat_selector := _feat_selector m;
     _feat_scaler := s; _clf := _clf m;
     _current_params := _current_params m |}.

Definition set_clf (c : option classifier) (m : TextModel) : TextModel :=
  {| config := config m; _class_encoder := _class_encoder m;
     _feat_vectorizer := _feat_vectorizer m; _feat_selector := _feat_selector m;
     _feat_scaler := _feat_scaler m; _clf := c;
     _current_params := _current_params m |}.

Definition set_current_params (p : option loc) (m : TextModel) : TextModel :=
  {| config := config m; _class_encoder := _class_encoder m;
     _feat_vectorizer := _feat_vectorizer m; _feat_selector := _feat_selector m;
     _feat_scaler := _feat_scaler m; _clf := _clf m;
     _current_params := p |}.

(** A call of a collaborator's method that updates the collaborator, which an
    attribute of [self] holds. *)
Definition call {T A} (get : TextModel → T) (set : T → TextModel → TextModel)
    (method : T → T * res A) : M A :=
  λ st, let '(t', r) := method (get (self st)) in
        ({| heap := heap st; self := set t' (self st) |}, r).

(** *** The feature pipeline *)

(** [self._class_encoder.fit_transform(y)]; [y] must be there. *)
Definition class_encoder_fit_transform (y : option (list string)) : M (list nat) :=
  match y with
  | None => raise (ValueError "bad input shape ()")
  | Some labels =>
      call _class_encoder set_class_encoder (λ _, SKLabelEncoder.fit_transform labels)
  end.

Definition _preprocess_data (X : list featmap) (y : option (list string)) (fit : bool)
    : M (matrix * yval) :=
  if fit then
    y ← class_encoder_fit_transform y;
    X ← call _feat_vectorizer set_feat_vectorizer (λ v, vec_fit_transform v X);
    m ← get_self;
    X ← match _feat_scaler m with
        | Some s =>
            call (λ _, s) (λ s', set_feat_scaler (Some s')) (λ s, scaler_fit_transform s X)
        | None => ret X
        end;
    m ← get_self;
    X ← match _feat_selector m with
        | Some s =>
            call (λ _, s) (λ s', set_feat_selector (Some s'))
                 (λ s, selector_fit_transform s X y)
        | None => ret X
        end;
    ret (X, YIds y)
  else
    m ← get_self;
    X ← lift (vec_transform (_feat_vectorizer m) X);
    X ← match _feat_scaler m with
        | Some s => lift (scaler_transform s X)
        | None => ret X
        end;
    X ← match _feat_selector m with
        | Some s => lift (selector_transform s X)
        | None => ret X
        end;
    ret (X, match y with None => YNone | Some labels => YRaw labels end).

(** [get_feature_matrix]: the feature matrix of a list of examples, the labels
    as [_preprocess_data] returns them, and the group of each example. *)
Definition get_feature_matrix (examples : list example) (y : option (list string))
    (fit : bool) : M (matrix * yval * list nat) :=
  feats ← lift (mapM _extract_features examples);
  let groups := seq 0 (length examples) in
  Xy ← _preprocess_data feats y fit;
  ret (Xy.1, Xy.2, groups).

(** *** Prediction *)

(** [row.argmax()], which raises on an empty row; its value is not used. *)
Definition argmax_check (row : list float) : res unit :=
  match row with
  | [] => Raise (ValueError "attempt to get argmax of an empty sequence")
  | _ => Ok tt
  end.

(** The loop of [_predict_proba] over [enumerate(row)], from [class_index] on. *)
Fixpoint decode_loop (enc : SKLabelEncoder.t) (class_index : nat) (row : list float)
    (top_class : option label) (probabilities : gmap label float)
    : res (option label * gmap label float) :=
  match row with
  | [] => Ok (top_class, probabilities)
  | proba :: rest =>
      raw ← SKLabelEncoder.inverse_transform enc [class_index];
      raw_class ← py_index raw 0;
      let decoded_class := decode_label raw_class in
      let probabilities := <[decoded_class := proba]> probabilities in
      let best := default PyFloat.minus_one (top_class ≫= (probabilities !!.)) in
      let top_class := if PrimFloat.ltb best proba then Some decoded_class else top_class in
      decode_loop enc (S class_index) rest top_class probabilities
  end.

(** One row of the predictor's output, decoded. *)
Definition decode_row (enc : SKLabelEncoder.t) (row : list float)
    : res (option label * gmap label float) :=
  _ ← argmax_check row;
  decode_loop enc 0 row None ∅.

Definition _predict_proba (X : matrix) (predictor : matrix → res (list (list float)))
    : M (list (option label * gmap label float)) :=
  rows ← lift (predictor X);
  m ← get_self;
  lift (mapM (decode_row (_class_encoder m)) rows).

(** [self._clf.<method>]; [_clf] is [None] before the model is fitted. *)
Definition clf_method {A} (method : classifier → matrix → res A)
    : M (matrix → res A) :=
  m ← get_self;
  match _clf m with
  | None => raise TypeError
  | Some clf => ret (method clf)
  end.

Definition predict (examples : list example) : M (list label) :=
  Xyg ← get_feature_matrix examples None false;
  predictor ← clf_method clf_predict;
  y ← lift (predictor Xyg.1.1);
  m ← get_self;
  predictions ← lift (SKLabelEncoder.inverse_transform (_class_encoder m) y);
  ret (decode_label <$> predictions).

Definition predict_proba (examples : list example)
    : M (list (option label * gmap label float)) :=
  Xyg ← get_feature_matrix examples None false;
  predictor ← clf_method clf_predict_proba;
  _predict_proba Xyg.1.1 predictor.

(** The inner loop of [predict_log_proba] over [probas.items()]. *)
Definition replace_neg_inf (probas : gmap label float) : gmap label float :=
  foldl (λ acc item,
           if PrimFloat.eqb item.2 neg_infinity
           then <[item.1 := PyFloat._NEG_INF]> acc
           else acc)
        probas (map_to_list probas).

Definition predict_log_proba (examples : list example)
    : M (list (option label * gmap label float)) :=
  Xyg ← get_feature_matrix examples None false;
  predictor ← clf_method clf_predict_log_proba;
  predictions ← _predict_proba Xyg.1.1 predictor;
  ret ((λ row, (row.1, replace_neg_inf row.2)) <$> predictions).

End Model.

(** [Model._fit_cv] of the base class: the cross-validated parameter search,
    which returns the best classifier and its parameters. *)
Class ParamSearch `{Collaborators} := {
  _fit_cv : matrix → yval → list nat → option loc → M (classifier * loc);
}.

Section Training.
Context `{ParamSearch}.

(** *** The parameter resolver *)

(** The key of a weight mapping as the classifier wants it:
    [k if isinstance(k, int) else self._class_encoder.transform((k,))[0]].
    Only a Python int passes the test; any other key, a raw label or a numpy
    integer, goes to the encoder, whose class id is a numpy integer. *)
Definition convert_key (enc : SKLabelEncoder.t) (k : wkey) : res wkey :=
  match k with
  | KInt i => Ok (KInt i)
  | KLabel s =>
      ids ← SKLabelEncoder.transform enc [s];
      i ← py_index ids 0;
      Ok (KNumpy (Z.of_nat i))
  | KNumpy j =>
      ids ← SKLabelEncoder.transform_int enc [j];
      i ← py_index ids 0;
      Ok (KNumpy (Z.of_nat i))
  end.

(** One weight mapping with its keys converted:
    [{convert(k): v for k, v in cw_dict.items()}]. *)
Definition convert_weights (enc : SKLabelEncoder.t) (cw_dict : wdict) : res wdict :=
  dict_comprehension_by key_value (λ kv, k ← convert_key enc kv.1; Ok (k, kv.2)) cw_dict.

(** [param_grid['class_weight'] if is_grid else [param_grid['class_weight']]],
    as the list of mappings the comprehension goes through.  A value of another
    shape makes Python raise. *)
Definition raw_weights_of (v : pval) (is_grid : bool) : res (list wdict) :=
  if is_grid then
    match v with
    | PWeightsGrid ws => Ok ws
    | PFloats [] | PWeights [] => Ok []
    | _ => Raise TypeError
    end
  else
    match v with
    | PWeights w => Ok [w]
    | _ => Raise TypeError
    end.

(** [param_grid['class_bias'] if is_grid else [param_grid['class_bias']]]. *)
Definition raw_bias_of (v : pval) (is_grid : bool) : res (list float) :=
  if is_grid then
    match v with
    | PFloats bs => Ok bs
    | PWeightsGrid [] | PWeights [] => Ok []
    | _ => Raise TypeError
    end
  else
    match v with
    | PFloat b => Ok [b]
    | _ => Raise TypeError
    end.

(** [weights if is_grid else weights[0]]. *)
Definition weights_value (weights : list wdict) (is_grid : bool) : res pval :=
  if is_grid then Ok (PWeightsGrid weights)
  else w ← py_index weights 0; Ok (PWeights w).

(** [[old_div(len(y), (float(len(classes)) * c)) for c in class_count]]: the
    weights of sklearn's [class_weight='balanced'].  The counts are numpy
    integers, so the division is numpy's and a zero count gives infinity. *)
Definition balanced_w (len_y len_classes : nat) (class_count : list nat) : list float :=
  (λ c, PyFloat.of_nat len_y / (PyFloat.of_nat len_classes * PyFloat.of_nat c))%float
    <$> class_count.

(** The weight mapping of one [class_bias]:
    [{c: (1 - class_bias) + class_bias * w for c, w in balanced_tuples}]. *)
Definition bias_weights (len_y len_classes : nat) (class_count : list nat)
    (class_bias : float) : res wdict :=
  let balanced_tuples :=
    zip (seq 0 len_classes) (balanced_w len_y len_classes class_count) in
  dict_comprehension
    (λ cw, Ok (KInt (Z.of_nat cw.1), ((1 - class_bias) + class_bias * cw.2)%float))
    balanced_tuples.

(** [bincount(y)] and [len(y)] need the class ids. *)
Definition ids_of (y : yval) : res (list nat) :=
  match y with
  | YIds ids => Ok ids
  | _ => Raise TypeError
  end.

(** [_convert_params]: converts the parameters from the style of the
    configuration to the style of the classifier, in the dict it is given. *)
Definition _convert_params (param_grid : option loc) (y : yval) (is_grid : bool)
    : M (option loc) :=
  match param_grid with
  | None => raise TypeError
  | Some p =>
      m ← get_self;
      d ← get_dict p;
      match d !! "class_weight" with
      | Some v =>
          raw_weights ← lift (raw_weights_of v is_grid);
          weights ← lift (mapM (convert_weights (_class_encoder m)) raw_weights);
          v' ← lift (weights_value weights is_grid);
          setitem p "class_weight" v';;
          ret (Some p)
      | None =>
          match d !! "class_bias" with
          | Some v =>
              ids ← lift (ids_of y);
              let class_count := bincount ids in
              classes ← lift (SKLabelEncoder.classes_ (_class_encoder m));
              raw_bias ← lift (raw_bias_of v is_grid);
              weights ← lift (mapM (bias_weights (length ids) (length classes) class_count)
                                   raw_bias);
              v' ← lift (weights_value weights is_grid);
              setitem p "class_weight" v';;
              delitem p "class_bias";;
              ret (Some p)
          | None => ret (Some p)
          end
      end
  end.

(** *** Training *)

(** [_fit]: trains a classifier without cross-validation. *)
Definition _fit (X : matrix) (y : yval) (params : option loc) : M classifier :=
  params ← _convert_params params y false;
  m ← get_self;
  model_class ← lift (_get_model_constructor m);
  kwargs ← match params with
           | Some p => get_dict p
           | None => raise TypeError
           end;
  lift (clf_fit model_class kwargs X y).

(** [a or b] for two optional dicts: [a] unless it is [None] or empty. *)
Definition py_or (a b : option loc) : M (option loc) :=
  match a with
  | None => ret b
  | Some p => d ← get_dict p; if decide (d = ∅) then ret b else ret a
  end.

(** [fit].  [indices] is [list(range(len(labels)))] as [random.shuffle] left
    it.  The method returns [self], the object the state holds. *)
Definition fit (indices : list nat) (examples : list example) (labels : list label)
    (params : option loc) : M unit :=
  m ← get_self;
  params ← py_or params (ModelConfig.params (config m));
  let skip_param_selection :=
    bool_decide (params ≠ None) || bool_decide (ModelConfig.param_selection (config m) = None) in
  examples ← lift (mapM (py_index examples) indices);
  labels ← lift (mapM (py_index labels) indices);
  let distinct_labels : gset label := list_to_set labels in
  if decide (size distinct_labels ≤ 1) then ret tt
  else
    let y := encode_label <$> labels in
    Xyg ← get_feature_matrix examples (Some y) true;
    let '(X, y, groups) := Xyg in
    if skip_param_selection then
      clf ← _fit X y params;
      set_self (set_clf (Some clf));;
      set_self (set_current_params params)
    else
      best ← _fit_cv X y groups None;
      set_self (set_clf (Some best.1));;
      set_self (set_current_params (Some best.2)).

End Training.

(** *** Parameter selection *)

Section Selection.
Context `{ParamSearch}.

(** [select_params]: fits the feature pipeline on the examples as they are
    given, runs the parameter search with the given settings and keeps the
    classifier it found; the parameters it found are returned. *)
Definition select_params (examples : list example) (labels : list label)
    (selection_settings : option loc) : M loc :=
  let y := encode_label <$> labels in
  Xyg ← get_feature_matrix examples (Some y) true;
  let '(X, y, groups) := Xyg in
  best ← _fit_cv X y groups selection_settings;
  set_self (set_clf (Some best.1));;
  ret best.2.

End Selection.

(** *** Evaluation *)

(** [Model._get_effective_config] of the base class, which builds the
    configuration that is in effect after parameter selection, and its
    [label_type] attribute. *)
Class Evaluation `{Collaborators} := {
  effective_config : Type;
  _get_effective_config : M effective_config;
  label_type : effective_config → string;
}.

Section Evaluating.
Context `{Evaluation}.

(** An [EvaluatedExample], as the five arguments it is built from. *)
Record EvaluatedExample := {
  evaluated : example;
  expected : label;
  predicted : option label;
  probas : gmap label float;
  evaluated_label_type : string;
}.

(** A [StandardModelEvaluation], as the two arguments it is built from. *)
Record StandardModelEvaluation := {
  evaluation_config : effective_config;
  evaluations : list EvaluatedExample;
}.

(** [evaluate]: the predictions for the examples, each beside its expected
    label. *)
Definition evaluate (examples : list example) (labels : list label)
    : M StandardModelEvaluation :=
  predictions ← predict_proba examples;
  config ← _get_effective_config;
  evaluations ← lift (mapM (λ ie : nat * example,
                              let '(i, e) := ie in
                              expected ← py_index labels i;
                              prediction ← py_index predictions i;
                              Ok {| evaluated := e;
                                    expected := expected;
                                    predicted := prediction.1;
                                    probas := prediction.2;
                                    evaluated_label_type := label_type config |})
                           (imap pair examples));
  ret {| evaluation_config := config; evaluations := evaluations |}.

End Evaluating.

(** ** Pickling *)

Section Pickling.
Context {pyobj : Type}.

(** The value of an attribute: a dict of runtime resources by name, or any
    other object. *)
Inductive attr :=
| ADict (d : gmap string pyobj)
| AObj (o : pyobj).

(** The names of the two resources that are kept (constants of the helpers
    module) and the empty dict [{}]. *)
Context (WORD_FREQ_RSC QUERY_FREQ_RSC : string) (empty_dict : pyobj).

(** [__getstate__], on [self.__dict__]: the information needed to pickle an
    instance. *)
Definition __getstate__ (__dict__ : gmap string attr) : res (gmap string attr) :=
  let attributes := __dict__ in
  match __dict__ !! "_resources" with
  | None => Raise (AttributeError "_resources")
  | Some (AObj _) => Raise TypeError
  | Some (ADict _resources) =>
      let kept : gmap string pyobj :=
        <[QUERY_FREQ_RSC := default empty_dict (_resources !! QUERY_FREQ_RSC)]>
          (<[WORD_FREQ_RSC := default empty_dict (_resources !! WORD_FREQ_RSC)]> ∅) in
      Ok (<["_resources" := ADict kept]> attributes)
  end.

End Pickling.

(** ** Notions the statements use *)

(** How [_convert_params] leaves the dict [d] it was given, as [d']. *)
Definition converted (d d' : gmap string pval) : Prop :=
  match d !! "class_weight" with
  | Some _ => ∃ v', d' = <["class_weight" := v']> d
  | None =>
      match d !! "class_bias" with
      | Some _ => ∃ v', d' = delete "class_bias" (<["class_weight" := v']> d)
      | None => d' = d
      end
  end.

(** The key of a weight mapping as a class id: a Python int stays, a raw
    label becomes its position in the fitted classes, which the encoder
    returns as a numpy integer; a numpy integer is neither an int nor a
    class. *)
Definition class_key (classes : list string) (k : wkey) : option wkey :=
  match k with
  | KInt i => Some (KInt i)
  | KLabel s => (λ i, KNumpy (Z.of_nat i)) <$> SKLabelEncoder.index_of classes s
  | KNumpy _ => None
  end.

(** [w'] is the weight mapping [w] with its keys translated: every key of [w']
    is the translation of a key of [w], each weight of [w'] is a weight of [w]
    under a key that translates to the same class id, every key of [w] has its
    class id among the keys of [w'], and when no two keys of [w] translate to
    the same class id, [w'] is [w] item by item. *)
Definition translated (classes : list string) (w w' : wdict) : Prop :=
  (∀ k', k' ∈ w'.*1 → ∃ k, k ∈ w.*1 ∧ class_key classes k = Some k')
  ∧ (∀ k' v, (k', v) ∈ w' →
       ∃ k k0, (k, v) ∈ w ∧ class_key classes k = Some k0 ∧ key_value k0 = key_value k')
  ∧ (∀ k, k ∈ w.*1 →
       ∃ k0 k', class_key classes k = Some k0 ∧ k' ∈ w'.*1 ∧ key_value k' = key_value k0)
  ∧ (∀ keys, mapM (class_key classes) w.*1 = Some keys → NoDup (key_value <$> keys) →
             w' = zip keys w.*2).

(** The parameter value [v] holds the weight mappings [ws]: as their list in
    the grid shape, as the one mapping in the single shape. *)
Definition weights_shape (is_grid : bool) (ws : list wdict) (v : pval) : Prop :=
  if is_grid then v = PWeightsGrid ws else ∃ w, ws = [w] ∧ v = PWeights w.

(** The parameter value [v] holds the class-bias candidates [bs]: as their
    list in the grid shape, as the one bias in the single shape. *)
Definition bias_shape (is_grid : bool) (bs : list float) (v : pval) : Prop :=
  if is_grid then v = PFloats bs else ∃ b, bs = [b] ∧ v = PFloat b.

(** The number of training examples of class [c]. *)
Definition class_count (labels : list string) (c : string) : nat :=
  length (filter (λ l, l = c) labels).

(** [total_example_count / (num_classes * count_c)]. *)
Definition balanced_weight (labels classes : list string) (c : string) : float :=
  (PyFloat.of_nat (length labels)
   / (PyFloat.of_nat (length classes) * PyFloat.of_nat (class_count labels c)))%float.

(** [(1 - bias) + bias * balanced_weight]. *)
Definition interpolate (bias w : float) : float := ((1 - bias) + bias * w)%float.

(** The weight mapping of one bias: class id [i] to the interpolated weight of
    the class [classes[i]]. *)
Definition bias_class_weight (labels classes : list string) (bias : float) : wdict :=
  imap (λ i c, (KInt (Z.of_nat i), interpolate bias (balanced_weight labels classes c)))
       classes.





Section Notions.
Context `{Collaborators}.

(** A stage of the pipeline that may be left out: fitted and applied when it
    is configured, and otherwise the matrix goes on as it is. *)
Definition fit_stage {T} (stage : option T) (fit_transform : T → matrix → T * res matrix)
    (X : matrix) : option T * res matrix :=
  match stage with
  | Some t => let '(t', r) := fit_transform t X in (Some t', r)
  | None => (None, Ok X)
  end.

(** The same for a stage that is only applied. *)
Definition apply_stage {T} (stage : option T) (transform : T → matrix → res matrix)
    (X : matrix) : res matrix :=
  match stage with
  | Some t => transform t X
  | None => Ok X
  end.

(** The label of each class id. *)
Definition class_labels (classes : list string) : list label := decode_label <$> classes.

(** [p] at index [i] is the first maximum of [row]. *)
Definition first_max (row : list float) (i : nat) (p : float) : Prop :=
  row !! i = Some p
  ∧ (∀ j q, row !! j = Some q → PrimFloat.leb q p = true)
  ∧ (∀ j q, j < i → row !! j = Some q → PrimFloat.ltb q p = true).

(** The distribution [_predict_proba] returns for [row]. *)
Definition distribution_of (classes : list string) (row : list float)
    (probabilities : gmap label float) : Prop :=
  (∀ j l, class_labels classes !! j = Some l → probabilities !! l = row !! j)
  ∧ (∀ l, l ∉ class_labels classes → probabilities !! l = None).

(** A probability: a float in [[0, 1]]. *)
Definition probability (v : float) : Prop :=
  PrimFloat.leb 0 v = true ∧ PrimFloat.leb v 1 = true.

(** What [_predict_proba] returns for [row]: the distribution of [row], and as
    top label the label of the first index that holds its maximum. *)
Definition top_is_first_max (classes : list string) (row : list float)
    (pred : option label * gmap label float) : Prop :=
  distribution_of classes row pred.2
  ∧ ∃ l i p,
      pred.1 = Some l
      ∧ class_labels classes !! i = Some l
      ∧ first_max row i p
      ∧ pred.2 !! l = Some p
      ∧ ∀ l' q, pred.2 !! l' = Some q → PrimFloat.leb q p = true.

(** A log-probability as [predict_log_proba] reports it. *)
Definition reported (v : float) : float :=
  if PrimFloat.eqb v neg_infinity then PyFloat._NEG_INF else v.

End Notions.

(** Notions of the further properties. *)

Section TrainingNotions.
Context `{ParamSearch}.

(** The direct training of [fit], once the parameters are resolved and the
    data shuffled. *)
Definition fit_direct (examples' : list example) (labels' : list label)
    (params' : option loc) (st : pystate) : pystate * res unit :=
  match get_feature_matrix examples' (Some (encode_label <$> labels')) true st with
  | (st1, Ok (X, y, groups)) =>
      match _fit X y params' st1 with
      | (st2, Ok clf) =>
          ({| heap := heap st2;
              self := set_current_params params' (set_clf (Some clf) (self st2)) |},
           Ok tt)
      | (st2, Raise e) => (st2, Raise e)
      end
  | (st1, Raise e) => (st1, Raise e)
  end.

(** [fit] called with [params] trains directly, without a search for
    parameters: it was given parameters that are not empty, or the
    configuration has parameters, or it has no selection settings. *)
Definition trains_directly (params : option loc) (st : pystate) : Prop :=
  (∃ p, params = Some p ∧ heap st !!! p ≠ ∅)
  ∨ ModelConfig.params (config (self st)) ≠ None
  ∨ ModelConfig.param_selection (config (self st)) = None.

End TrainingNotions.

(** A weight mapping whose keys are class ids, each once. *)
Definition class_id_keys (w : wdict) : Prop :=
  NoDup w.*1 ∧ ∀ k, k ∈ w.*1 → ∃ i, k = KInt i.

(** A [class_weight] value all of whose keys are Python ints already. *)
Definition int_keyed (v : pval) : Prop :=
  match v with
  | PWeights w => ∀ k, k ∈ w.*1 → ∃ i, k = KInt i
  | PWeightsGrid ws => Forall (λ w : wdict, ∀ k, k ∈ w.*1 → ∃ i, k = KInt i) ws
  | _ => True
  end.

Section EvaluationNotions.
Context `{Evaluation}.

(** The evaluations of the examples, each with its expected label and its
    prediction. *)
Definition evaluated_examples (cfg : effective_config) (examples : list example)
    (labels : list label) (predictions : list (option label * gmap label float))
    : list EvaluatedExample :=
  (λ elp : example * label * (option label * gmap label float),
     {| evaluated := elp.1.1;
        expected := elp.1.2;
        predicted := elp.2.1;
        probas := elp.2.2;
        evaluated_label_type := label_type cfg |})
    <$> zip (zip examples labels) predictions.

End EvaluationNotions.

(** ** A small instance *)

(** Collaborators small enough to run: an example is its one feature, the
    pipeline stages pass the features on, and a classifier is the probability
    row and the log-probability row it predicts for every example. *)
Module Instance.

#[local] Instance collaborators : Collaborators := {|
  example := string;
  label := string;
  featmap := string;
  matrix := list string;
  vectorizer := bool;
  scaler := bool;
  selector := bool;
  classifier := list float * list float;
  _extract_features := λ e, Ok e;
  py_repr := λ s, "'" +:+ s +:+ "'";
  encode_label := λ l, l;
  decode_label := λ s, s;
  DictVectorizer := false;
  vec_fit_transform := λ _ X, (true, Ok X);
  vec_transform := λ v X, if v then Ok X else Raise (CollaboratorError "not fitted");
  StandardScaler := false;
  MaxAbsScaler := false;
  scaler_fit_transform := λ _ X, (true, Ok X);
  scaler_transform := λ _ X, Ok X;
  SelectFromModel := false;
  SelectPercentile := false;
  selector_fit_transform := λ _ X _, (true, Ok X);
  selector_transform := λ _ X, Ok X;
  clf_fit := λ _ _ _ _, Ok ([0.5; 0.5], [-0x1.62e42fefa39efp-1; -0x1.62e42fefa39efp-1])%float;
  clf_predict := λ _ X, Ok ((λ _, 0) <$> X);
  clf_predict_proba := λ clf X, Ok ((λ _, clf.1) <$> X);
  clf_predict_log_proba := λ clf X, Ok ((λ _, clf.2) <$> X);
|}.

#[local] Instance search : ParamSearch := {|
  _fit_cv := λ _ _ _ _, raise (CollaboratorError "no search");
|}.

Definition settings (classifier_type : string) : ModelConfig.t := {|
  ModelConfig.model_settings := Some {[ "classifier_type" := classifier_type ]};
  ModelConfig.params := None;
  ModelConfig.param_selection := None;
|}.

(** A model fitted on four classes whose classifier finds them equally likely. *)
Definition four_classes : TextModel := {|
  config := settings "logreg";
  _class_encoder := Some ["a"; "b"; "c"; "d"];
  _feat_vectorizer := true;
  _feat_selector := None;
  _feat_scaler := None;
  _clf := Some ([0.25; 0.25; 0.25; 0.25],
                [-0x1.62e42fefa39efp+0; -0x1.62e42fefa39efp+0;
                 -0x1.62e42fefa39efp+0; -0x1.62e42fefa39efp+0])%float;
  _current_params := None;
|}.

(** A model fitted on two classes, the second of which the classifier excludes. *)
Definition two_classes : TextModel := {|
  config := settings "logreg";
  _class_encoder := Some ["a"; "b"];
  _feat_vectorizer := true;
  _feat_selector := None;
  _feat_scaler := None;
  _clf := Some ([1; 0], [0; neg_infinity])%float;
  _current_params := None;
|}.

Definition state_of (m : TextModel) : pystate :=
  {| heap := ∅; self := m |}.

(** The parameter dicts of the instance, by reference. *)
Definition plain_params : loc := 1%positive.
Definition bias_params : loc := 2%positive.
Definition weight_params : loc := 3%positive.
Definition bias_grid : loc := 4%positive.

Definition dicts : gmap loc (gmap string pval) :=
  {[ plain_params := {[ "C" := POther "10" ]};
     bias_params := {[ "C" := POther "10"; "class_bias" := PFloat 0.5 ]};
     weight_params :=
       {[ "class_weight" := PWeights [(KLabel "b", 2%float); (KInt 0, 1%float)] ]};
     bias_grid := {[ "class_bias" := PFloats [0; 0.5; 1]%float ]} ]}.

(** A model that was never fitted, of a given classifier type. *)
Definition unfit (classifier_type : string) : pystate :=
  {| heap := dicts; self := __init__ (settings classifier_type) |}.

(** The model once the feature pipeline and the class encoder are fitted on
    the labels [a] and [b], before there is a classifier. *)
Definition preprocessed (classifier_type : string) : TextModel :=
  {| config := settings classifier_type;
     _class_encoder := Some ["a"; "b"];
     _feat_vectorizer := true;
     _feat_selector := None;
     _feat_scaler := None;
     _clf := None;
     _current_params := None |}.

(** Settings that name a scaler and no selector. *)
Definition scaled_settings : ModelConfig.t := {|
  ModelConfig.model_settings :=
    Some {[ "classifier_type" := "logreg"; "feature_scaler" := "std-dev" ]};
  ModelConfig.params := None;
  ModelConfig.param_selection := None;
|}.

(** A model with a scaler and no selector that was never fitted. *)
Definition with_scaler : pystate :=
  {| heap := dicts; self := __init__ scaled_settings |}.

(** The same model after the pipeline was fitted on the labels [a] and [b]. *)
Definition with_scaler_fitted : pystate :=
  {| heap := dicts;
     self := {| config := scaled_settings;
                _class_encoder := Some ["a"; "b"];
                _feat_vectorizer := true;
                _feat_selector := None;
                _feat_scaler := Some true;
                _clf := None;
                _current_params := None |} |}.

(** The classifier of [four_classes]. *)
Definition uniform : classifier :=
  ([0.25; 0.25; 0.25; 0.25],
   [-0x1.62e42fefa39efp+0; -0x1.62e42fefa39efp+0;
    -0x1.62e42fefa39efp+0; -0x1.62e42fefa39efp+0])%float.

(** The attributes of an instance that holds three runtime resources. *)
Definition attributes : gmap string (@attr string) :=
  {[ "config" := AObj "ModelConfig";
     "_resources" := ADict {[ "w_freq" := "word counts"; "gazetteers" := "entities";
                              "sys_types" := "types" ]} ]}.

End Instance.

(** * Blueprints

    [mmworkbench/_util.py]: the callable [Blueprint], which sets up a
    blueprint application from archives kept in S3 and cached locally.  The
    file system, S3, the tar archives, the knowledge base and the logger are
    the operations of the class [System], each a function on the state of the
    world. *)

Module Util.

Definition BLUEPRINT_S3_BUCKET : string := "mindmeld".
Definition BLUEPRINT_S3_KEY_BASE : string := "workbench-data/blueprints".
Definition BLUEPRINT_APP_ARCHIVE : string := "app.tar.gz".
Definition BLUEPRINT_KB_ARCHIVE : string := "kb.tar.gz".

(** The keys of the dict [BLUEPRINTS]. *)
Definition BLUEPRINTS : list string := ["quickstart"; "food_ordering"; "template"].

(** The exceptions the module raises, catches or lets through.  [OSError] is
    also [IOError]; [ClientError] carries the error code of the response;
    [OtherError] is any other exception of a collaborator. *)
Inductive error :=
| ValueError (msg : string)
| EnvironmentError (msg : string)
| NoCredentialsError
| ClientError (code : string)
| KnowledgeBaseConnectionError
| OSError
| TypeError
| OtherError (what : string).

Inductive result (A : Type) :=
| Returns (a : A)
| Raises (e : error).
Arguments Returns {A} a.
Arguments Raises {A} e.

Class System := {
  world : Type;
  datetime : Type;
  s3_service : Type;
  tarball : Type;
  (** [a < b] on datetimes *)
  datetime_lt : datetime → datetime → bool;
  (** [datetime.datetime(datetime.MINYEAR, 1, 1, tzinfo=tz.tzutc())] *)
  MINYEAR_utc : datetime;
  (** Python's [repr] of a string *)
  py_repr : string → string;
  (** [path.get_cached_blueprint_path] *)
  get_cached_blueprint_path : string → string;
  (** [os.path.join], [os.path.split], [os.path.splitext] *)
  os_path_join : string → string → string;
  os_path_split : string → string * string;
  os_path_splitext : string → string * string;
  (** [os.getcwd()], [os.path.abspath], [os.environ.get] *)
  os_getcwd : world → string;
  os_path_abspath : string → world → string;
  os_environ_get : string → world → option string;
  (** [os.makedirs] *)
  os_makedirs : string → world → world * result unit;
  (** [datetime.datetime.fromtimestamp(os.path.getmtime(path), tz.tzlocal())] *)
  os_path_getmtime : string → world → world * result datetime;
  (** the file names that [next(os.walk(dir))] lists *)
  os_walk_files : string → world → world * result (list string);
  (** [tarfile.open(path)] and [tarball.extractall(path=dir)] *)
  tarfile_open : string → world → world * result tarball;
  tarball_extractall : tarball → string → world → world * result unit;
  (** [boto3.resource('s3')], [ObjectSummary(bucket, key).last_modified] and
      [Bucket(bucket).download_file(key, path)] *)
  boto3_resource_s3 : world → world * result s3_service;
  s3_last_modified : s3_service → string → string → world → world * result datetime;
  s3_download_file : s3_service → string → string → string → world → world * result unit;
  (** [QuestionAnswerer.load_kb(app_name, index_name, data_file, es_host)] *)
  load_kb : string → string → string → string → world → world * result unit;
  (** [logger.<level>(message, arguments)] *)
  logger : string → string → list string → world → world;
}.

Section Blueprint.
Context `{System}.

(** An operation on the world that returns or raises. *)
Definition W (A : Type) : Type := world → world * result A.

Definition returns {A} (a : A) : W A := λ w, (w, Returns a).
Definition raises {A} (e : error) : W A := λ w, (w, Raises e).
Definition then_ {A B} (m : W A) (f : A → W B) : W B :=
  λ w, match m w with
       | (w', Returns a) => f a w'
       | (w', Raises e) => (w', Raises e)
       end.
Definition read {A} (f : world → A) : W A := λ w, (w, Returns (f w)).
Definition log (level message : string) (arguments : list string) : W unit :=
  λ w, (logger level message arguments w, Returns tt).

(** [try: m except ...: handler]: [handler e] is the clause that catches [e],
    if there is one. *)
Definition try_except {A} (m : W A) (handler : error → option (W A)) : W A :=
  λ w, match m w with
       | (w', Returns a) => (w', Returns a)
       | (w', Raises e) =>
           match handler e with
           | Some clause => clause w'
           | None => (w', Raises e)
           end
       end.

Global Instance W_ret : MRet W := @returns.
Global Instance W_bind : MBind W := λ A B f m, then_ m f.

(** [a or b] for an optional string: [a] unless it is [None] or empty. *)
Definition str_or (a : option string) (b : string) : string :=
  match a with
  | Some s => if decide (s = "") then b else s
  | None => b
  end.

(** ['Unknown blueprint name: {!r}'.format(name)] *)
Definition unknown_blueprint (name : string) : error :=
  ValueError ("Unknown blueprint name: " +:+ py_repr name).

Definition no_credentials : string :=
  "Unable to locate AWS credentials. Cannot download blueprint.".

Definition _fetch_archive (name archive_type : string) : W string :=
  let cache_dir := get_cached_blueprint_path name in
  try_except (os_makedirs cache_dir)
             (λ e, match e with OSError => Some (returns tt) | _ => None end);;
  let filename :=
    ({[ "app" := BLUEPRINT_APP_ARCHIVE; "kb" := BLUEPRINT_KB_ARCHIVE ]} : gmap string string)
      !! archive_type in
  match filename with
  | None => raises TypeError
  | Some filename =>
      let local_archive := os_path_join cache_dir filename in
      s3_service ← boto3_resource_s3;
      let object_key :=
        BLUEPRINT_S3_KEY_BASE +:+ "/" +:+ name +:+ "/" +:+ filename in
      remote_modified ←
        try_except (s3_last_modified s3_service BLUEPRINT_S3_BUCKET object_key)
                   (λ e, match e with
                         | NoCredentialsError =>
                             Some (log "error" no_credentials [];;
                                   raises (EnvironmentError no_credentials))
                         | _ => None
                         end);
      local_modified ←
        try_except (os_path_getmtime local_archive)
                   (λ e, match e with OSError => Some (returns MINYEAR_utc) | _ => None end);
      (if datetime_lt remote_modified local_modified
       then log "info" "Using cached %r %s archive" [name; archive_type]
       else
         log "info" "Fetching %s archive from %r" [archive_type; object_key];;
         s3_download_file s3_service BLUEPRINT_S3_BUCKET object_key local_archive);;
      returns local_archive
  end.

Definition setup_app (name : string) (app_path : option string) : W string :=
  if decide (name ∈ BLUEPRINTS) then
    cwd ← read os_getcwd;
    let app_path := str_or app_path (os_path_join cwd name) in
    app_path ← read (os_path_abspath app_path);
    local_archive ← _fetch_archive name "app";
    tarball ← tarfile_open local_archive;
    tarball_extractall tarball app_path;;
    log "info" "Created %r app at %r" [name; app_path];;
    returns app_path
  else raises (unknown_blueprint name).

(** The loop of [setup_kb] over the index files. *)
Fixpoint load_indexes (app_name kb_dir es_host : string) (index_files : list string)
    : W unit :=
  match index_files with
  | [] => returns tt
  | index :: rest =>
      let index_name := (os_path_splitext index).1 in
      let data_file := os_path_join kb_dir index in
      try_except (load_kb app_name index_name data_file es_host)
                 (λ e, match e with
                       | KnowledgeBaseConnectionError =>
                           Some (log "error"
                                     ("Cannot set up knowledge base. Unable to connect to "
                                      +:+ "Elasticsearch instance at %r. Confirm it is running "
                                      +:+ "or specify an alternate instance with the "
                                      +:+ "MM_ES_HOST environment variable")
                                     [es_host];;
                                 raises e)
                       | _ => None
                       end);;
      load_indexes app_name kb_dir es_host rest
  end.

Definition setup_kb (name : string) (app_path es_host : option string) : W unit :=
  if decide (name ∈ BLUEPRINTS) then
    cwd ← read os_getcwd;
    let app_path := str_or app_path (os_path_join cwd name) in
    app_path ← read (os_path_abspath app_path);
    let app_name := (os_path_split app_path).2 in
    environment ← read (os_environ_get "MM_ES_HOST");
    let es_host := str_or es_host (default "localhost" environment) in
    let cache_dir := get_cached_blueprint_path name in
    fetched ←
      try_except (local_archive ← _fetch_archive name "kb"; returns (Some local_archive))
                 (λ e, match e with
                       | ClientError code =>
                           Some (if decide (code = "404")
                                 then log "warning" "No knowledge base to set up." [];;
                                      returns None
                                 else raises e)
                       | _ => None
                       end);
    match fetched with
    | None => returns tt
    | Some local_archive =>
        let kb_dir := os_path_join cache_dir "kb" in
        tarball ← tarfile_open local_archive;
        tarball_extractall tarball kb_dir;;
        index_files ← os_walk_files kb_dir;
        load_indexes app_name kb_dir es_host index_files;;
        log "info" "Created %r knowledge base at %r" [name; es_host]
    end
  else raises (unknown_blueprint name).

(** [Blueprint.__call__]. *)
Definition __call__ (name : string) (app_path es_host : option string) : W string :=
  if decide (name ∈ BLUEPRINTS) then
    app_path ← setup_app name app_path;
    setup_kb name (Some app_path) es_host;;
    returns app_path
  else raises (unknown_blueprint name).

End Blueprint.

End Util.

(** * The query factory

    [mmworkbench/query_factory.py]: the class [QueryFactory], which builds a
    [Query] from a text with its tokenizer and, if it has one, its
    preprocessor. *)

Module QueryFactory.

(** A value of a token dict. *)
Inductive token_value :=
| TStr (s : string)
| TInt (i : Z).

Definition token : Type := gmap string token_value.

(** A [Query], as the four arguments it is built from and the attribute
    [system_entity_candidates], which is set afterwards. *)
Record Query (text_form char_map candidates : Type) := {
  raw_text : string;
  processed_text : string;
  normalized_tokens : list token;
  char_maps : odict (text_form * text_form) char_map;
  system_entity_candidates : option candidates;
}.
Arguments raw_text {_ _ _} _.
Arguments processed_text {_ _ _} _.
Arguments normalized_tokens {_ _ _} _.
Arguments char_maps {_ _ _} _.
Arguments system_entity_candidates {_ _ _} _.

Class Components := {
  text_form : Type;
  text_form_eq_dec :: EqDecision text_form;
  (** the constants of [core] *)
  TEXT_FORM_RAW : text_form;
  TEXT_FORM_PROCESSED : text_form;
  TEXT_FORM_NORMALIZED : text_form;
  char_map : Type;
  candidates : Type;
  Preprocessor : Type;
  Tokenizer : Type;
  (** [preprocessor.process] and [preprocessor.get_char_index_map] *)
  process : Preprocessor → string → res string;
  preprocessor_get_char_index_map :
    Preprocessor → string → string → res (char_map * char_map);
  (** [tokenizer.tokenize], [tokenizer.get_char_index_map] and
      [tokenizer.normalize] *)
  tokenize : Tokenizer → string → bool → res (list token);
  tokenizer_get_char_index_map : Tokenizer → string → string → res (char_map * char_map);
  tokenizer_normalize : Tokenizer → string → res string;
  (** [ser.get_candidates] *)
  get_candidates : Query text_form char_map candidates → res candidates;
}.

Section QueryFactory.
Context `{Components}.

(** The attributes of a [QueryFactory]. *)
Record t := {
  tokenizer : Tokenizer;
  preprocessor : option Preprocessor;
}.

(** [QueryFactory(tokenizer, preprocessor=None)]. *)
Definition __init__ (tokenizer : Tokenizer) (preprocessor : option Preprocessor) : t :=
  {| tokenizer := tokenizer; preprocessor := preprocessor |}.

(** [' '.join([t['entity'] for t in normalized_tokens])]. *)
Definition join_entities (normalized_tokens : list token) : res string :=
  entities ← mapM (λ t : token, match t !! "entity" with
                                | Some v => Ok v
                                | None => Raise (KeyError "entity")
                                end) normalized_tokens;
  items ← mapM (λ v, match v with
                     | TStr s => Ok s
                     | TInt _ => Raise TypeError
                     end) entities;
  Ok (String.concat " " items).

(** [create_query]: a query with the given text. *)
Definition create_query (self : t) (text : string)
    : res (Query text_form char_map candidates) :=
  let raw_text := text in
  let char_maps : odict (text_form * text_form) char_map := [] in
  '(processed_text, char_maps) ←
    match preprocessor self with
    | Some preprocessor =>
        processed_text ← process preprocessor raw_text;
        maps ← preprocessor_get_char_index_map preprocessor raw_text processed_text;
        let '(forward, backward) := maps in
        let char_maps :=
          dict_setitem (TEXT_FORM_RAW, TEXT_FORM_PROCESSED) forward char_maps in
        let char_maps :=
          dict_setitem (TEXT_FORM_PROCESSED, TEXT_FORM_RAW) backward char_maps in
        Ok (processed_text, char_maps)
    | None => Ok (raw_text, char_maps)
    end;
  normalized_tokens ← tokenize (tokenizer self) processed_text false;
  normalized_text ← join_entities normalized_tokens;
  maps ← tokenizer_get_char_index_map (tokenizer self) processed_text normalized_text;
  let '(forward, backward) := maps in
  let char_maps :=
    dict_setitem (TEXT_FORM_PROCESSED, TEXT_FORM_NORMALIZED) forward char_maps in
  let char_maps :=
    dict_setitem (TEXT_FORM_NORMALIZED, TEXT_FORM_PROCESSED) backward char_maps in
  let query := {| raw_text := raw_text;
                  processed_text := processed_text;
                  normalized_tokens := normalized_tokens;
                  char_maps := char_maps;
                  system_entity_candidates := None |} in
  found ← get_candidates query;
  Ok {| raw_text := raw_text;
        processed_text := processed_text;
        normalized_tokens := normalized_tokens;
        char_maps := char_maps;
        system_entity_candidates := Some found |}.

(** [normalize]: the text, normalized by the tokenizer. *)
Definition normalize (self : t) (text : string) : res string :=
  tokenizer_normalize (tokenizer self) text.

End QueryFactory.

End QueryFactory.

(** ** Small instances of the other collaborators *)

(** An effective configuration that is just its label type, a world of cached
    files, S3 objects and the effects so far, and a tokenizer that makes one
    token of the whole text. *)
Module Scenarios.

Import Instance.
#[local] Existing Instance collaborators.

#[local] Instance evaluation : Evaluation := {|
  effective_config := string;
  _get_effective_config := λ st, (st, Ok "class");
  label_type := λ cfg, cfg;
|}.

(** A model fitted on the labels [a] and [b] whose classifier finds them
    equally likely. *)
Definition fitted : pystate :=
  {| heap := dicts;
     self := {| config := settings "logreg";
                _class_encoder := Some ["a"; "b"];
                _feat_vectorizer := true;
                _feat_selector := None;
                _feat_scaler := None;
                _clf := Some ([0.5; 0.5], [-0x1.62e42fefa39efp-1; -0x1.62e42fefa39efp-1])%float;
                _current_params := Some plain_params |} |}.

(** A model that was never fitted, configured with parameters and with
    selection settings. *)
Definition configured (params param_selection : option loc) : pystate :=
  {| heap := dicts;
     self := __init__ {| ModelConfig.model_settings := Some {[ "classifier_type" := "logreg" ]};
                         ModelConfig.params := params;
                         ModelConfig.param_selection := param_selection |} |}.

(** A parameter search that returns a fixed classifier and the selection
    settings it was given, or the plain parameters. *)
#[local] Instance fixed_search : ParamSearch := {|
  _fit_cv := λ _ _ _ selection_settings st,
    (st, Ok (([1; 0], [0; neg_infinity])%float, default plain_params selection_settings));
|}.

(** The world: the modification times of the cached files, the S3 objects
    with the times they were last modified, and the effects so far, latest
    first. *)
Record world := {
  cached : gmap string Z;
  objects : gmap string Z;
  effects : list string;
}.

Definition effect (e : string) (w : world) : world :=
  {| cached := cached w; objects := objects w; effects := e :: effects w |}.

#[local] Instance system : Util.System := {|
  Util.world := world;
  Util.datetime := Z;
  Util.s3_service := unit;
  Util.tarball := string;
  Util.datetime_lt := Z.ltb;
  Util.MINYEAR_utc := (-62135596800)%Z;
  Util.py_repr := λ s, "'" +:+ s +:+ "'";
  Util.get_cached_blueprint_path := λ name, "/cache/" +:+ name;
  Util.os_path_join := λ a b, a +:+ "/" +:+ b;
  Util.os_path_split := λ p, ("/work", p);
  Util.os_path_splitext := λ p, (p, "");
  Util.os_getcwd := λ _, "/work";
  Util.os_path_abspath := λ p _, p;
  Util.os_environ_get := λ _ _, None;
  Util.os_makedirs := λ _ w, (w, Util.Raises Util.OSError);
  Util.os_path_getmtime := λ p w,
    (w, match cached w !! p with
        | Some t => Util.Returns t
        | None => Util.Raises Util.OSError
        end);
  Util.os_walk_files := λ _ w, (w, Util.Returns ["stores.json"]);
  Util.tarfile_open := λ p w, (w, Util.Returns p);
  Util.tarball_extractall := λ tarball dir w,
    (effect ("extract " +:+ tarball +:+ " to " +:+ dir) w, Util.Returns tt);
  Util.boto3_resource_s3 := λ w, (w, Util.Returns tt);
  Util.s3_last_modified := λ _ _ key w,
    (w, match objects w !! key with
        | Some t => Util.Returns t
        | None => Util.Raises (Util.ClientError "404")
        end);
  Util.s3_download_file := λ _ _ key p w,
    ({| cached := <[p := default 0%Z (objects w !! key)]> (cached w);
        objects := objects w;
        effects := ("download " +:+ key) :: effects w |},
     Util.Returns tt);
  Util.load_kb := λ app_name index_name _ _ w,
    (effect ("load " +:+ index_name +:+ " of " +:+ app_name) w, Util.Returns tt);
  Util.logger := λ level message _ w, effect (level +:+ ": " +:+ message) w;
|}.

(** A world in which the blueprint [quickstart] has an application archive,
    cached and up to date, and no knowledge base archive. *)
Definition app_only : world :=
  {| cached := {[ "/cache/quickstart/app.tar.gz" := 200%Z ]};
     objects := {[ "workbench-data/blueprints/quickstart/app.tar.gz" := 100%Z ]};
     effects := [] |}.

(** The world after the application of [quickstart] was set up from the
    cached archive, and after the call of the blueprint. *)
Definition app_extracted : world :=
  {| cached := cached app_only;
     objects := objects app_only;
     effects := ["info: Created %r app at %r";
                 "extract /cache/quickstart/app.tar.gz to /work/quickstart";
                 "info: Using cached %r %s archive"] |}.

Definition app_set_up : world :=
  effect "warning: No knowledge base to set up." app_extracted.

#[local] Instance components : QueryFactory.Components := {|
  QueryFactory.text_form := nat;
  QueryFactory.TEXT_FORM_RAW := 0;
  QueryFactory.TEXT_FORM_PROCESSED := 1;
  QueryFactory.TEXT_FORM_NORMALIZED := 2;
  QueryFactory.char_map := string;
  QueryFactory.candidates := list string;
  QueryFactory.Preprocessor := unit;
  QueryFactory.Tokenizer := unit;
  QueryFactory.process := λ _ text, Ok text;
  QueryFactory.preprocessor_get_char_index_map := λ _ _ _, Ok ("forward", "backward");
  QueryFactory.tokenize := λ _ text _,
    Ok [({[ "entity" := QueryFactory.TStr text ]} : QueryFactory.token)];
  QueryFactory.tokenizer_get_char_index_map := λ _ _ _, Ok ("forward", "backward");
  QueryFactory.tokenizer_normalize := λ _ text, Ok text;
  QueryFactory.get_candidates := λ _, Ok [];
|}.

(** A query factory with a preprocessor. *)
Definition factory : QueryFactory.t := QueryFactory.__init__ tt (Some tt).

End Scenarios.

(** * Verification *)

(** ** Facts about binary64 floats *)

Module PyFloatFacts.
Import PyFloat.

Lemma Prim2SF_inj x y : Prim2SF x = Prim2SF y → x = y.
Proof.
  intros E. rewrite <- (SF2Prim_Prim2SF x), <- (SF2Prim_Prim2SF y). by rewrite E.
Qed.

Lemma SFcompare_rank x y :
  SFcompare x y =
    match sf_rank x, sf_rank y with
    | Some a, Some b => Some (lex3_compare a b)
    | _, _ => None
    end.
Proof.
  destruct x as [s| s| |s m e], y as [s'|s'| |s' m' e']; simpl; try reflexivity;
    try (destruct s; try destruct s'; reflexivity).
  destruct s, s'; simpl; try reflexivity.
  - replace (- e ?= - e')%Z with (CompOpp (e ?= e')%Z)
      by (rewrite <- Z.compare_antisym; symmetry; apply Z.compare_opp).
    destruct (e ?= e')%Z; reflexivity.
Qed.

Lemma lex3_compare_Lt a b : lex3_compare a b = Lt ↔ lex3_lt a b.
Proof.
  destruct a as [[a1 a2] a3], b as [[b1 b2] b3]. unfold lex3_compare, lex3_lt. simpl.
  destruct (Z.compare_spec a1 b1), (Z.compare_spec a2 b2), (Z.compare_spec a3 b3);
    split; intros; try discriminate; try lia; reflexivity.
Qed.

Lemma lex3_compare_Gt a b : lex3_compare a b = Gt ↔ lex3_lt b a.
Proof.
  destruct a as [[a1 a2] a3], b as [[b1 b2] b3]. unfold lex3_compare, lex3_lt. simpl.
  destruct (Z.compare_spec a1 b1), (Z.compare_spec a2 b2), (Z.compare_spec a3 b3);
    split; intros; try discriminate; try lia; reflexivity.
Qed.

Lemma ltb_rank x y :
  PrimFloat.ltb x y = true ↔ ∃ a b, rank x = Some a ∧ rank y = Some b ∧ lex3_lt a b.
Proof.
  rewrite FloatAxioms.ltb_spec. unfold SFltb, rank. rewrite SFcompare_rank.
  destruct (sf_rank (Prim2SF x)) as [a|], (sf_rank (Prim2SF y)) as [b|];
    try (split; [discriminate | intros (?&?&?&?&?); discriminate]).
  split.
  - intros E. exists a, b. repeat split. apply lex3_compare_Lt.
    destruct (lex3_compare a b); congruence.
  - intros (a'&b'&[= <-]&[= <-]&L). apply lex3_compare_Lt in L. by rewrite L.
Qed.

Lemma leb_rank x y :
  PrimFloat.leb x y = true ↔ ∃ a b, rank x = Some a ∧ rank y = Some b ∧ ¬ lex3_lt b a.
Proof.
  rewrite FloatAxioms.leb_spec. unfold SFleb, rank. rewrite SFcompare_rank.
  destruct (sf_rank (Prim2SF x)) as [a|], (sf_rank (Prim2SF y)) as [b|];
    try (split; [discriminate | intros (?&?&?&?&?); discriminate]).
  split.
  - intros E. exists a, b. repeat split. rewrite <- lex3_compare_Gt.
    destruct (lex3_compare a b); congruence.
  - intros (a'&b'&[= <-]&[= <-]&L). rewrite <- lex3_compare_Gt in L.
    destruct (lex3_compare a b); congruence.
Qed.

Lemma ltb_false_rank x y a b :
  rank x = Some a → rank y = Some b → PrimFloat.ltb x y = false → ¬ lex3_lt a b.
Proof.
  intros Hx Hy E L. assert (PrimFloat.ltb x y = true) as E'.
  { apply ltb_rank. eauto 6. }
  congruence.
Qed.

(** [x <= y] and [y < z] give [x < z]. *)
Lemma leb_ltb_trans x y z :
  PrimFloat.leb x y = true → PrimFloat.ltb y z = true → PrimFloat.ltb x z = true.
Proof.
  rewrite leb_rank, !ltb_rank. intros (a&b&Ha&Hb&L1) (b'&c&Hb'&Hc&L2).
  rewrite Hb in Hb'. injection Hb' as <-. exists a, c. repeat split; try done.
  unfold lex3_lt in *. lia.
Qed.

Lemma ltb_leb_trans x y z :
  PrimFloat.ltb x y = true → PrimFloat.leb y z = true → PrimFloat.ltb x z = true.
Proof.
  rewrite leb_rank, !ltb_rank. intros (a&b&Ha&Hb&L1) (b'&c&Hb'&Hc&L2).
  rewrite Hb in Hb'. injection Hb' as <-. exists a, c. repeat split; try done.
  unfold lex3_lt in *. lia.
Qed.

Lemma ltb_leb x y : PrimFloat.ltb x y = true → PrimFloat.leb x y = true.
Proof.
  rewrite leb_rank, ltb_rank. intros (a&b&Ha&Hb&L). exists a, b. repeat split; try done.
  unfold lex3_lt in *. lia.
Qed.

(** [x <= y] excludes [y < x]. *)
Lemma leb_not_ltb x y : PrimFloat.leb x y = true → PrimFloat.ltb y x = false.
Proof.
  rewrite leb_rank. intros (a&b&Ha&Hb&L).
  destruct (PrimFloat.ltb y x) eqn:E; [|done].
  apply ltb_rank in E as (b'&a'&Hb'&Ha'&L'). congruence.
Qed.

Lemma ordered_rank x : ordered x ↔ is_Some (rank x).
Proof.
  unfold ordered. rewrite leb_rank. split.
  - intros (a&_&Ha&_). eauto.
  - intros [a Ha]. exists a, a. repeat split; try done. unfold lex3_lt. lia.
Qed.

Lemma leb_ordered_l x y : PrimFloat.leb x y = true → ordered x.
Proof. rewrite ordered_rank, leb_rank. intros (a&b&Ha&_). eauto. Qed.

Lemma leb_ordered_r x y : PrimFloat.leb x y = true → ordered y.
Proof. rewrite ordered_rank, leb_rank. intros (a&b&_&Hb&_). eauto. Qed.

(** Of two floats that are not NaN, one is at most the other. *)
Lemma not_ltb_leb x y :
  ordered x → ordered y → PrimFloat.ltb x y = false → PrimFloat.leb y x = true.
Proof.
  rewrite !ordered_rank. intros [a Ha] [b Hb] E. apply leb_rank.
  exists b, a. repeat split; try done. by eapply ltb_false_rank.
Qed.

(** [x == -inf] holds of negative infinity only. *)
Lemma eqb_neg_infinity x : PrimFloat.eqb x neg_infinity = true ↔ x = neg_infinity.
Proof.
  split; [|intros ->; reflexivity].
  rewrite FloatAxioms.eqb_spec. intros E. apply Prim2SF_inj.
  change (Prim2SF neg_infinity) with (S754_infinity true) in *.
  destruct (Prim2SF x) as [s|s| |s m e]; simpl in E; try destruct s; done.
Qed.

Lemma valid_finite s m e :
  valid_binary (S754_finite s m e) = true →
  fexp prec emax (Z.pos (digits2_pos m) + e) = e ∧ (e ≤ emax - prec)%Z.
Proof.
  simpl. unfold bounded, canonical_mantissa. intros [E1 E2]%andb_prop.
  split; [by apply Z.eqb_eq | by apply Z.leb_le].
Qed.

Lemma shr_52 m :
  SpecFloat.iter_pos shr_1 52
    {| shr_m := Z.pos (4503599627370496 * m); shr_r := false; shr_s := false |}
  = {| shr_m := Z.pos m; shr_r := false; shr_s := false |}.
Proof. reflexivity. Qed.

Lemma digits_iter_xO m k :
  Z.pos (digits2_pos (Pos.iter xO m k)) = (Z.pos (digits2_pos m) + Z.pos k)%Z.
Proof.
  induction k as [|k IH] using Pos.peano_ind.
  - simpl. lia.
  - rewrite Pos.iter_succ. simpl. lia.
Qed.

Lemma digits_52 m :
  Z.pos (digits2_pos (4503599627370496 * m)) = (Z.pos (digits2_pos m) + 52)%Z.
Proof. exact (digits_iter_xO m 52). Qed.

Lemma shr_fexp_canonical m e :
  fexp prec emax (Z.pos (digits2_pos m) + e) = e →
  shr_fexp prec emax (Z.pos m) e loc_Exact
  = ({| shr_m := Z.pos m; shr_r := false; shr_s := false |}, e).
Proof.
  intros C. unfold shr_fexp. simpl Zdigits2. rewrite C, Z.sub_diag. reflexivity.
Qed.

(** A canonical mantissa goes through rounding unchanged. *)
Lemma binary_round_aux_canonical s m e :
  fexp prec emax (Z.pos (digits2_pos m) + e) = e → (e ≤ emax - prec)%Z →
  binary_round_aux prec emax s (Z.pos m) e loc_Exact = S754_finite s m e.
Proof.
  intros C B. unfold binary_round_aux. rewrite (shr_fexp_canonical m e C).
  simpl. rewrite (shr_fexp_canonical m e C). simpl.
  apply Z.leb_le in B. by rewrite B.
Qed.

(** [1 * w] is [w]. *)
Lemma mul_1_l w : (1 * w)%float = w.
Proof.
  apply Prim2SF_inj. rewrite FloatAxioms.mul_spec.
  change (Prim2SF 1) with (S754_finite false 4503599627370496 (-52)).
  pose proof (Prim2SF_valid w) as V.
  destruct (Prim2SF w) as [s|s| |s m e]; try reflexivity.
  apply valid_finite in V as [C B].
  unfold SF64mul, SFmul. simpl xorb.
  rewrite <- (binary_round_aux_canonical s m e C B).
  unfold binary_round_aux at 1.
  assert (shr_fexp prec emax (Z.pos (4503599627370496 * m)) (-52 + e) loc_Exact
          = shr_fexp prec emax (Z.pos m) e loc_Exact) as ->; [|reflexivity].
  rewrite (shr_fexp_canonical m e C).
  unfold shr_fexp, Zdigits2. rewrite digits_52.
  replace (Z.pos (digits2_pos m) + 52 + (-52 + e))%Z with (Z.pos (digits2_pos m) + e)%Z by lia.
  rewrite C. replace (e - (-52 + e))%Z with 52%Z by lia.
  unfold shr_record_of_loc, shr. rewrite shr_52.
  f_equal. lia.
Qed.

(** [0 + w] is [w] unless [w] is the negative zero. *)
Lemma add_0_l w : sf_nonneg (Prim2SF w) → (0 + w)%float = w.
Proof.
  intros N. apply Prim2SF_inj. rewrite FloatAxioms.add_spec.
  change (Prim2SF 0) with (S754_zero false).
  destruct (Prim2SF w) as [s|s| |s m e]; simpl in *; subst; reflexivity.
Qed.

(** [1 + 0 * w] is [1] for a finite [w]. *)
Lemma add_1_mul_0 w : is_finite w = true → (1 + 0 * w)%float = 1%float.
Proof.
  unfold is_finite. intros F. apply Prim2SF_inj.
  rewrite FloatAxioms.add_spec, FloatAxioms.mul_spec.
  change (Prim2SF 0) with (S754_zero false).
  change (Prim2SF 1) with (S754_finite false 4503599627370496 (-52)).
  destruct (Prim2SF w) as [s|s| |s m e]; try discriminate; reflexivity.
Qed.

Lemma binary_round_aux_sign s m e l :
  match binary_round_aux prec emax s m e l with
  | S754_zero s' | S754_infinity s' | S754_finite s' _ _ => s' = s
  | S754_nan => True
  end.
Proof.
  unfold binary_round_aux.
  destruct (shr_fexp prec emax m e l) as [mrs e'].
  destruct (shr_fexp prec emax _ e' loc_Exact) as [mrs' e''].
  destruct (shr_m mrs'); try done.
  by destruct (e'' <=? emax - prec)%Z.
Qed.

Lemma of_nat_nonneg n : sf_nonneg (Prim2SF (of_nat n)).
Proof.
  unfold of_nat. rewrite of_uint63_spec.
  pose proof (to_Z_bounded (of_Z (Z.of_nat n))) as [B _].
  destruct (to_Z (of_Z (Z.of_nat n))) as [|m|m]; simpl; [done| |lia].
  unfold binary_round. destruct (shl_align _ _ _) as [mz ez].
  pose proof (binary_round_aux_sign false (Z.pos mz) ez loc_Exact) as S.
  by destruct (binary_round_aux _ _ _ _ _ _).
Qed.

Lemma mul_nonneg x y :
  sf_nonneg (Prim2SF x) → sf_nonneg (Prim2SF y) → sf_nonneg (Prim2SF (x * y)).
Proof.
  rewrite FloatAxioms.mul_spec.
  destruct (Prim2SF x) as [s|s| |s m e], (Prim2SF y) as [s'|s'| |s' m' e'];
    simpl; intros Hx Hy; subst; try done.
  pose proof (binary_round_aux_sign false (Z.pos (m * m')) (e + e') loc_Exact) as S.
  by destruct (binary_round_aux _ _ _ _ _ _).
Qed.

Lemma div_nonneg x y :
  sf_nonneg (Prim2SF x) → sf_nonneg (Prim2SF y) → sf_nonneg (Prim2SF (x / y)).
Proof.
  rewrite FloatAxioms.div_spec.
  destruct (Prim2SF x) as [s|s| |s m e], (Prim2SF y) as [s'|s'| |s' m' e'];
    simpl; intros Hx Hy; subst; try done.
  destruct (SFdiv_core_binary _ _ _ _ _ _) as [[mz ez] lz].
  pose proof (binary_round_aux_sign false mz ez lz) as S.
  by destruct (binary_round_aux _ _ _ _ _ _).
Qed.

(** The interpolation at its two ends. *)
Lemma interpolate_0 w : is_finite w = true → ((1 - 0) + 0 * w)%float = 1%float.
Proof. apply add_1_mul_0. Qed.

Lemma interpolate_1 w : sf_nonneg (Prim2SF w) → ((1 - 1) + 1 * w)%float = w.
Proof. intros N. rewrite mul_1_l. by apply add_0_l. Qed.

Local Open Scope Z_scope.

Lemma digits2_pos_size m : digits2_pos m = Pos.size m.
Proof. induction m as [m IH|m IH|]; simpl; by rewrite ?IH. Qed.

Lemma Zdigits2_log2 z : 0 < z → Zdigits2 z = Z.log2 z + 1.
Proof.
  destruct z as [|m|m]; try lia. intros _. simpl. rewrite digits2_pos_size.
  destruct m; simpl; lia.
Qed.

Lemma Zdigits2_nonneg z : 0 ≤ z → 0 ≤ Zdigits2 z.
Proof. destruct z; simpl; lia. Qed.

Lemma Zdigits2_pos z : 0 ≤ z → (0 < Zdigits2 z ↔ 0 < z).
Proof. destruct z; simpl; lia. Qed.

Lemma Zdigits2_mono a b : 0 ≤ a ≤ b → Zdigits2 a ≤ Zdigits2 b.
Proof.
  intros [Ha Hab]. destruct (decide (a = 0)) as [->|Hne].
  - simpl. by apply Zdigits2_nonneg.
  - rewrite !Zdigits2_log2 by lia. pose proof (Z.log2_le_mono a b Hab). lia.
Qed.

Lemma Zdigits2_succ a : 0 ≤ a → Zdigits2 (a + 1) ≤ Zdigits2 a + 1.
Proof.
  intros Ha. destruct (decide (a = 0)) as [->|Hne]; [simpl; lia|].
  rewrite !Zdigits2_log2 by lia. pose proof (Z.log2_succ_le a). unfold Z.succ in *. lia.
Qed.

Lemma Zdigits2_shiftr m n : 0 ≤ m → 0 ≤ n → Zdigits2 (m ≫ n) = Z.max 0 (Zdigits2 m - n).
Proof.
  intros Hm Hn. destruct (decide (m = 0)) as [->|Hne].
  { rewrite Z.shiftr_0_l. simpl. lia. }
  assert (0 < m) as Hpos by lia.
  pose proof (Z.log2_shiftr m n Hpos) as Hlog.
  pose proof (Z.shiftr_nonneg m n) as Hnn.
  pose proof (Z.log2_nonneg m).
  destruct (decide (m ≫ n = 0)) as [E|E].
  - rewrite E. simpl. apply Z.shiftr_eq_0_iff in E as [?|[_ E]]; [lia|].
    rewrite Zdigits2_log2 by lia. lia.
  - rewrite !Zdigits2_log2 by lia. rewrite Hlog.
    assert (n ≤ Z.log2 m); [|lia].
    destruct (Z.le_gt_cases n (Z.log2 m)) as [?|Hlt]; [done|].
    exfalso. apply E. apply Z.shiftr_eq_0; lia.
Qed.

Lemma Zdigits2_shiftl m n : 0 < m → 0 ≤ n → Zdigits2 (m ≪ n) = Zdigits2 m + n.
Proof.
  intros Hm Hn. assert (0 < m ≪ n).
  { rewrite Z.shiftl_mul_pow2 by done. pose proof (Z.pow_pos_nonneg 2 n). lia. }
  rewrite !Zdigits2_log2 by done. rewrite Z.log2_shiftl by done. lia.
Qed.

Lemma Zdigits2_mul a b :
  0 < a → 0 < b → Zdigits2 a + Zdigits2 b - 1 ≤ Zdigits2 (a * b) ≤ Zdigits2 a + Zdigits2 b.
Proof.
  intros Ha Hb. rewrite !Zdigits2_log2 by lia.
  pose proof (Z.log2_mul_below a b Ha Hb). pose proof (Z.log2_mul_above a b). lia.
Qed.

Lemma Zdigits2_div a b :
  0 ≤ a → 0 < b → Zdigits2 (a / b) ≤ Z.max 0 (Zdigits2 a - Zdigits2 b + 1).
Proof.
  intros Ha Hb. pose proof (Z.div_pos a b Ha Hb) as Hq.
  destruct (decide (a / b = 0)) as [->|Hne]; [simpl; lia|].
  assert (0 < a).
  { destruct (decide (a = 0)) as [->|]; [|lia]. by rewrite Z.div_0_l in Hne by lia. }
  rewrite !Zdigits2_log2 by lia.
  (* a / b < 2 ^ (log2 a - log2 b + 1) *)
  pose proof (Z.log2_nonneg a). pose proof (Z.log2_nonneg b).
  destruct (Z.log2_spec a) as [_ Hau]; [done|].
  destruct (Z.log2_spec b) as [Hbl _]; [done|].
  assert (Z.log2 b ≤ Z.log2 a) as Hle.
  { apply Z.log2_le_mono. destruct (Z.le_gt_cases b a) as [?|Hlt]; [done|].
    rewrite Z.div_small in Hne by lia. done. }
  assert (a / b < 2 ^ (Z.log2 a - Z.log2 b + 1)) as Hlt.
  { apply Z.div_lt_upper_bound; [done|].
    apply Z.lt_le_trans with (2 ^ Z.succ (Z.log2 a)); [done|].
    replace (Z.succ (Z.log2 a)) with (Z.log2 b + (Z.log2 a - Z.log2 b + 1)) by lia.
    rewrite Z.pow_add_r by lia. apply Z.mul_le_mono_nonneg_r; [|done].
    apply Z.pow_nonneg. lia. }
  apply Z.log2_lt_pow2 in Hlt; lia.
Qed.

Lemma iter_pos_nat {A} (f : A → A) p x :
  SpecFloat.iter_pos f p x = Nat.iter (Pos.to_nat p) f x.
Proof.
  revert x. induction p as [p IH|p IH|]; intros x.
  - change (SpecFloat.iter_pos f p~1 x)
      with (SpecFloat.iter_pos f p (SpecFloat.iter_pos f p (f x))).
    rewrite !IH. replace (Pos.to_nat p~1) with (S (Pos.to_nat p + Pos.to_nat p))%nat by lia.
    by rewrite Nat.iter_succ_r, Nat.iter_add.
  - change (SpecFloat.iter_pos f p~0 x)
      with (SpecFloat.iter_pos f p (SpecFloat.iter_pos f p x)).
    rewrite !IH. replace (Pos.to_nat p~0) with (Pos.to_nat p + Pos.to_nat p)%nat by lia.
    by rewrite Nat.iter_add.
  - done.
Qed.

Lemma shr_1_m mrs : 0 ≤ shr_m mrs → shr_m (shr_1 mrs) = shr_m mrs ≫ 1.
Proof.
  destruct mrs as [m r s]. simpl. intros Hm.
  destruct m as [|[p|p|]|p]; try lia; try reflexivity.
Qed.

Lemma shr_m_iter n mrs :
  0 ≤ shr_m mrs → shr_m (Nat.iter n shr_1 mrs) = shr_m mrs ≫ Z.of_nat n.
Proof.
  intros Hm. induction n as [|n IH]; [by rewrite Z.shiftr_0_r|].
  simpl Nat.iter. rewrite shr_1_m; rewrite IH.
  - rewrite Z.shiftr_shiftr by lia. f_equal. lia.
  - apply Z.shiftr_nonneg. done.
Qed.

Lemma shr_m_record_of_loc m l : shr_m (shr_record_of_loc m l) = m.
Proof. by destruct l as [|[]]. Qed.

(** What [shr_fexp] leaves: the mantissa shifted to the exponent of its
    format, if that is above the exponent it came with. *)
Lemma shr_fexp_spec m e l :
  0 ≤ m →
  let n := Z.max 0 (fexp prec emax (Zdigits2 m + e) - e) in
  shr_m (shr_fexp prec emax m e l).1 = m ≫ n ∧ (shr_fexp prec emax m e l).2 = e + n.
Proof.
  intros Hm. unfold shr_fexp, shr.
  destruct (fexp prec emax (Zdigits2 m + e) - e) as [|p|p] eqn:E; simpl.
  - rewrite shr_m_record_of_loc, Z.shiftr_0_r. lia.
  - rewrite iter_pos_nat, shr_m_iter by (by rewrite shr_m_record_of_loc).
    rewrite shr_m_record_of_loc, positive_nat_Z. done.
  - rewrite shr_m_record_of_loc, Z.shiftr_0_r. lia.
Qed.

Lemma round_nearest_even_bounds m l :
  round_nearest_even m l = m ∨ round_nearest_even m l = m + 1.
Proof.
  unfold round_nearest_even. destruct l as [|[]]; auto. destruct (Z.even m); auto.
Qed.

Ltac unfold_format :=
  unfold fexp, SpecFloat.emin, FloatOps.prec, FloatOps.emax in *.

(** Rounding a mantissa that is not too large gives zero or a finite float,
    and a float of the same magnitude or the next when it does not underflow. *)
Lemma binary_round_aux_mag sx mx ex lx :
  0 ≤ mx → ex ≤ emax - prec → Zdigits2 mx + ex ≤ emax - 1 →
  sf_finite (binary_round_aux prec emax sx mx ex lx) = true
  ∧ (0 < mx → SpecFloat.emin prec emax < Zdigits2 mx + ex →
     ∃ g, sf_mag (binary_round_aux prec emax sx mx ex lx) = Some g
          ∧ Zdigits2 mx + ex ≤ g ≤ Zdigits2 mx + ex + 1).
Proof.
  intros Hm Hex Hg. unfold binary_round_aux.
  pose proof (shr_fexp_spec mx ex lx Hm) as [H1m H1e].
  destruct (shr_fexp prec emax mx ex lx) as [mrs1 e1]. simpl in H1m, H1e.
  set (N1 := Z.max 0 (fexp prec emax (Zdigits2 mx + ex) - ex)) in *.
  assert (0 ≤ N1) as HN1 by lia.
  assert (0 ≤ shr_m mrs1) as Hm1 by (rewrite H1m; by apply Z.shiftr_nonneg).
  pose proof (Zdigits2_shiftr mx N1 Hm HN1) as Hd1. rewrite <- H1m in Hd1.
  set (b := round_nearest_even (shr_m mrs1) (loc_of_shr_record mrs1)).
  assert (shr_m mrs1 ≤ b ≤ shr_m mrs1 + 1) as Hb.
  { destruct (round_nearest_even_bounds (shr_m mrs1) (loc_of_shr_record mrs1)) as [E|E];
      unfold b; rewrite E; lia. }
  assert (Zdigits2 (shr_m mrs1) ≤ Zdigits2 b ≤ Zdigits2 (shr_m mrs1) + 1) as Hdb.
  { split; [apply Zdigits2_mono; lia|].
    etrans; [apply (Zdigits2_mono b (shr_m mrs1 + 1)); lia|]. by apply Zdigits2_succ. }
  assert (0 ≤ b) as Hb0 by lia.
  pose proof (shr_fexp_spec b e1 loc_Exact Hb0) as [H2m H2e].
  destruct (shr_fexp prec emax b e1 loc_Exact) as [mrs2 e2]. simpl in H2m, H2e.
  set (N2 := Z.max 0 (fexp prec emax (Zdigits2 b + e1) - e1)) in *.
  assert (0 ≤ N2) as HN2 by lia.
  assert (0 ≤ shr_m mrs2) as Hm2 by (rewrite H2m; by apply Z.shiftr_nonneg).
  pose proof (Zdigits2_shiftr b N2 Hb0 HN2) as Hd2. rewrite <- H2m in Hd2.
  pose proof (Zdigits2_nonneg mx Hm) as Hd0.
  assert (e2 ≤ emax - prec) as He2.
  { subst N1 N2. unfold_format. lia. }
  split.
  - destruct (shr_m mrs2) as [|m2|m2]; [done| |lia].
    apply Z.leb_le in He2. by rewrite He2.
  - intros Hpos Hmin. apply Zdigits2_pos in Hpos; [|done].
    assert (0 < Zdigits2 (shr_m mrs2) ∧
            Zdigits2 mx + ex ≤ Zdigits2 (shr_m mrs2) + e2 ≤ Zdigits2 mx + ex + 1) as [Hp Hr].
    { subst N1 N2. unfold_format. lia. }
    destruct (shr_m mrs2) as [|m2|m2]; [simpl in Hp; lia| |lia].
    apply Z.leb_le in He2. rewrite He2. simpl in Hr. simpl. eauto.
Qed.

Lemma shl_align_mag mx ex ex' :
  Z.pos (digits2_pos (shl_align mx ex ex').1) + (shl_align mx ex ex').2
  = Z.pos (digits2_pos mx) + ex
  ∧ (shl_align mx ex ex').2 ≤ ex.
Proof.
  unfold shl_align. destruct (ex' - ex) as [|d|d] eqn:E; simpl; try lia.
  rewrite digits_iter_xO. lia.
Qed.

(** The exponent of a valid finite float is the one of its magnitude. *)
Lemma valid_mag x s m e g :
  Prim2SF x = S754_finite s m e → sf_mag (Prim2SF x) = Some g →
  g = Z.pos (digits2_pos m) + e ∧ e = fexp prec emax g.
Proof.
  intros E Hg. pose proof (Prim2SF_valid x) as V. rewrite E in V, Hg.
  apply valid_finite in V as [C _]. simpl in Hg. injection Hg as <-. done.
Qed.

(** An integer from 1 to [2^63 - 1] converts to a float of magnitude 1 to 64. *)
Lemma of_nat_mag k :
  (1 ≤ k)%nat → Z.of_nat k < 2 ^ 63 →
  ∃ g, sf_mag (Prim2SF (of_nat k)) = Some g ∧ 1 ≤ g ≤ 64.
Proof.
  intros Hk Hlt. unfold of_nat. rewrite of_uint63_spec, of_Z_spec.
  rewrite Z.mod_small by (change wB with (2 ^ 63); lia).
  destruct (Z.of_nat k) as [|m|m] eqn:E; try lia. simpl binary_normalize.
  unfold binary_round.
  pose proof (shl_align_mag m 0 (fexp prec emax (Z.pos (digits2_pos m) + 0))) as [Hmag Hez].
  destruct (shl_align m 0 _) as [mz ez]. simpl in Hmag, Hez.
  assert (1 ≤ Z.pos (digits2_pos m) ≤ 63) as Hd.
  { split; [lia|]. change (Z.pos (digits2_pos m)) with (Zdigits2 (Z.pos m)).
    rewrite Zdigits2_log2 by lia.
    assert (Z.log2 (Z.pos m) < 63); [|lia]. apply Z.log2_lt_pow2; lia. }
  destruct (binary_round_aux_mag false (Z.pos mz) ez loc_Exact) as [_ Hfin].
  - lia.
  - unfold FloatOps.prec, FloatOps.emax. lia.
  - simpl. unfold FloatOps.emax. lia.
  - destruct Hfin as (g & Hg & Hb); [lia|simpl; unfold SpecFloat.emin, FloatOps.prec, FloatOps.emax; lia|].
    exists g. split; [done|]. simpl in Hb. lia.
Qed.

(** The product of two floats of magnitudes 1 to 64 has magnitude 1 to 129. *)
Lemma mul_mag x y gx gy :
  sf_mag (Prim2SF x) = Some gx → sf_mag (Prim2SF y) = Some gy →
  1 ≤ gx ≤ 64 → 1 ≤ gy ≤ 64 →
  ∃ g, sf_mag (Prim2SF (x * y)%float) = Some g ∧ 1 ≤ g ≤ 129.
Proof.
  intros Hx Hy Bx By. rewrite FloatAxioms.mul_spec.
  destruct (Prim2SF x) as [| | |sx mx ex] eqn:Ex; try done.
  destruct (Prim2SF y) as [| | |sy my ey] eqn:Ey; try done.
  rewrite <- Ex in Hx. rewrite <- Ey in Hy.
  destruct (valid_mag x _ _ _ _ Ex Hx) as [-> Hex].
  destruct (valid_mag y _ _ _ _ Ey Hy) as [-> Hey].
  unfold SF64mul, SFmul.
  pose proof (Zdigits2_mul (Z.pos mx) (Z.pos my) ltac:(done) ltac:(done)) as Hd.
  change (Z.pos mx * Z.pos my) with (Z.pos (mx * my)) in Hd. simpl Zdigits2 in Hd.
  unfold_format.
  destruct (binary_round_aux_mag (xorb sx sy) (Z.pos (mx * my)) (ex + ey) loc_Exact)
    as [_ Hfin]; unfold_format; simpl Zdigits2 in *; try lia.
  destruct Hfin as (g & Hg & Hb); try lia.
  exists g. split; [done|]. lia.
Qed.

(** A float of magnitude at most 64 divided by one of magnitude 1 to 129 is
    finite. *)
Lemma div_finite x y gx gy :
  sf_mag (Prim2SF x) = Some gx → sf_mag (Prim2SF y) = Some gy →
  1 ≤ gx ≤ 64 → 1 ≤ gy ≤ 129 →
  sf_finite (Prim2SF (x / y)%float) = true.
Proof.
  intros Hx Hy Bx By. rewrite FloatAxioms.div_spec.
  destruct (Prim2SF x) as [| | |sx mx ex] eqn:Ex; try done.
  destruct (Prim2SF y) as [| | |sy my ey] eqn:Ey; try done.
  rewrite <- Ex in Hx. rewrite <- Ey in Hy.
  destruct (valid_mag x _ _ _ _ Ex Hx) as [-> Hex].
  destruct (valid_mag y _ _ _ _ Ey Hy) as [-> Hey].
  unfold SF64div, SFdiv, SFdiv_core_binary.
  set (e' := Z.min _ _).
  set (s := ex - ey - e').
  assert (0 ≤ s) as Hs by (unfold s, e'; lia).
  assert (match s with 0 => Z.pos mx | Z.pos _ => Z.pos mx ≪ s | Z.neg _ => 0 end
          = Z.pos mx ≪ s) as ->.
  { destruct s; [by rewrite Z.shiftl_0_r|done|lia]. }
  pose proof (Zdigits2_shiftl (Z.pos mx) s ltac:(done) Hs) as Hdm.
  assert (0 < Z.pos mx ≪ s) as Hpos.
  { rewrite Z.shiftl_mul_pow2 by done. pose proof (Z.pow_pos_nonneg 2 s). lia. }
  pose proof (Zdigits2_div (Z.pos mx ≪ s) (Z.pos my) ltac:(lia) ltac:(done)) as Hdq.
  pose proof (Z.div_pos (Z.pos mx ≪ s) (Z.pos my) ltac:(lia) ltac:(done)) as Hq.
  unfold Z.div in Hdq, Hq.
  destruct (Z.div_eucl (Z.pos mx ≪ s) (Z.pos my)) as [q r].
  simpl Zdigits2 in *. rewrite Hdm in Hdq.
  apply binary_round_aux_mag; [done| |]; unfold s, e' in *; unfold_format; lia.
Qed.

(** The balanced weight of a class that has an example is finite. *)
Lemma balanced_finite (total n count : nat) :
  Z.of_nat total < 2 ^ 63 → (1 ≤ n ≤ total)%nat → (1 ≤ count ≤ total)%nat →
  is_finite (PyFloat.of_nat total / (PyFloat.of_nat n * PyFloat.of_nat count))%float = true.
Proof.
  intros Ht Hn Hc.
  destruct (of_nat_mag total) as (gt & Hgt & Bt); [lia|lia|].
  destruct (of_nat_mag n) as (gn & Hgn & Bn); [lia|lia|].
  destruct (of_nat_mag count) as (gc & Hgc & Bc); [lia|lia|].
  destruct (mul_mag _ _ _ _ Hgn Hgc Bn Bc) as (gy & Hgy & By).
  exact (div_finite _ _ _ _ Hgt Hgy Bt By).
Qed.

Local Close Scope Z_scope.

End PyFloatFacts.

(** ** Computations that may raise *)

Lemma mapM_res_cons {A B} (f : A → res B) x l :
  mapM f (x :: l)
  = match f x with
    | Ok y => match mapM f l with Ok k => Ok (y :: k) | Raise e => Raise e end
    | Raise e => Raise e
    end.
Proof. reflexivity. Qed.

Lemma mapM_res_Forall2 {A B} (f : A → res B) (P : A → B → Prop) (l : list A) :
  Forall (λ a, ∃ b, f a = Ok b ∧ P a b) l →
  ∃ k, mapM f l = Ok k ∧ Forall2 P l k.
Proof.
  induction 1 as [|a l (b & Hb & HP) _ (k & Hk & IH)].
  - exists []. split; [done|constructor].
  - exists (b :: k). split; [|by constructor].
    cbn. rewrite Hb. cbn. fold (mapM f l). rewrite Hk. done.
Qed.

Lemma mapM_res_Ok_inv {A B} (f : A → res B) l k :
  mapM f l = Ok k → Forall2 (λ a b, f a = Ok b) l k.
Proof.
  revert k. induction l as [|a l IH]; intros k.
  - intros [= <-]. constructor.
  - rewrite mapM_res_cons. destruct (f a) as [b|] eqn:Ha; [|done].
    destruct (mapM f l) as [k'|]; [|done]. intros [= <-]. constructor; auto.
Qed.

Lemma mapM_res_raise {A B} (f : A → res B) (l : list A) e :
  (∀ x e', x ∈ l → f x = Raise e' → e' = e) →
  (∃ x e', x ∈ l ∧ f x = Raise e') →
  mapM f l = Raise e.
Proof.
  induction l as [|x l IH]; intros Honly (x0 & e0 & Hin & Hx0).
  - by apply elem_of_nil in Hin.
  - rewrite mapM_res_cons. destruct (f x) as [y|e'] eqn:Hx.
    + rewrite IH; [done| |].
      * intros ????. eapply Honly; [by right|done].
      * apply elem_of_cons in Hin as [->|Hin]; [congruence|eauto].
    + f_equal. eapply Honly; [by left|done].
Qed.

Lemma mapM_option_Forall2 {A B} (f : A → option B) l :
  Forall (λ a, is_Some (f a)) l → ∃ k, mapM f l = Some k ∧ Forall2 (λ a b, f a = Some b) l k.
Proof.
  induction 1 as [|a l [b Hb] _ (k & Hk & IH)].
  - exists []. split; [done|constructor].
  - exists (b :: k). split; [|by constructor]. cbn. rewrite Hb. cbn.
    fold (mapM f l). by rewrite Hk.
Qed.

(** ** Prediction *)

Import PyFloat PyFloatFacts.

Section PredictProps.
Context `{Collaborators}.

Lemma inverse_transform_one classes i c :
  classes !! i = Some c →
  SKLabelEncoder.inverse_transform (Some classes) [i] = Ok [c].
Proof. intros E. simpl. unfold mapM; simpl. by rewrite E. Qed.

Lemma decode_loop_cons classes i c proba rest top_class probabilities :
  classes !! i = Some c →
  decode_loop (Some classes) i (proba :: rest) top_class probabilities
  = let probabilities := <[decode_label c := proba]> probabilities in
    let best := default minus_one (top_class ≫= (probabilities !!.)) in
    decode_loop (Some classes) (S i) rest
      (if PrimFloat.ltb best proba then Some (decode_label c) else top_class)
      probabilities.
Proof.
  intros E. cbn [decode_loop]. rewrite (inverse_transform_one _ _ _ E). reflexivity.
Qed.

Lemma first_max_snoc_keep pre i p q :
  first_max pre i p → PrimFloat.leb q p = true → first_max (pre ++ [q]) i p.
Proof.
  intros (Hi & Hmax & Hfirst) Hq. split; [|split].
  - by apply lookup_app_l_Some.
  - intros j q' [Hj|[_ Hj]]%lookup_app_Some; [by eauto|].
    apply list_lookup_singleton_Some in Hj as [_ <-]. done.
  - intros j q' Hji Hj. apply lookup_lt_Some in Hi.
    rewrite lookup_app_l in Hj by lia. eauto.
Qed.

Lemma first_max_snoc_new pre q :
  ordered q → (∀ j q', pre !! j = Some q' → PrimFloat.ltb q' q = true) →
  first_max (pre ++ [q]) (length pre) q.
Proof.
  intros Hq Hlt. split; [|split].
  - by apply list_lookup_middle.
  - intros j q' [Hj|[_ Hj]]%lookup_app_Some; [by apply ltb_leb; eauto|].
    apply list_lookup_singleton_Some in Hj as [_ <-]. done.
  - intros j q' Hji Hj. rewrite lookup_app_l in Hj by lia. eauto.
Qed.

Lemma ltb_ordered_r x y : PrimFloat.ltb x y = true → ordered y.
Proof. intros E%ltb_leb. by eapply leb_ordered_r. Qed.

Lemma decode_loop_spec classes :
  NoDup (class_labels classes) →
  ∀ row pre top_class probabilities,
    length pre + length row ≤ length classes →
    Forall (λ v, PrimFloat.ltb minus_one v = true) (pre ++ row) →
    distribution_of classes pre probabilities →
    match top_class with
    | None => pre = []
    | Some l => ∃ i p, class_labels classes !! i = Some l ∧ first_max pre i p
    end →
    ∃ top_class' probabilities',
      decode_loop (Some classes) (length pre) row top_class probabilities
        = Ok (top_class', probabilities')
      ∧ distribution_of classes (pre ++ row) probabilities'
      ∧ match top_class' with
        | None => pre ++ row = []
        | Some l => ∃ i p, class_labels classes !! i = Some l ∧ first_max (pre ++ row) i p
        end.
Proof.
  intros ND row. induction row as [|proba rest IH]; intros pre top probs Hlen Hgt Hdist Htop.
  { exists top, probs. rewrite app_nil_r. done. }
  simpl in Hlen.
  destruct (lookup_lt_is_Some_2 classes (length pre)) as [c Hc]; [lia|].
  rewrite (decode_loop_cons _ _ _ _ _ _ _ Hc). cbv zeta.
  assert (class_labels classes !! length pre = Some (decode_label c)) as Hl.
  { unfold class_labels. by rewrite list_lookup_fmap, Hc. }
  assert (PrimFloat.ltb minus_one proba = true) as Hproba.
  { rewrite Forall_app, Forall_cons in Hgt. tauto. }
  assert (∀ v, v ∈ pre → PrimFloat.ltb minus_one v = true) as Hpre.
  { rewrite Forall_app, Forall_forall in Hgt. tauto. }
  destruct Hdist as [Hd1 Hd2].
  assert (distribution_of classes (pre ++ [proba]) (<[decode_label c := proba]> probs)) as Hdist'.
  { split.
    - intros j l Hj. destruct (decide (j = length pre)) as [->|Hne].
      + rewrite Hl in Hj. injection Hj as <-.
        by rewrite lookup_insert_eq, list_lookup_middle.
      + rewrite lookup_insert_ne.
        2:{ intros <-. apply Hne. by eapply NoDup_lookup. }
        rewrite (Hd1 _ _ Hj). destruct (decide (j < length pre)).
        * by rewrite lookup_app_l.
        * rewrite !lookup_ge_None_2; [done| |lia]. rewrite length_app. simpl. lia.
    - intros l Hnot. rewrite lookup_insert_ne; [by apply Hd2|].
      intros <-. apply Hnot. by eapply list_elem_of_lookup_2. }
  specialize (IH (pre ++ [proba])).
  rewrite length_app in IH. simpl in IH. rewrite Nat.add_1_r in IH.
  rewrite <- (assoc_L (++)) in IH. simpl in IH.
  apply IH; [lia|done|done|]. clear IH.
  destruct top as [l|]; simpl.
  - destruct Htop as (i & p & Hi & Hfm).
    assert (i < length pre) as Hilt by (destruct Hfm as [?%lookup_lt_Some _]; done).
    assert (l ≠ decode_label c) as Hne.
    { intros ->. assert (i = length pre) by (by eapply NoDup_lookup). lia. }
    rewrite lookup_insert_ne by done. rewrite (Hd1 _ _ Hi).
    destruct Hfm as (Hp & Hmax & Hfirst). rewrite Hp. simpl.
    destruct (PrimFloat.ltb p proba) eqn:Hcmp.
    + exists (length pre), proba. split; [done|]. apply first_max_snoc_new.
      * by eapply ltb_ordered_r.
      * intros j q Hj. eapply leb_ltb_trans; eauto.
    + exists i, p. split; [done|]. apply first_max_snoc_keep; [done|].
      apply not_ltb_leb; [|by eapply ltb_ordered_r|done].
      eapply ltb_ordered_r, Hpre, list_elem_of_lookup_2, Hp.
  - subst pre. simpl. rewrite Hproba. exists 0, proba. split; [done|].
    apply (first_max_snoc_new []); [by eapply ltb_ordered_r|]. intros j q Hj. done.
Qed.

Lemma decode_row_top classes row :
  NoDup (class_labels classes) → row ≠ [] → length row ≤ length classes →
  Forall (λ v, PrimFloat.ltb minus_one v = true) row →
  ∃ pred, decode_row (Some classes) row = Ok pred ∧ top_is_first_max classes row pred.
Proof.
  intros ND Hne Hlen Hgt.
  destruct (decode_loop_spec classes ND row [] None ∅) as (top & probs & E & Hd & Htop);
    [done|done| |done|].
  { split; [intros; by rewrite lookup_empty|done]. }
  simpl in *. destruct top as [l|]; [|done].
  destruct Htop as (i & p & Hi & Hfm).
  exists (Some l, probs). split.
  - unfold decode_row. destruct row; [done|]. exact E.
  - split; [done|]. exists l, i, p. simpl. destruct Hd as [Hd1 Hd2].
    assert (probs !! l = Some p) as Hp.
    { rewrite (Hd1 _ _ Hi). by destruct Hfm. }
    repeat split; try done; try apply Hfm.
    intros l' q Hq. destruct (decide (l' ∈ class_labels classes)) as [Hin|Hnot].
    + apply list_elem_of_lookup in Hin as [j Hj]. rewrite (Hd1 _ _ Hj) in Hq.
      destruct Hfm as (_ & Hmax & _). eauto.
    + rewrite (Hd2 _ Hnot) in Hq. done.
Qed.

Lemma probability_gt_minus_one v : probability v → PrimFloat.ltb minus_one v = true.
Proof. intros [H0 _]. by apply (ltb_leb_trans _ 0%float). Qed.

(** In transform mode the feature pipeline leaves the state as it is. *)
Lemma get_feature_matrix_transform_state examples y st :
  (get_feature_matrix examples y false st).1 = st.
Proof.
  unfold get_feature_matrix, _preprocess_data, mbind, M_bind, bind, lift, get_self, ret.
  repeat (case_match; simplify_eq/=; try done).
Qed.

Lemma get_feature_matrix_transform_eq examples y st r :
  (get_feature_matrix examples y false st).2 = r →
  get_feature_matrix examples y false st = (st, r).
Proof.
  intros <-. pose proof (get_feature_matrix_transform_state examples y st) as E.
  destruct (get_feature_matrix _ _ _ _). simpl in E. by subst.
Qed.

Lemma _predict_proba_eq X predictor rows st :
  predictor X = Ok rows →
  _predict_proba X predictor st = (st, mapM (decode_row (_class_encoder (self st))) rows).
Proof.
  intros E. unfold _predict_proba, mbind, M_bind, bind, lift, get_self. by rewrite E.
Qed.

Lemma predict_proba_eq examples X y groups clf st :
  (get_feature_matrix examples None false st).2 = Ok (X, y, groups) →
  _clf (self st) = Some clf →
  predict_proba examples st = _predict_proba X (clf_predict_proba clf) st.
Proof.
  intros E%get_feature_matrix_transform_eq Hclf.
  unfold predict_proba, clf_method, mbind, M_bind, bind at 1. rewrite E.
  unfold bind at 1. unfold bind at 1. unfold get_self at 1. rewrite Hclf. done.
Qed.

Lemma predict_log_proba_eq examples X y groups clf st :
  (get_feature_matrix examples None false st).2 = Ok (X, y, groups) →
  _clf (self st) = Some clf →
  predict_log_proba examples st =
    match _predict_proba X (clf_predict_log_proba clf) st with
    | (st', Ok predictions) =>
        (st', Ok ((λ row, (row.1, replace_neg_inf row.2)) <$> predictions))
    | (st', Raise e) => (st', Raise e)
    end.
Proof.
  intros E%get_feature_matrix_transform_eq Hclf.
  unfold predict_log_proba, clf_method, mbind, M_bind, bind at 1. rewrite E.
  unfold bind at 1. unfold bind at 1. unfold get_self at 1. rewrite Hclf. done.
Qed.

(** C2: for every probability row that [_predict_proba] decodes, and so for
    every example of [predict_proba], the top label is the decoded label of the
    class index that holds the maximum of the returned distribution, and of
    the first such index: every earlier class is strictly below it, so a later
    class with an equal probability does not replace it. *)
Theorem predict_proba_top_is_first_max
    (st : pystate) (classes : list string) (examples : list example)
    (X : matrix) (y : yval) (groups : list nat) (clf : classifier)
    (rows : list (list float)) :
  _class_encoder (self st) = Some classes →
  NoDup (class_labels classes) →
  (get_feature_matrix examples None false st).2 = Ok (X, y, groups) →
  _clf (self st) = Some clf →
  clf_predict_proba clf X = Ok rows →
  Forall (λ row, row ≠ [] ∧ length row ≤ length classes ∧ Forall probability row) rows →
  ∃ preds,
    _predict_proba X (clf_predict_proba clf) st = (st, Ok preds)
    ∧ predict_proba examples st = (st, Ok preds)
    ∧ Forall2 (top_is_first_max classes) rows preds.
Proof.
  intros Henc ND Hgfm Hclf Hrows Hall.
  destruct (mapM_res_Forall2 (decode_row (Some classes)) (top_is_first_max classes) rows)
    as (preds & Hpreds & Hspec).
  { eapply Forall_impl; [exact Hall|]. intros row (Hne & Hlen & Hprob).
    apply decode_row_top; try done.
    eapply Forall_impl; [exact Hprob|]. apply probability_gt_minus_one. }
  exists preds.
  assert (_predict_proba X (clf_predict_proba clf) st = (st, Ok preds)) as E.
  { rewrite (_predict_proba_eq _ _ _ _ Hrows), Henc, Hpreds. done. }
  split; [done|]. split; [|done].
  by rewrite (predict_proba_eq _ _ _ _ _ _ Hgfm Hclf).
Qed.

Lemma decode_loop_none classes row :
  Forall (λ v, PrimFloat.ltb minus_one v = false) row →
  ∀ k probabilities, k + length row ≤ length classes →
  ∃ probabilities', decode_loop (Some classes) k row None probabilities
                    = Ok (None, probabilities').
Proof.
  induction 1 as [|proba rest Hproba _ IH]; intros k probs Hlen.
  { by eexists. }
  simpl in Hlen.
  destruct (lookup_lt_is_Some_2 classes k) as [c Hc]; [lia|].
  rewrite (decode_loop_cons _ _ _ _ _ _ _ Hc). cbv zeta. simpl. rewrite Hproba.
  apply IH. lia.
Qed.

Lemma decode_row_none classes row :
  row ≠ [] → length row ≤ length classes →
  Forall (λ v, PrimFloat.leb v minus_one = true) row →
  ∃ pred, decode_row (Some classes) row = Ok pred ∧ pred.1 = None.
Proof.
  intros Hne Hlen Hle.
  destruct (decode_loop_none classes row) with (k := 0) (probabilities := (∅ : gmap label float))
    as [probs E]; [|done|].
  { eapply Forall_impl; [exact Hle|]. intros v. apply leb_not_ltb. }
  exists (None, probs). split; [|done].
  unfold decode_row. by destruct row.
Qed.

(** C10: the running best of [_predict_proba] starts from the default [-1.0],
    so a row whose values are all at most [-1.0] selects no class: the top
    label is [None], for the rows [_predict_proba] decodes and so for the
    examples of [predict_log_proba]. *)
Theorem predict_log_proba_top_none
    (st : pystate) (classes : list string) (examples : list example)
    (X : matrix) (y : yval) (groups : list nat) (clf : classifier)
    (rows : list (list float)) :
  _class_encoder (self st) = Some classes →
  (get_feature_matrix examples None false st).2 = Ok (X, y, groups) →
  _clf (self st) = Some clf →
  clf_predict_log_proba clf X = Ok rows →
  Forall (λ row, row ≠ [] ∧ length row ≤ length classes
                 ∧ Forall (λ v, PrimFloat.leb v minus_one = true) row) rows →
  ∃ preds preds',
    _predict_proba X (clf_predict_log_proba clf) st = (st, Ok preds)
    ∧ Forall (λ pred, pred.1 = None) preds
    ∧ predict_log_proba examples st = (st, Ok preds')
    ∧ length preds' = length rows
    ∧ Forall (λ pred, pred.1 = None) preds'.
Proof.
  intros Henc Hgfm Hclf Hrows Hall.
  destruct (mapM_res_Forall2 (decode_row (Some classes))
              (λ _ pred, pred.1 = (None : option label)) rows)
    as (preds & Hpreds & Hspec).
  { eapply Forall_impl; [exact Hall|]. intros row (Hne & Hlen & Hle).
    by apply decode_row_none. }
  assert (Forall (λ pred, pred.1 = None) preds) as Hnone.
  { clear -Hspec. induction Hspec; constructor; done. }
  assert (_predict_proba X (clf_predict_log_proba clf) st = (st, Ok preds)) as E.
  { rewrite (_predict_proba_eq _ _ _ _ Hrows), Henc, Hpreds. done. }
  exists preds, ((λ row, (row.1, replace_neg_inf row.2)) <$> preds).
  split; [done|]. split; [done|].
  rewrite (predict_log_proba_eq _ _ _ _ _ _ Hgfm Hclf), E.
  split; [done|]. split.
  - rewrite length_fmap. symmetry. by eapply Forall2_length.
  - rewrite Forall_fmap. eapply Forall_impl; [exact Hnone|]. done.
Qed.

Lemma foldl_replace_lookup (items : list (label * float)) :
  NoDup items.*1 →
  ∀ acc : gmap label float,
    (∀ k v, (k, v) ∈ items → acc !! k = Some v) →
    ∀ l, foldl (λ acc item,
                  if PrimFloat.eqb item.2 neg_infinity
                  then <[item.1 := _NEG_INF]> acc
                  else acc) acc items !! l
         = if decide (l ∈ items.*1) then reported <$> acc !! l else acc !! l.
Proof.
  induction items as [|[k v] items IH]; intros ND acc Hacc l.
  { cbn [foldl]. case_decide as Hin; [|done]. by apply elem_of_nil in Hin. }
  apply NoDup_cons in ND as [Hk ND]. cbn [foldl fst snd].
  rewrite (IH ND).
  2:{ intros k' v' Hin. assert (k' ≠ k) as Hne.
      { intros ->. apply Hk. apply list_elem_of_fmap. by exists (k, v'). }
      destruct (PrimFloat.eqb v neg_infinity).
      - rewrite lookup_insert_ne by done. apply Hacc. set_solver.
      - apply Hacc. set_solver. }
  assert (acc !! k = Some v) as Hv by (apply Hacc; set_solver).
  destruct (decide (l = k)) as [->|Hne].
  - rewrite decide_False by done. rewrite decide_True by set_solver.
    rewrite Hv. unfold reported. simpl.
    destruct (PrimFloat.eqb v neg_infinity); [by rewrite lookup_insert_eq|done].
  - assert ((if PrimFloat.eqb v neg_infinity then <[k:=_NEG_INF]> acc else acc) !! l
            = acc !! l) as ->.
    { destruct (PrimFloat.eqb v neg_infinity); [by rewrite lookup_insert_ne|done]. }
    destruct (decide (l ∈ items.*1)) as [Hin|Hin];
      [rewrite decide_True by (rewrite fmap_cons; apply elem_of_cons; by right)
      |rewrite decide_False by (rewrite fmap_cons, elem_of_cons; by intros [?|?])];
      done.
Qed.

(** What the loop over [probas.items()] leaves under each label. *)
Lemma replace_neg_inf_lookup (probas : gmap label float) l :
  replace_neg_inf probas !! l = reported <$> probas !! l.
Proof.
  unfold replace_neg_inf. rewrite foldl_replace_lookup.
  - case_decide as Hin; [done|].
    destruct (probas !! l) as [v|] eqn:E; [|done].
    exfalso. apply Hin. apply list_elem_of_fmap. exists (l, v). split; [done|].
    by apply elem_of_map_to_list.
  - apply NoDup_fst_map_to_list.
  - intros k v. apply elem_of_map_to_list.
Qed.

Lemma reported_not_neg_infinity v : reported v ≠ neg_infinity.
Proof.
  unfold reported. destruct (PrimFloat.eqb v neg_infinity) eqn:E.
  - intros E'. by vm_compute in E'.
  - intros E'. rewrite E' in E. by vm_compute in E.
Qed.

Lemma reported_other v : v ≠ neg_infinity → reported v = v.
Proof.
  intros Hne. unfold reported. destruct (PrimFloat.eqb v neg_infinity) eqn:E; [|done].
  by apply eqb_neg_infinity in E.
Qed.

(** C3: [predict_log_proba] returns the decoded predictions with the same top
    labels and, in every distribution, no negative infinity: a value that was
    negative infinity is reported as exactly [-1e10], and every other value is
    reported unchanged. *)
Theorem predict_log_proba_no_neg_infinity
    (st : pystate) (examples : list example)
    (X : matrix) (y : yval) (groups : list nat) (clf : classifier)
    (preds : list (option label * gmap label float)) :
  (get_feature_matrix examples None false st).2 = Ok (X, y, groups) →
  _clf (self st) = Some clf →
  _predict_proba X (clf_predict_log_proba clf) st = (st, Ok preds) →
  ∃ preds',
    predict_log_proba examples st = (st, Ok preds')
    ∧ Forall2 (λ pred pred',
                 pred'.1 = pred.1
                 ∧ ∀ l,
                     (∀ v, pred'.2 !! l = Some v → v ≠ neg_infinity)
                     ∧ (pred.2 !! l = Some neg_infinity → pred'.2 !! l = Some _NEG_INF)
                     ∧ (∀ v, pred.2 !! l = Some v → v ≠ neg_infinity →
                             pred'.2 !! l = Some v)
                     ∧ (pred.2 !! l = None → pred'.2 !! l = None))
              preds preds'.
Proof.
  intros Hgfm Hclf E.
  exists ((λ row, (row.1, replace_neg_inf row.2)) <$> preds).
  rewrite (predict_log_proba_eq _ _ _ _ _ _ Hgfm Hclf), E. split; [done|].
  apply Forall2_fmap_r, Forall2_same_length_lookup. split; [done|].
  intros i pred pred' E1 E2. rewrite E1 in E2. injection E2 as <-.
  split; [done|]. intros l. simpl. rewrite replace_neg_inf_lookup.
  repeat split.
  - intros v. destruct (pred.2 !! l) as [w|]; [|done]. simpl. intros [= <-].
    apply reported_not_neg_infinity.
  - by intros ->.
  - intros v -> Hne. simpl. by rewrite reported_other.
  - by intros ->.
Qed.

End PredictProps.

(** ** Dicts *)

Section DictProps.
Context {K V : Type} `{EqDecision K}.
Implicit Types (d : odict K V) (k : K) (v : V).

Lemma dict_get_setitem_eq k v d : dict_get k (dict_setitem k v d) = Some v.
Proof.
  induction d as [|[k' v'] d IH]; simpl.
  - by rewrite decide_True.
  - case_decide as E; simpl.
    + by rewrite decide_True.
    + by rewrite decide_False.
Qed.

Lemma dict_get_setitem_ne k k' v d :
  k ≠ k' → dict_get k' (dict_setitem k v d) = dict_get k' d.
Proof.
  intros Hne. induction d as [|[k0 v0] d IH]; simpl.
  - by rewrite decide_False.
  - case_decide as E; simpl.
    + subst. by rewrite !decide_False.
    + case_decide; [done|apply IH].
Qed.

Lemma dict_setitem_fresh k v d : k ∉ d.*1 → dict_setitem k v d = d ++ [(k, v)].
Proof.
  induction d as [|[k0 v0] d IH]; simpl; [done|].
  rewrite not_elem_of_cons. intros [Hne Hnot].
  by rewrite decide_False, IH.
Qed.

Lemma dict_get_Some_elem k v d : dict_get k d = Some v → (k, v) ∈ d.
Proof.
  induction d as [|[k0 v0] d IH]; simpl; [done|].
  case_decide as E.
  - intros [= ->]. subst. left.
  - intros ?. right. by apply IH.
Qed.

Lemma dict_get_is_Some k d : k ∈ d.*1 → is_Some (dict_get k d).
Proof.
  induction d as [|[k0 v0] d IH]; simpl.
  - by intros ?%elem_of_nil.
  - intros [->|Hin]%elem_of_cons.
    + rewrite decide_True by done. eauto.
    + case_decide; eauto.
Qed.

Lemma assign_all_get (items : list (K * V)) :
  ∀ (acc : odict K V) k v, dict_get k (assign_all acc items) = Some v →
             (k, v) ∈ items ∨ dict_get k acc = Some v.
Proof.
  unfold assign_all.
  induction items as [|[k0 v0] items IH]; intros acc k v; simpl; [by right|].
  intros [Hin|Hacc]%IH; [left; by right|].
  destruct (decide (k0 = k)) as [->|Hne].
  - rewrite dict_get_setitem_eq in Hacc. injection Hacc as ->. left. left.
  - rewrite dict_get_setitem_ne in Hacc by done. by right.
Qed.

Lemma assign_all_is_Some (items : list (K * V)) :
  ∀ (acc : odict K V) k, is_Some (dict_get k acc) ∨ k ∈ items.*1 →
           is_Some (dict_get k (assign_all acc items)).
Proof.
  unfold assign_all.
  induction items as [|[k0 v0] items IH]; intros acc k; simpl.
  - intros [?|?%elem_of_nil]; done.
  - intros Hk. apply IH. destruct (decide (k0 = k)) as [->|Hne].
    + left. rewrite dict_get_setitem_eq. eauto.
    + rewrite dict_get_setitem_ne by done.
      destruct Hk as [?|[?|?]%elem_of_cons]; [by left|congruence|by right].
Qed.

Lemma assign_all_fresh (items : list (K * V)) :
  ∀ acc : odict K V, NoDup (acc.*1 ++ items.*1) → assign_all acc items = acc ++ items.
Proof.
  unfold assign_all. induction items as [|[k0 v0] items IH]; intros acc; simpl.
  - intros _. by rewrite app_nil_r.
  - intros ND. rewrite dict_setitem_fresh.
    + rewrite IH; [by rewrite <- (assoc_L (++))|].
      by rewrite fmap_app, <- (assoc_L (++)).
    + apply NoDup_app in ND as (_ & Hdisj & _). intros Hin.
      apply (Hdisj _ Hin). left.
Qed.

(** A comprehension whose items all evaluate is the dict of their
    assignments. *)
Lemma dict_comprehension_Ok {A} (item : A → res (K * V)) (items : list A) kvs :
  Forall2 (λ x kv, item x = Ok kv) items kvs →
  dict_comprehension item items = Ok (assign_all [] kvs).
Proof.
  unfold dict_comprehension, assign_all. intros Hall. generalize (@nil (K * V)).
  induction Hall as [|x kv items kvs Hx _ IH]; intros acc; simpl; [done|].
  rewrite Hx. simpl. apply IH.
Qed.

End DictProps.

(** *** Insertion by the value of the key *)

(** Dicts whose keys are compared by a value. *)

Section DictByValueProps.
Context {K V C : Type} `{EqDecision C} (value : K → C).

Lemma dict_setitem_by_keys (k : K) (v : V) (d : odict K V) :
  (dict_setitem_by value k v d).*1
  = if decide (value k ∈ value <$> d.*1) then d.*1 else d.*1 ++ [k].
Proof.
  induction d as [|[k' v'] d IH]; [done|].
  cbn [dict_setitem_by]. rewrite !fmap_cons. cbn [fst].
  destruct (decide (value k' = value k)) as [Heq|Hne].
  - rewrite fmap_cons, decide_True by (rewrite Heq; by left). done.
  - rewrite fmap_cons, IH. cbn [fst]. destruct (decide (value k ∈ value <$> d.*1)).
    + rewrite decide_True by (by right). done.
    + rewrite decide_False; [done|]. intros [?|?]%elem_of_cons; congruence.
Qed.

Lemma dict_setitem_by_fresh (k : K) (v : V) (d : odict K V) :
  value k ∉ value <$> d.*1 → dict_setitem_by value k v d = d ++ [(k, v)].
Proof.
  induction d as [|[k' v'] d IH]; simpl; [done|].
  rewrite not_elem_of_cons. intros [Hne Hd]. rewrite decide_False by done.
  by rewrite IH.
Qed.

Lemma dict_setitem_by_elem (k k' : K) (v v' : V) (d : odict K V) :
  (k', v') ∈ dict_setitem_by value k v d →
  (k', v') ∈ d ∨ (v' = v ∧ value k' = value k).
Proof.
  induction d as [|[k0 v0] d IH]; simpl.
  - intros [= -> ->]%list_elem_of_singleton. by right.
  - destruct (decide (value k0 = value k)) as [Heq|Hne].
    + intros [[= -> ->]|Hin]%elem_of_cons; [by right|]. left. by right.
    + intros [[= -> ->]|Hin]%elem_of_cons; [left; by left|].
      destruct (IH Hin) as [?|?]; [left; by right|by right].
Qed.

Lemma dict_setitem_by_NoDup (k : K) (v : V) (d : odict K V) :
  NoDup (value <$> d.*1) → NoDup (value <$> (dict_setitem_by value k v d).*1).
Proof.
  intros Hd. rewrite dict_setitem_by_keys. case_decide; [done|].
  rewrite fmap_app. apply NoDup_app. split; [done|]. split; [|apply NoDup_singleton].
  intros x Hx Hx'. apply list_elem_of_singleton in Hx'. by subst.
Qed.

Lemma assign_all_by_fresh (items : list (K * V)) :
  ∀ acc : odict K V,
    NoDup (value <$> (acc.*1 ++ items.*1)) → assign_all_by value acc items = acc ++ items.
Proof.
  unfold assign_all_by.
  induction items as [|[k v] items IH]; intros acc ND; simpl.
  - by rewrite app_nil_r.
  - rewrite dict_setitem_by_fresh.
    + rewrite IH; [by rewrite <- (assoc_L (++))|].
      rewrite !fmap_app in *. rewrite <- (assoc_L (++)). exact ND.
    + rewrite fmap_app in ND. apply NoDup_app in ND as (_ & Hdisj & _).
      intros Hin. apply (Hdisj _ Hin). left.
Qed.

Lemma assign_all_by_keys (items : list (K * V)) :
  ∀ (acc : odict K V) k',
    k' ∈ (assign_all_by value acc items).*1 → k' ∈ acc.*1 ∨ k' ∈ items.*1.
Proof.
  unfold assign_all_by.
  induction items as [|[k v] items IH]; intros acc k'; simpl; [by left|].
  intros [Hin|Hin]%IH; [|right; by right].
  rewrite dict_setitem_by_keys in Hin. case_decide; [by left|].
  apply elem_of_app in Hin as [?|Hin]; [by left|].
  apply list_elem_of_singleton in Hin as ->. right. by left.
Qed.

Lemma assign_all_by_elem (items : list (K * V)) :
  ∀ (acc : odict K V) k' v,
    (k', v) ∈ assign_all_by value acc items →
    (k', v) ∈ acc ∨ ∃ k, (k, v) ∈ items ∧ value k = value k'.
Proof.
  unfold assign_all_by.
  induction items as [|[k v0] items IH]; intros acc k' v; simpl; [by left|].
  intros [Hin|(k1 & Hin & Hk1)]%IH.
  - apply dict_setitem_by_elem in Hin as [?|[-> Hk]]; [by left|].
    right. exists k. split; [by left|done].
  - right. exists k1. split; [by right|done].
Qed.

Lemma assign_all_by_values (items : list (K * V)) :
  ∀ (acc : odict K V) c,
    c ∈ value <$> acc.*1 ∨ c ∈ value <$> items.*1 →
    c ∈ value <$> (assign_all_by value acc items).*1.
Proof.
  unfold assign_all_by.
  induction items as [|[k0 v0] items IH]; intros acc c; simpl.
  - by intros [?|[]%elem_of_nil].
  - intros Hc. apply IH. rewrite dict_setitem_by_keys.
    destruct Hc as [Hc|[->|Hc]%elem_of_cons]; [| |by right].
    + left. case_decide; [done|]. rewrite fmap_app. apply elem_of_app. by left.
    + left. case_decide; [done|]. rewrite fmap_app. apply elem_of_app. right. by left.
Qed.

Lemma assign_all_by_NoDup (items : list (K * V)) :
  ∀ acc : odict K V,
    NoDup (value <$> acc.*1) → NoDup (value <$> (assign_all_by value acc items).*1).
Proof.
  unfold assign_all_by.
  induction items as [|[k v] items IH]; intros acc ND; simpl; [done|].
  by apply IH, dict_setitem_by_NoDup.
Qed.

(** A comprehension all of whose items evaluate builds the dict of their
    assignments, and one that builds a dict has evaluated all its items. *)
Lemma dict_comprehension_by_Ok {A} (item : A → res (K * V)) (items : list A) kvs :
  Forall2 (λ x kv, item x = Ok kv) items kvs →
  dict_comprehension_by value item items = Ok (assign_all_by value [] kvs).
Proof.
  unfold dict_comprehension_by, assign_all_by. intros Hall. generalize (@nil (K * V)).
  induction Hall as [|x kv items kvs Hx _ IH]; intros acc; simpl; [done|].
  rewrite Hx. simpl. apply IH.
Qed.

Lemma dict_comprehension_by_inv {A} (item : A → res (K * V)) (items : list A) d :
  dict_comprehension_by value item items = Ok d →
  ∃ kvs, Forall2 (λ x kv, item x = Ok kv) items kvs ∧ d = assign_all_by value [] kvs.
Proof.
  unfold dict_comprehension_by, assign_all_by. generalize (@nil (K * V)).
  induction items as [|x items IH]; intros acc; simpl.
  - intros [= <-]. exists []. split; [constructor|done].
  - destruct (item x) as [kv|e] eqn:Hx; simpl.
    + intros (kvs & Hall & ->)%IH. exists (kv :: kvs). split; [by constructor|done].
    + intros E. exfalso. clear -E. induction items; simpl in *; [done|auto].
Qed.

Lemma dict_comprehension_by_raise {A} (item : A → res (K * V)) (items : list A) e :
  (∀ x e', x ∈ items → item x = Raise e' → e' = e) →
  (∃ x e', x ∈ items ∧ item x = Raise e') →
  dict_comprehension_by value item items = Raise e.
Proof.
  unfold dict_comprehension_by. generalize (@nil (K * V)).
  induction items as [|x items IH]; intros acc Honly (x0 & e0 & Hin & Hx0).
  - by apply elem_of_nil in Hin.
  - simpl. destruct (item x) as [kv|e'] eqn:Hx; simpl.
    + apply IH.
      * intros ????. eapply Honly; [by right|done].
      * apply elem_of_cons in Hin as [->|Hin]; [congruence|eauto].
    + assert (e' = e) as -> by (eapply Honly; [by left|done]).
      clear. induction items; simpl; [done|auto].
Qed.

End DictByValueProps.

(** ** The class encoder *)

Section EncoderProps.

Lemma np_unique_NoDup y : NoDup (SKLabelEncoder.np_unique y).
Proof.
  unfold SKLabelEncoder.np_unique. rewrite merge_sort_Permutation. apply NoDup_remove_dups.
Qed.

Lemma elem_of_np_unique y x : x ∈ SKLabelEncoder.np_unique y ↔ x ∈ y.
Proof.
  unfold SKLabelEncoder.np_unique. rewrite merge_sort_Permutation. apply elem_of_remove_dups.
Qed.

Lemma index_of_Some classes x i :
  SKLabelEncoder.index_of classes x = Some i → classes !! i = Some x.
Proof.
  unfold SKLabelEncoder.index_of. intros E.
  destruct (list_find _ classes) as [[j c]|] eqn:F; [|done]. injection E as <-.
  apply list_find_Some in F as (Hj & -> & _). done.
Qed.

Lemma index_of_NoDup classes x i :
  NoDup classes → classes !! i = Some x → SKLabelEncoder.index_of classes x = Some i.
Proof.
  intros ND Hi. unfold SKLabelEncoder.index_of.
  destruct (list_find (λ c, c = x) classes) as [[j c]|] eqn:F.
  - apply list_find_Some in F as (Hj & -> & _). simpl. f_equal.
    by eapply NoDup_lookup.
  - apply list_find_None in F. rewrite Forall_forall in F.
    exfalso. eapply F; [|done]. by eapply list_elem_of_lookup_2.
Qed.

(** What [fit_transform] learns and returns: the distinct labels, and for each
    label its position among them. *)
Lemma fit_transform_spec labels classes ids :
  SKLabelEncoder.fit_transform labels = (Some classes, Ok ids) →
  NoDup classes
  ∧ (∀ x, x ∈ classes ↔ x ∈ labels)
  ∧ Forall2 (λ l i, classes !! i = Some l) labels ids.
Proof.
  unfold SKLabelEncoder.fit_transform. intros [= <- E].
  split; [apply np_unique_NoDup|]. split; [apply elem_of_np_unique|].
  apply mapM_res_Ok_inv in E. eapply Forall2_impl; [exact E|].
  intros l i Hi. simpl in Hi.
  destruct (SKLabelEncoder.index_of _ l) as [j|] eqn:Hj; [|done].
  injection Hi as <-. by apply index_of_Some.
Qed.

Lemma count_ids classes labels ids c x :
  NoDup classes → Forall2 (λ l i, classes !! i = Some l) labels ids →
  classes !! c = Some x →
  length (filter (λ v, v = c) ids) = class_count labels x.
Proof.
  intros ND Hall Hc. unfold class_count.
  induction Hall as [|l i labels ids Hi _ IH]; [done|].
  rewrite !filter_cons. destruct (decide (i = c)) as [->|Hne].
  - rewrite Hc in Hi. injection Hi as ->. rewrite decide_True by done. simpl. by rewrite IH.
  - rewrite decide_False; [done|]. intros ->. apply Hne. by eapply NoDup_lookup.
Qed.

Lemma max_list_lt (ns : list nat) n : ns ≠ [] → Forall (λ i, i < n) ns → max_list ns < n.
Proof.
  intros Hne Hall. induction Hall as [|i ns Hi Hall IH]; [done|]. simpl.
  destruct ns; simpl in *; [lia|]. specialize (IH ltac:(done)). lia.
Qed.

Lemma bincount_ids labels classes ids :
  SKLabelEncoder.fit_transform labels = (Some classes, Ok ids) →
  length ids = length labels ∧ bincount ids = class_count labels <$> classes.
Proof.
  intros (ND & Hin & Hall)%fit_transform_spec.
  split; [symmetry; by eapply Forall2_length|].
  destruct labels as [|l0 labels].
  { apply Forall2_nil_inv_l in Hall as ->.
    destruct classes as [|c ?]; [done|].
    assert (c ∈ []) as ?%elem_of_nil by (apply Hin; left). done. }
  destruct ids as [|i0 ids]; [by apply Forall2_cons_nil_inv in Hall|].
  assert (S (max_list (i0 :: ids)) = length classes) as Hmax.
  { assert (max_list (i0 :: ids) < length classes).
    { apply max_list_lt; [done|]. apply Forall_forall. intros i [j Hj]%list_elem_of_lookup.
      destruct (Forall2_lookup_r _ _ _ _ _ Hall Hj) as (l & _ & Hi).
      by eapply lookup_lt_Some. }
    destruct (lookup_lt_is_Some_2 classes (length classes - 1)) as [x Hx]; [lia|].
    assert (x ∈ l0 :: labels) as [j Hj]%list_elem_of_lookup.
    { apply Hin. by eapply list_elem_of_lookup_2. }
    destruct (Forall2_lookup_l _ _ _ _ _ Hall Hj) as (i & Hi & Hxi).
    assert (i = length classes - 1) as -> by (by eapply NoDup_lookup).
    assert (length classes - 1 ≤ max_list (i0 :: ids)).
    { apply max_list_elem_of_le. by eapply list_elem_of_lookup_2. }
    lia. }
  unfold bincount. rewrite Hmax. apply list_eq. intros c.
  rewrite !list_lookup_fmap. destruct (classes !! c) as [x|] eqn:Hc; simpl.
  - rewrite lookup_seq_lt by (by eapply lookup_lt_Some). simpl. f_equal.
    by eapply count_ids.
  - rewrite lookup_seq_ge; [done|]. by apply lookup_ge_None.
Qed.

(** Every class has a training example. *)
Lemma class_count_pos labels classes ids c :
  SKLabelEncoder.fit_transform labels = (Some classes, Ok ids) →
  c ∈ classes → 1 ≤ class_count labels c.
Proof.
  intros (_ & Hin & _)%fit_transform_spec Hc. apply Hin in Hc.
  unfold class_count. assert (c ∈ filter (λ l, l = c) labels) as Hf.
  { by apply list_elem_of_filter. }
  destruct (filter _ labels); [by apply elem_of_nil in Hf|simpl; lia].
Qed.

Lemma class_count_le labels c : class_count labels c ≤ length labels.
Proof. apply length_filter. Qed.

Lemma remove_dups_length {A} `{EqDecision A} (l : list A) :
  length (remove_dups l) ≤ length l.
Proof. induction l as [|x l IH]; simpl; [done|]. case_decide; simpl; lia. Qed.

Lemma classes_length_le labels classes ids :
  SKLabelEncoder.fit_transform labels = (Some classes, Ok ids) →
  length classes ≤ length labels.
Proof.
  unfold SKLabelEncoder.fit_transform, SKLabelEncoder.np_unique. intros [= <- _].
  rewrite merge_sort_Permutation. apply remove_dups_length.
Qed.

End EncoderProps.

(** ** The feature pipeline *)

Section PipelineProps.
Context `{Collaborators}.

(** C6: the feature pipeline runs vectorize, then scale, then select.  In fit
    mode, whatever the state of the model, also one never fitted, the class
    encoder and each configured stage are fitted and applied in that order,
    the scaler on the matrix of the vectorizer and the selector on the matrix
    of the scaler with the class ids of the labels, and the fitted stages are
    stored; in transform mode the same stages are applied in the same order
    from the state as it is, which stays as it is, and the labels are passed
    through unread.  A stage that is not configured passes the matrix on. *)
Theorem preprocess_data_stage_order (st : pystate) (feats : list featmap) :
  (∀ (labels : list string) (enc' : SKLabelEncoder.t) (ids : list nat)
     (vec' : vectorizer) (scaler' : option scaler) (selector' : option selector)
     (X1 X2 X3 : matrix),
     SKLabelEncoder.fit_transform labels = (enc', Ok ids) →
     vec_fit_transform (_feat_vectorizer (self st)) feats = (vec', Ok X1) →
     fit_stage (_feat_scaler (self st)) scaler_fit_transform X1 = (scaler', Ok X2) →
     fit_stage (_feat_selector (self st)) (λ s X, selector_fit_transform s X ids) X2
       = (selector', Ok X3) →
     _preprocess_data feats (Some labels) true st
     = ({| heap := heap st;
           self := {| config := config (self st);
                      _class_encoder := enc';
                      _feat_vectorizer := vec';
                      _feat_selector := selector';
                      _feat_scaler := scaler';
                      _clf := _clf (self st);
                      _current_params := _current_params (self st) |} |},
        Ok (X3, YIds ids)))
  ∧ (∀ (y : option (list string)) (T1 T2 T3 : matrix),
       vec_transform (_feat_vectorizer (self st)) feats = Ok T1 →
       apply_stage (_feat_scaler (self st)) scaler_transform T1 = Ok T2 →
       apply_stage (_feat_selector (self st)) selector_transform T2 = Ok T3 →
       _preprocess_data feats y false st
       = (st, Ok (T3, match y with None => YNone | Some labels => YRaw labels end))).
Proof.
  destruct st as [h [cfg enc vec sel sc clf cur]]. simpl. split.
  - intros labels enc' ids vec' scaler' selector' X1 X2 X3 Henc Hvec Hscale Hselect.
    unfold _preprocess_data, class_encoder_fit_transform, call, mbind, M_bind, bind,
      get_self, ret. simpl.
    unfold SKLabelEncoder.fit_transform in Henc. injection Henc as <- Hids.
    rewrite Hids, Hvec. simpl.
    unfold fit_stage in *.
    destruct sc as [sc|]; simpl.
    + destruct (scaler_fit_transform sc X1) as [sc' r]. simplify_eq. simpl.
      destruct sel as [sel|]; simpl.
      * destruct (selector_fit_transform sel X2 ids) as [sel' r]. by simplify_eq.
      * by simplify_eq.
    + simplify_eq.
      destruct sel as [sel|]; simpl.
      * destruct (selector_fit_transform sel X2 ids) as [sel' r]. by simplify_eq.
      * by simplify_eq.
  - intros y T1 T2 T3 Tvec Tscale Tselect.
    unfold _preprocess_data, mbind, M_bind, bind, get_self, lift, ret. simpl.
    rewrite Tvec. unfold apply_stage in *.
    destruct sc as [sc|]; simpl.
    + rewrite Tscale. destruct sel as [sel|]; simpl.
      * by rewrite Tselect.
      * by simplify_eq.
    + simplify_eq. destruct sel as [sel|]; simpl.
      * by rewrite Tselect.
      * by simplify_eq.
Qed.

End PipelineProps.

(** ** Training *)

Section TrainingProps.
Context `{ParamSearch}.

Lemma py_or_Ok a b st : ∃ p, py_or a b st = (st, Ok p).
Proof.
  unfold py_or. destruct a as [p|]; [|by eexists].
  unfold mbind, M_bind, bind, get_dict. simpl. case_decide; by eexists.
Qed.

(** With explicit parameters that are not empty, [params or ...] is they. *)
Lemma py_or_explicit p b st :
  heap st !!! p ≠ ∅ → py_or (Some p) b st = (st, Ok (Some p)).
Proof.
  intros Hne. unfold py_or, mbind, M_bind, bind, get_dict. simpl.
  by rewrite decide_False.
Qed.

(** Indexing a list at every index of a list of valid indices. *)
Lemma mapM_py_index {A} (l : list A) (indices : list nat) :
  Forall (λ i, i < length l) indices →
  ∃ l', mapM (py_index l) indices = Ok l' ∧ Forall2 (λ i x, l !! i = Some x) indices l'.
Proof.
  induction 1 as [|i indices Hi _ (l' & E & IH)].
  - exists []. split; [done|constructor].
  - destruct (lookup_lt_is_Some_2 l i Hi) as [x Hx].
    exists (x :: l'). split; [|by constructor].
    rewrite mapM_res_cons, E. unfold py_index. by rewrite Hx.
Qed.

(** A list read at a permutation of its indices has the elements it had. *)
Lemma shuffled_elements {A} (l l' : list A) (indices : list nat) :
  indices ≡ₚ seq 0 (length l) →
  Forall2 (λ i x, l !! i = Some x) indices l' →
  ∀ x, x ∈ l' ↔ x ∈ l.
Proof.
  intros Hperm Hall x. split.
  - intros [j Hj]%list_elem_of_lookup.
    destruct (Forall2_lookup_r _ _ _ _ _ Hall Hj) as (i & _ & Hi).
    by eapply list_elem_of_lookup_2.
  - intros [i Hi]%list_elem_of_lookup.
    assert (i ∈ indices) as [k Hk]%list_elem_of_lookup.
    { rewrite Hperm. apply elem_of_seq. apply lookup_lt_Some in Hi. lia. }
    destruct (Forall2_lookup_l _ _ _ _ _ Hall Hk) as (x' & Hx' & Hi').
    rewrite Hi in Hi'. injection Hi' as <-. by eapply list_elem_of_lookup_2.
Qed.

Lemma shuffle_indices_valid {A} (l : list A) (indices : list nat) n :
  indices ≡ₚ seq 0 n → n ≤ length l → Forall (λ i, i < length l) indices.
Proof.
  intros Hperm Hn. apply Forall_forall. intros i Hi. rewrite Hperm in Hi.
  apply elem_of_seq in Hi. lia.
Qed.

(** C4: a call of [fit] on labels with at most one distinct value (the
    examples at least as many as the labels, which are parallel lists) returns
    without an exception and leaves the whole state, fitted or not, as it was:
    the classifier, the class encoder, the vectorizer, the scaler, the
    selector, the current parameters and every parameter dict. *)
Theorem fit_single_label_noop
    (st : pystate) (indices : list nat) (examples : list example) (labels : list label)
    (params : option loc) :
  indices ≡ₚ seq 0 (length labels) →
  length labels ≤ length examples →
  size (list_to_set labels : gset label) ≤ 1 →
  fit indices examples labels params st = (st, Ok tt).
Proof.
  intros Hperm Hlen Hsize. unfold fit.
  unfold mbind at 1, M_bind at 1, bind at 1, get_self at 1.
  unfold mbind at 1, M_bind at 1, bind at 1.
  destruct (py_or_Ok params (ModelConfig.params (config (self st))) st) as [p ->].
  destruct (mapM_py_index examples indices) as (examples' & -> & _).
  { by eapply shuffle_indices_valid. }
  destruct (mapM_py_index labels indices) as (labels' & -> & Hlabels).
  { by eapply shuffle_indices_valid. }
  unfold mbind at 1, M_bind at 1, bind at 1, lift at 1.
  unfold mbind at 1, M_bind at 1, bind at 1, lift at 1.
  assert ((list_to_set labels' : gset label) = list_to_set labels) as ->.
  { apply set_eq. intros x. rewrite !elem_of_list_to_set.
    by eapply shuffled_elements. }
  by rewrite decide_True.
Qed.

Ltac munfold :=
  unfold mbind, M_bind, bind, lift, get_self, set_self, ret, raise, get_dict, setitem,
    delitem, call in *.

(** The feature pipeline writes the class encoder and the stages and nothing
    else. *)
Lemma _preprocess_data_frame X y fit st :
  let st' := (_preprocess_data X y fit st).1 in
  heap st' = heap st ∧ config (self st') = config (self st)
  ∧ _clf (self st') = _clf (self st)
  ∧ _current_params (self st') = _current_params (self st).
Proof.
  destruct st as [h [cfg enc vec sel sc clf cur]].
  unfold _preprocess_data, class_encoder_fit_transform. munfold.
  destruct fit; simpl.
  - destruct y as [labels|]; simpl; [|done].
    destruct (SKLabelEncoder.encode_with _ _); simpl; [|done].
    destruct (vec_fit_transform _ _) as [v' [X1|]]; simpl; [|done].
    destruct sc as [sc|]; simpl.
    + destruct (scaler_fit_transform _ _) as [sc' [X2|]]; simpl; [|done].
      destruct sel as [sel|]; simpl; [|done].
      by destruct (selector_fit_transform _ _ _) as [sel' [X3|]].
    + destruct sel as [sel|]; simpl; [|done].
      by destruct (selector_fit_transform _ _ _) as [sel' [X3|]].
  - destruct (vec_transform _ _); simpl; [|done].
    destruct sc as [sc|]; simpl.
    + destruct (scaler_transform _ _); simpl; [|done].
      destruct sel as [sel|]; simpl; [|done].
      by destruct (selector_transform _ _).
    + destruct sel as [sel|]; simpl; [|done].
      by destruct (selector_transform _ _).
Qed.

Lemma get_feature_matrix_frame examples y fit st st' r :
  get_feature_matrix examples y fit st = (st', r) →
  heap st' = heap st ∧ config (self st') = config (self st)
  ∧ _clf (self st') = _clf (self st)
  ∧ _current_params (self st') = _current_params (self st).
Proof.
  unfold get_feature_matrix. unfold mbind at 1, M_bind at 1, bind at 1, lift at 1.
  destruct (mapM _extract_features examples) as [feats|]; [|by intros [= <- <-]].
  pose proof (_preprocess_data_frame feats y fit st) as Hf.
  unfold mbind, M_bind, bind, ret.
  destruct (_preprocess_data feats y fit st) as [st1 [Xy|]]; simpl in Hf;
    by intros [= <- <-].
Qed.

(** [_convert_params] leaves the model as it is, and every dict but the one
    it was given; that one it leaves converted. *)
Lemma _convert_params_frame param_grid y is_grid st st' r :
  _convert_params param_grid y is_grid st = (st', r) →
  self st' = self st
  ∧ match param_grid with
    | Some p =>
        (∀ q, q ≠ p → heap st' !!! q = heap st !!! q)
        ∧ (∀ r', r = Ok r' → r' = Some p ∧ converted (heap st !!! p) (heap st' !!! p))
    | None => st' = st
    end.
Proof.
  unfold _convert_params. destruct param_grid as [p|]; [|by intros [= <- <-]].
  munfold. unfold converted. simpl.
  destruct ((heap st !!! p) !! "class_weight") as [v|] eqn:Hw.
  - destruct (raw_weights_of v is_grid) as [raw|]; simpl; [|by intros [= <- <-]].
    destruct (mapM _ raw) as [weights|]; simpl; [|by intros [= <- <-]].
    destruct (weights_value weights is_grid) as [v'|]; simpl; [|by intros [= <- <-]].
    intros [= <- <-]. simpl. split; [done|]. split.
    + intros q Hq. by rewrite lookup_total_insert_ne.
    + intros r' [= <-]. split; [done|]. rewrite lookup_total_insert_eq. by eexists.
  - destruct ((heap st !!! p) !! "class_bias") as [v|] eqn:Hb.
    2:{ intros [= <- <-]. split; [done|]. split; [done|]. by intros r' [= <-]. }
    destruct (ids_of y) as [ids|]; simpl; [|by intros [= <- <-]].
    destruct (SKLabelEncoder.classes_ _) as [classes|]; simpl; [|by intros [= <- <-]].
    destruct (raw_bias_of v is_grid) as [raw|]; simpl; [|by intros [= <- <-]].
    destruct (mapM _ raw) as [weights|]; simpl; [|by intros [= <- <-]].
    destruct (weights_value weights is_grid) as [v'|]; simpl; [|by intros [= <- <-]].
    rewrite lookup_total_insert_eq, lookup_insert_ne by done. rewrite Hb.
    intros [= <- <-]. simpl. split; [done|]. split.
    + intros q Hq. by rewrite !lookup_total_insert_ne.
    + intros r' [= <-]. split; [done|]. rewrite ?lookup_total_insert_eq. by eexists.
Qed.

Lemma _get_model_constructor_unrecognized m settings kind :
  ModelConfig.model_settings (config m) = Some settings →
  settings !! "classifier_type" = Some kind →
  kind ∉ BASE_MODEL_TYPES →
  _get_model_constructor m = Raise (ValueError (not_recognized kind)).
Proof.
  intros Hs Hk Hnot. unfold _get_model_constructor. rewrite Hs, Hk.
  unfold BASE_MODEL_TYPES in Hnot. rewrite !not_elem_of_cons in Hnot.
  destruct Hnot as (? & ? & ? & ? & _). by rewrite !decide_False.
Qed.

(** [_fit], step by step. *)
Lemma _fit_eq X y params st :
  _fit X y params st
  = match _convert_params params y false st with
    | (st', Ok params') =>
        match _get_model_constructor (self st') with
        | Ok model_class =>
            match params' with
            | Some p => (st', clf_fit model_class (heap st' !!! p) X y)
            | None => (st', Raise TypeError)
            end
        | Raise e => (st', Raise e)
        end
    | (st', Raise e) => (st', Raise e)
    end.
Proof.
  unfold _fit, mbind, M_bind, bind, lift, get_self, get_dict, raise.
  destruct (_convert_params params y false st) as [st' [[p|]|]]; try done;
    by destruct (_get_model_constructor (self st')).
Qed.

(** [fit] past the shuffle, when there is more than one label. *)
Lemma fit_eq indices examples labels params st params' examples' labels' :
  py_or params (ModelConfig.params (config (self st))) st = (st, Ok params') →
  mapM (py_index examples) indices = Ok examples' →
  mapM (py_index labels) indices = Ok labels' →
  1 < size (list_to_set labels' : gset label) →
  fit indices examples labels params st
  = match get_feature_matrix examples' (Some (encode_label <$> labels')) true st with
    | (st1, Ok (X, y, groups)) =>
        if bool_decide (params' ≠ None)
           || bool_decide (ModelConfig.param_selection (config (self st)) = None)
        then
          match _fit X y params' st1 with
          | (st2, Ok clf) =>
              ({| heap := heap st2;
                  self := set_current_params params' (set_clf (Some clf) (self st2)) |},
               Ok tt)
          | (st2, Raise e) => (st2, Raise e)
          end
        else
          match _fit_cv X y groups None st1 with
          | (st2, Ok best) =>
              ({| heap := heap st2;
                  self := set_current_params (Some best.2)
                            (set_clf (Some best.1) (self st2)) |},
               Ok tt)
          | (st2, Raise e) => (st2, Raise e)
          end
    | (st1, Raise e) => (st1, Raise e)
    end.
Proof.
  intros Hor Hex Hlab Hsize. unfold fit.
  unfold mbind at 1, M_bind at 1, bind at 1, get_self at 1.
  unfold mbind at 1, M_bind at 1, bind at 1. rewrite Hor, Hex, Hlab.
  unfold mbind at 1, M_bind at 1, bind at 1, lift at 1.
  unfold mbind at 1, M_bind at 1, bind at 1, lift at 1.
  rewrite decide_False by lia.
  unfold mbind at 1, M_bind at 1, bind at 1.
  destruct (get_feature_matrix _ _ _ _) as [st1 [[[X y] groups]|]]; [|done].
  destruct (_ || _).
  - unfold mbind, M_bind, bind, set_self. by destruct (_fit _ _ _ _) as [st2 [clf|]].
  - unfold mbind, M_bind, bind, set_self. by destruct (_fit_cv _ _ _ _ _) as [st2 [best|]].
Qed.

(** C5, as the code does it: with a classifier type that is not recognized,
    a call of [fit] that trains directly (parameters given, or no selection
    settings), on labels with more than one distinct value, whose shuffle,
    feature pipeline and parameter conversion succeed, raises a [ValueError]
    whose message names the type.  The error comes from [_fit], after those
    steps, and the state they left is the state the exception leaves. *)
Theorem fit_unrecognized_kind
    (st st1 st2 : pystate) (indices : list nat) (examples examples' : list example)
    (labels labels' : list label) (params params' params'' : option loc)
    (settings : gmap string string) (kind : string)
    (X : matrix) (y : yval) (groups : list nat) :
  ModelConfig.model_settings (config (self st)) = Some settings →
  settings !! "classifier_type" = Some kind →
  kind ∉ BASE_MODEL_TYPES →
  py_or params (ModelConfig.params (config (self st))) st = (st, Ok params') →
  params' ≠ None ∨ ModelConfig.param_selection (config (self st)) = None →
  mapM (py_index examples) indices = Ok examples' →
  mapM (py_index labels) indices = Ok labels' →
  1 < size (list_to_set labels' : gset label) →
  get_feature_matrix examples' (Some (encode_label <$> labels')) true st
    = (st1, Ok (X, y, groups)) →
  _convert_params params' y false st1 = (st2, Ok params'') →
  fit indices examples labels params st
    = (st2, Raise (ValueError ("TextModel: Classifier type " +:+ py_repr kind
                               +:+ " not recognized"))).
Proof.
  intros Hs Hk Hnot Hor Hskip Hex Hlab Hsize Hgfm Hconv.
  rewrite (fit_eq _ _ _ _ _ _ _ _ Hor Hex Hlab Hsize), Hgfm.
  assert (bool_decide (params' ≠ None)
          || bool_decide (ModelConfig.param_selection (config (self st)) = None) = true)
    as ->.
  { destruct Hskip; [rewrite bool_decide_eq_true_2 by done
                    |rewrite (bool_decide_eq_true_2 (_ = None)) by done];
      by rewrite ?orb_true_r. }
  rewrite _fit_eq, Hconv.
  destruct (get_feature_matrix_frame _ _ _ _ _ _ Hgfm) as (_ & Hcfg1 & _).
  destruct (_convert_params_frame _ _ _ _ _ _ Hconv) as (Hself & _).
  rewrite (_get_model_constructor_unrecognized _ settings kind); try done.
  by rewrite Hself, Hcfg1.
Qed.

Lemma converted_class_bias d d' :
  converted d d' → d !! "class_weight" = None → is_Some (d !! "class_bias") →
  d' !! "class_bias" = None ∧ is_Some (d' !! "class_weight").
Proof.
  intros Hc Hw [v Hv]. unfold converted in Hc. rewrite Hw, Hv in Hc.
  destruct Hc as [v' ->].
  rewrite lookup_delete_eq, lookup_delete_ne, lookup_insert_eq by done. eauto.
Qed.

End TrainingProps.

(** ** The parameter resolver *)

Section ResolverProps.
Context `{ParamSearch}.

Lemma convert_key_class_key classes k :
  convert_key (Some classes) k
  = match class_key classes k with
    | Some k' => Ok k'
    | None => Raise SKLabelEncoder.unseen
    end.
Proof.
  destruct k as [i|s|i]; [done| |done]. cbn.
  by destruct (SKLabelEncoder.index_of classes s).
Qed.


(** The items of a mapping whose keys all translate, next to their keys. *)
Lemma translated_items classes (w : wdict) keys :
  Forall2 (λ k k', class_key classes k = Some k') w.*1 keys →
  Forall2 (λ kv kv', class_key classes kv.1 = Some kv'.1 ∧ kv'.2 = kv.2)
          w (zip keys w.*2).
Proof.
  revert keys. induction w as [|[k v] w IH]; intros keys Hall; simpl in *.
  - apply Forall2_nil_inv_l in Hall as ->. constructor.
  - apply Forall2_cons_inv_l in Hall as (k' & keys' & Hk & Hall & ->).
    simpl. constructor; [done|]. by apply IH.
Qed.


Lemma assign_translated classes (w : wdict) keys :
  Forall2 (λ k k', class_key classes k = Some k') w.*1 keys →
  translated classes w (assign_all_by key_value [] (zip keys w.*2)).
Proof.
  intros Hall. pose proof (translated_items classes w keys Hall) as Hzip.
  assert (mapM (class_key classes) w.*1 = Some keys) as Hkeys by (by apply mapM_Some_2).
  assert (length keys = length w.*2) as Hlen.
  { apply Forall2_length in Hall. rewrite length_fmap in Hall. rewrite length_fmap. lia. }
  split; [|split; [|split]].
  - intros k' [[]%elem_of_nil|Hin]%assign_all_by_keys.
    rewrite fst_zip in Hin by lia.
    apply list_elem_of_lookup in Hin as [i Hi].
    destruct (Forall2_lookup_r _ _ _ _ _ Hall Hi) as (k & Hk & Hck).
    exists k. split; [by eapply list_elem_of_lookup_2|done].
  - intros k' v [[]%elem_of_nil|(k0 & Hin & Hk0)]%assign_all_by_elem.
    apply list_elem_of_lookup in Hin as [i Hi].
    destruct (Forall2_lookup_r _ _ _ _ _ Hzip Hi) as ([k v0] & Hw & Hk & Hv).
    simpl in *. subst. exists k, k0. split; [by eapply list_elem_of_lookup_2|done].
  - intros k [i Hi]%list_elem_of_lookup.
    destruct (Forall2_lookup_l _ _ _ _ _ Hall Hi) as (k0 & Hk0 & Hck).
    assert (key_value k0 ∈ key_value <$> (assign_all_by key_value [] (zip keys w.*2)).*1)
      as Hin.
    { apply assign_all_by_values. right. rewrite fst_zip by lia.
      apply list_elem_of_fmap. exists k0. split; [done|]. by eapply list_elem_of_lookup_2. }
    apply list_elem_of_fmap in Hin as (k' & Hk' & Hin). eauto.
  - intros keys' Hkeys' ND. rewrite Hkeys in Hkeys'. injection Hkeys' as <-.
    rewrite assign_all_by_fresh; [done|]. simpl. by rewrite fst_zip by lia.
Qed.

Lemma convert_weights_translated classes (w : wdict) :
  Forall (λ kv, is_Some (class_key classes kv.1)) w →
  ∃ w', convert_weights (Some classes) w = Ok w' ∧ translated classes w w'.
Proof.
  intros Hknown.
  destruct (mapM_option_Forall2 (class_key classes) w.*1) as (keys & Hkeys & Hall).
  { by rewrite Forall_fmap. }
  exists (assign_all_by key_value [] (zip keys w.*2)). split.
  - apply dict_comprehension_by_Ok.
    eapply Forall2_impl; [exact (translated_items _ _ _ Hall)|].
    intros [k v] [k' v'] [Hk Hv]. simpl in *. subst.
    by rewrite convert_key_class_key, Hk.
  - by apply assign_translated.
Qed.




Lemma raw_weights_of_shape is_grid raw v :
  weights_shape is_grid raw v → raw_weights_of v is_grid = Ok raw.
Proof.
  unfold weights_shape, raw_weights_of. destruct is_grid.
  - by intros ->.
  - by intros (w & -> & ->).
Qed.

(** A key that does not translate, a raw label that is not a class or a
    numpy integer, makes the conversion of its mapping raise. *)
Lemma convert_weights_unknown classes (w : wdict) k x :
  (k, x) ∈ w → class_key classes k = None →
  convert_weights (Some classes) w = Raise SKLabelEncoder.unseen.
Proof.
  intros Hin Hk. apply dict_comprehension_by_raise.
  - intros [k0 v0] e' _. simpl. rewrite convert_key_class_key.
    destruct (class_key classes k0); simpl; by intros [= <-].
  - exists (k, x), SKLabelEncoder.unseen. split; [done|]. cbv beta. cbn [fst].
    by rewrite convert_key_class_key, Hk.
Qed.

Lemma convert_weights_raise classes (w : wdict) e :
  convert_weights (Some classes) w = Raise e → e = SKLabelEncoder.unseen.
Proof.
  destruct (decide (Forall (λ kv : wkey * float, is_Some (class_key classes kv.1)) w))
    as [Hall|Hex].
  - destruct (convert_weights_translated classes w Hall) as (w' & -> & _). done.
  - apply not_Forall_Exists in Hex; [|solve_decision].
    apply Exists_exists in Hex as ([k v] & Hin & Hnone). simpl in Hnone.
    rewrite (convert_weights_unknown classes w k v Hin); [by intros [= <-]|].
    destruct (class_key classes k); [by destruct Hnone; eexists|done].
Qed.


Lemma balanced_tuples_items (g : nat → float → wkey * float) (f : string → float)
    (classes : list string) :
  ∀ j, (λ cw, g cw.1 cw.2) <$> zip (seq j (length classes)) (f <$> classes)
       = imap (λ i c, g (j + i) (f c)) classes.
Proof.
  induction classes as [|c classes IH]; intros j; simpl; [done|].
  rewrite Nat.add_0_r. f_equal. rewrite IH. apply imap_ext. intros i x _. simpl.
  f_equal. lia.
Qed.

Lemma bias_class_weight_keys labels classes bias :
  NoDup (bias_class_weight labels classes bias).*1.
Proof.
  unfold bias_class_weight. apply NoDup_alt. intros i j k.
  rewrite !list_lookup_fmap, !list_lookup_imap.
  destruct (classes !! i); [|done]. destruct (classes !! j); [|done]. simpl.
  intros [= <-] [= E]. lia.
Qed.

Lemma bias_weights_eq labels classes ids bias :
  SKLabelEncoder.fit_transform labels = (Some classes, Ok ids) →
  bias_weights (length ids) (length classes) (bincount ids) bias
  = Ok (bias_class_weight labels classes bias).
Proof.
  intros Hfit. destruct (bincount_ids _ _ _ Hfit) as [-> ->].
  unfold bias_weights, balanced_w. rewrite <- list_fmap_compose.
  set (f := λ c, balanced_weight labels classes c).
  set (item := λ cw : nat * float, (KInt (Z.of_nat cw.1), interpolate bias cw.2)).
  rewrite (dict_comprehension_Ok _ _ (item <$> zip (seq 0 (length classes)) (f <$> classes))).
  2:{ apply Forall2_fmap_r, Forall_Forall2_diag, Forall_forall. done. }
  f_equal. rewrite assign_all_fresh.
  - simpl. apply (balanced_tuples_items (λ i w, (KInt (Z.of_nat i), interpolate bias w)) f).
  - simpl.
    rewrite (balanced_tuples_items (λ i w, (KInt (Z.of_nat i), interpolate bias w)) f).
    apply bias_class_weight_keys.
Qed.

Lemma mapM_bias_weights labels classes ids bs :
  SKLabelEncoder.fit_transform labels = (Some classes, Ok ids) →
  mapM (bias_weights (length ids) (length classes) (bincount ids)) bs
  = Ok (bias_class_weight labels classes <$> bs).
Proof.
  intros Hfit. induction bs as [|b bs IH]; [done|].
  by rewrite mapM_res_cons, (bias_weights_eq _ _ _ _ Hfit), IH.
Qed.

Lemma balanced_weight_nonneg labels classes c :
  sf_nonneg (Prim2SF (balanced_weight labels classes c)).
Proof.
  unfold balanced_weight. apply div_nonneg; [apply of_nat_nonneg|].
  apply mul_nonneg; apply of_nat_nonneg.
Qed.

(** C1: for a fitted class encoding and class-bias candidates [bs], in the grid
    shape and in the single shape, the resolver replaces the [class_bias] entry
    by a [class_weight] entry that holds one weight mapping per candidate; the
    mapping of a candidate [bias] gives each class id the weight
    [(1 - bias) + bias * (total / (num_classes * count))], where [count], the
    number of training examples of the class, is at least 1; at bias 0 that
    weight is exactly 1 and at bias 1 exactly [total / (num_classes * count)]. *)
Theorem convert_params_class_bias
    (st : pystate) (p : loc) (is_grid : bool) (labels classes : list string)
    (ids : list nat) (v : pval) (bs : list float) :
  SKLabelEncoder.fit_transform labels = (Some classes, Ok ids) →
  (Z.of_nat (length labels) < 2 ^ 63)%Z →
  _class_encoder (self st) = Some classes →
  (heap st !!! p) !! "class_weight" = None →
  (heap st !!! p) !! "class_bias" = Some v →
  bias_shape is_grid bs v →
  ∃ v',
    weights_shape is_grid (bias_class_weight labels classes <$> bs) v'
    ∧ _convert_params (Some p) (YIds ids) is_grid st
      = ({| heap := <[p := delete "class_bias" (<["class_weight" := v']> (heap st !!! p))]>
                      (heap st);
            self := self st |},
         Ok (Some p))
    ∧ ∀ i c, classes !! i = Some c →
        (∀ bias, dict_get (KInt (Z.of_nat i)) (bias_class_weight labels classes bias)
                 = Some (interpolate bias (balanced_weight labels classes c)))
        ∧ 1 ≤ class_count labels c
        ∧ interpolate 0 (balanced_weight labels classes c) = 1%float
        ∧ interpolate 1 (balanced_weight labels classes c)
          = balanced_weight labels classes c.
Proof.
  intros Hfit Hlen Henc Hw Hb Hshape.
  assert (raw_bias_of v is_grid = Ok bs) as Hraw.
  { unfold bias_shape in Hshape. destruct is_grid; [by subst|].
    by destruct Hshape as (b & -> & ->). }
  assert (∃ v', weights_value (bias_class_weight labels classes <$> bs) is_grid = Ok v'
                ∧ weights_shape is_grid (bias_class_weight labels classes <$> bs) v')
    as (v' & Hv' & Hshape').
  { unfold weights_value, weights_shape, bias_shape in *. destruct is_grid; [by eexists|].
    destruct Hshape as (b & -> & ->). eexists. split; [done|]. by eexists. }
  exists v'. split; [done|]. split.
  - unfold _convert_params, mbind, M_bind, bind, get_self, get_dict, lift, setitem,
      delitem, ret. simpl.
    rewrite Hw, Hb, Henc. simpl. rewrite Hraw. simpl.
    rewrite (mapM_bias_weights _ _ _ _ Hfit), Hv'. simpl.
    rewrite lookup_total_insert_eq, lookup_insert_ne, Hb by done.
    by rewrite insert_insert_eq.
  - intros i c Hc.
    assert (c ∈ classes) as Hin by (by eapply list_elem_of_lookup_2).
    pose proof (class_count_pos _ _ _ _ Hfit Hin) as Hpos.
    pose proof (class_count_le labels c) as Hle.
    pose proof (classes_length_le _ _ _ Hfit) as Hn.
    assert (1 ≤ length classes) by (destruct classes; [by apply elem_of_nil in Hin|simpl; lia]).
    split; [|split; [done|split]].
    + intros bias.
      destruct (dict_get_is_Some (KInt (Z.of_nat i)) (bias_class_weight labels classes bias))
        as [w Hget].
      { apply list_elem_of_fmap.
        exists (KInt (Z.of_nat i), interpolate bias (balanced_weight labels classes c)).
        split; [done|]. apply list_elem_of_lookup. exists i.
        unfold bias_class_weight. by rewrite list_lookup_imap, Hc. }
      rewrite Hget. f_equal.
      apply dict_get_Some_elem, list_elem_of_lookup in Hget as [j Hj].
      unfold bias_class_weight in Hj. rewrite list_lookup_imap in Hj.
      destruct (classes !! j) as [c'|] eqn:Hc'; [|done]. injection Hj as Hij <-.
      assert (j = i) as -> by lia. congruence.
    + apply interpolate_0. apply balanced_finite; lia.
    + apply interpolate_1, balanced_weight_nonneg.
Qed.







End ResolverProps.

(** ** Pickling *)

Section PicklingProps.
Context {pyobj : Type} (WORD_FREQ_RSC QUERY_FREQ_RSC : string) (empty_dict : pyobj).

(** C8: for an instance whose [_resources] attribute is a dict, [__getstate__]
    returns the attribute dictionary with every attribute but [_resources]
    unchanged, and [_resources] cut down to exactly the word-frequency and the
    query-frequency entries, each the empty dict when the instance has none. *)
Theorem getstate_prunes_resources
    (__dict__ : gmap string (@attr pyobj)) (_resources : gmap string pyobj) :
  __dict__ !! "_resources" = Some (ADict _resources) →
  ∃ state kept,
    __getstate__ WORD_FREQ_RSC QUERY_FREQ_RSC empty_dict __dict__ = Ok state
    ∧ state !! "_resources" = Some (ADict kept)
    ∧ (∀ name, name ≠ "_resources" → state !! name = __dict__ !! name)
    ∧ kept !! WORD_FREQ_RSC = Some (default empty_dict (_resources !! WORD_FREQ_RSC))
    ∧ kept !! QUERY_FREQ_RSC = Some (default empty_dict (_resources !! QUERY_FREQ_RSC))
    ∧ (∀ name, name ≠ WORD_FREQ_RSC → name ≠ QUERY_FREQ_RSC → kept !! name = None).
Proof.
  intros Hres. unfold __getstate__. rewrite Hres. eexists _, _. split; [done|].
  split; [by rewrite lookup_insert_eq|].
  split; [by intros name Hname; rewrite lookup_insert_ne|].
  split.
  { destruct (decide (QUERY_FREQ_RSC = WORD_FREQ_RSC)) as [->|Hne].
    - by rewrite lookup_insert_eq.
    - by rewrite lookup_insert_ne, lookup_insert_eq. }
  split; [by rewrite lookup_insert_eq|].
  intros name Hw Hq. by rewrite !lookup_insert_ne, lookup_empty.
Qed.

End PicklingProps.

(** * More of the code

    Properties of the code beyond the statements of the specification: more of
    [TextModel], and the blueprints and the query factory. *)

Ltac unfold_M :=
  unfold mbind, M_bind, bind, lift, get_self, set_self, ret, raise, get_dict, setitem,
    delitem, call in *.

(** ** Prediction, continued *)

Section PredictionMore.
Context `{Collaborators}.

Lemma clf_method_eq {A} (method : classifier → matrix → res A) st :
  clf_method method st
  = (st, match _clf (self st) with
         | Some clf => Ok (method clf)
         | None => Raise TypeError
         end).
Proof. unfold clf_method, mbind, M_bind, bind, get_self. by destruct (_clf (self st)). Qed.

Lemma _predict_proba_state X predictor st : (_predict_proba X predictor st).1 = st.
Proof.
  unfold _predict_proba, mbind, M_bind, bind, lift, get_self.
  by destruct (predictor X).
Qed.

(** X1: prediction changes nothing: whatever [predict], [predict_proba] and
    [predict_log_proba] return or raise, for any model and any examples, the
    model and every parameter dict are afterwards as they were before. *)
Theorem prediction_leaves_state (examples : list example) (st : pystate) :
  (predict examples st).1 = st
  ∧ (predict_proba examples st).1 = st
  ∧ (predict_log_proba examples st).1 = st.
Proof.
  pose proof (get_feature_matrix_transform_state examples None st) as Hst.
  destruct (get_feature_matrix examples None false st) as [st0 r] eqn:E.
  simpl in Hst. subst st0.
  split; [|split].
  - unfold predict, mbind, M_bind, bind at 1. rewrite E.
    destruct r as [Xyg|e]; [|done].
    unfold bind at 1. rewrite clf_method_eq.
    destruct (_clf (self st)) as [clf|]; [|done].
    unfold bind, lift, get_self, ret.
    destruct (clf_predict clf _); [|done].
    by destruct (SKLabelEncoder.inverse_transform _ _).
  - unfold predict_proba, mbind, M_bind, bind at 1. rewrite E.
    destruct r as [Xyg|e]; [|done].
    unfold bind at 1. rewrite clf_method_eq.
    destruct (_clf (self st)) as [clf|]; [|done].
    apply _predict_proba_state.
  - unfold predict_log_proba, mbind, M_bind, bind at 1. rewrite E.
    destruct r as [Xyg|e]; [|done].
    unfold bind at 1. rewrite clf_method_eq.
    destruct (_clf (self st)) as [clf|]; [|done].
    unfold bind, ret.
    pose proof (_predict_proba_state Xyg.1.1 (clf_predict_log_proba clf) st) as Hp.
    destruct (_predict_proba _ _ st) as [st1 [preds|e]]; simpl in Hp; by subst.
Qed.

(** X2: a model that has no classifier (one that was never trained, or whose
    training returned early) cannot predict: the three prediction methods
    raise, all the same exception, which is the exception of the feature
    pipeline if that fails and otherwise the error of calling a method of
    [None]; the pipeline runs first. *)
Theorem prediction_without_classifier (examples : list example) (st : pystate) :
  _clf (self st) = None →
  let e := match (get_feature_matrix examples None false st).2 with
           | Ok _ => TypeError
           | Raise e => e
           end in
  predict examples st = (st, Raise e)
  ∧ predict_proba examples st = (st, Raise e)
  ∧ predict_log_proba examples st = (st, Raise e).
Proof.
  intros Hclf.
  pose proof (get_feature_matrix_transform_state examples None st) as Hst.
  destruct (get_feature_matrix examples None false st) as [st0 r] eqn:E.
  simpl in Hst. subst st0.
  unfold predict, predict_proba, predict_log_proba, mbind, M_bind, bind.
  rewrite !E. destruct r as [Xyg|e]; simpl; [|done].
  by rewrite !clf_method_eq, Hclf.
Qed.

Lemma decode_loop_unseen classes i row top_class probabilities :
  row ≠ [] → length classes < i + length row →
  decode_loop (Some classes) i row top_class probabilities = Raise SKLabelEncoder.unseen.
Proof.
  revert i top_class probabilities.
  induction row as [|proba rest IH]; intros i top_class probabilities Hne Hlen; [done|].
  destruct (classes !! i) as [c|] eqn:Hc.
  - rewrite (decode_loop_cons _ _ _ _ _ _ _ Hc). cbv zeta.
    apply lookup_lt_Some in Hc. simpl in Hlen.
    apply IH; [|lia]. destruct rest; [simpl in Hlen; lia|done].
  - simpl. by rewrite Hc.
Qed.

(** The loop over a row that is not longer than the classes left: it returns,
    the distribution gains the labels of the classes it went through, and the
    top label is [None] exactly when it was [None] and no value of the row is
    above [-1.0]. *)
Lemma decode_loop_Ok classes row :
  ∀ i top_class probabilities,
    i + length row ≤ length classes →
    ∃ top_class' probabilities',
      decode_loop (Some classes) i row top_class probabilities
        = Ok (top_class', probabilities')
      ∧ (∀ l, is_Some (probabilities' !! l)
              ↔ is_Some (probabilities !! l)
                ∨ ∃ j c, j < length row ∧ classes !! (i + j) = Some c ∧ l = decode_label c)
      ∧ match top_class with
        | Some l => top_class' = Some l ∨
                    ∃ j c, j < length row ∧ classes !! (i + j) = Some c
                           ∧ top_class' = Some (decode_label c)
        | None =>
            (top_class' = None ↔ Forall (λ v, PrimFloat.ltb minus_one v = false) row)
            ∧ ∀ l, top_class' = Some l →
                   ∃ j c, j < length row ∧ classes !! (i + j) = Some c ∧ l = decode_label c
        end.
Proof.
  induction row as [|proba rest IH]; intros i top_class probabilities Hlen.
  - simpl. eexists _, _. split; [done|]. split.
    + intros l. split; [auto|]. intros [?|(j & c & ? & _)]; [done|simpl in *; lia].
    + destruct top_class; [auto|]. split; [done|]. done.
  - simpl in Hlen.
    destruct (lookup_lt_is_Some_2 classes i) as [c Hc]; [lia|].
    rewrite (decode_loop_cons _ _ _ _ _ _ _ Hc). cbv zeta.
    set (probabilities1 := <[decode_label c := proba]> probabilities).
    set (top1 := if PrimFloat.ltb _ proba then Some (decode_label c) else top_class).
    destruct (IH (S i) top1 probabilities1) as (t' & p' & E & Hdom & Htop); [lia|].
    exists t', p'. split; [done|]. split.
    + intros l. rewrite Hdom. unfold probabilities1. rewrite lookup_insert_is_Some.
      split.
      * intros [[<-|[_ ?]]|(j & c' & Hj & Hc' & ->)]; [right|by left|right].
        -- exists 0, c. rewrite Nat.add_0_r. simpl. split; [lia|done].
        -- exists (S j), c'. replace (i + S j) with (S i + j) by lia. simpl.
           split; [lia|done].
      * intros [Hl|(j & c' & Hj & Hc' & ->)].
        -- left. destruct (decide (decode_label c = l)); [by left|by right].
        -- destruct j as [|j].
           ++ rewrite Nat.add_0_r in Hc'. left. left. congruence.
           ++ right. exists j, c'. replace (S i + j) with (i + S j) by lia.
              simpl in Hj. split; [lia|done].
    + assert (∀ j c', j < length rest → classes !! (S i + j) = Some c' →
                ∃ j0 c0, j0 < length (proba :: rest) ∧ classes !! (i + j0) = Some c0
                         ∧ decode_label c' = decode_label c0) as Hshift.
      { intros j c' Hj Hc'. exists (S j), c'. replace (i + S j) with (S i + j) by lia.
        simpl. split; [lia|done]. }
      assert (∃ j0 c0, j0 < length (proba :: rest) ∧ classes !! (i + j0) = Some c0
                       ∧ decode_label c = decode_label c0) as Hhere.
      { exists 0, c. rewrite Nat.add_0_r. simpl. split; [lia|done]. }
      destruct top_class as [l0|].
      * assert (top1 = Some l0 ∨ top1 = Some (decode_label c)) as [Ht|Ht].
        { unfold top1. destruct (PrimFloat.ltb _ proba); auto. }
        -- rewrite Ht in Htop. destruct Htop as [?|(j & c' & Hj & Hc' & ->)]; [by left|].
           right. destruct (Hshift _ _ Hj Hc') as (j0 & c0 & ? & ? & ->). eauto.
        -- rewrite Ht in Htop. right.
           destruct Htop as [->|(j & c' & Hj & Hc' & ->)].
           ++ destruct Hhere as (j0 & c0 & ? & ? & ->). eauto.
           ++ destruct (Hshift _ _ Hj Hc') as (j0 & c0 & ? & ? & ->). eauto.
      * unfold top1 in *. simpl in *. clear top1.
        destruct (PrimFloat.ltb minus_one proba) eqn:Hcmp.
        -- split.
           ++ split.
              ** intros ->. destruct Htop as [?|(? & ? & _ & _ & ?)]; done.
              ** intros Hall. apply Forall_cons in Hall as [? _]. congruence.
           ++ intros l ->.
              destruct Htop as [[= ->]|(j & c' & Hj & Hc' & [= ->])].
              ** destruct Hhere as (j0 & c0 & ? & ? & ->). eauto.
              ** destruct (Hshift _ _ Hj Hc') as (j0 & c0 & ? & ? & ->). eauto.
        -- destruct Htop as [Hnone Hsome]. split.
           ++ rewrite Hnone. rewrite Forall_cons. split; [by split|by intros [_ ?]].
           ++ intros l Hl. destruct (Hsome _ Hl) as (j & c' & Hj & Hc' & ->).
              destruct (Hshift _ _ Hj Hc') as (j0 & c0 & ? & ? & ->). eauto.
Qed.

(** X3: when one row of the classifier's output is decoded: an empty row
    raises the [ValueError] of [argmax]; a row with more columns than the
    class encoder has classes raises the encoder's [ValueError] of unseen
    labels; every other row is decoded, and the labels of the returned
    distribution are exactly the decoded labels of the first classes, one per
    column. *)
Theorem decode_row_outcome (classes : list string) (row : list float) :
  match decode_row (Some classes) row with
  | Ok pred =>
      row ≠ [] ∧ length row ≤ length classes
      ∧ ∀ l, is_Some (pred.2 !! l)
             ↔ ∃ j c, j < length row ∧ classes !! j = Some c ∧ l = decode_label c
  | Raise e =>
      (row = [] ∧ e = ValueError "attempt to get argmax of an empty sequence")
      ∨ (length classes < length row ∧ e = SKLabelEncoder.unseen)
  end.
Proof.
  destruct row as [|proba rest]; [left; done|].
  unfold decode_row. cbn [argmax_check mbind res_bind].
  destruct (decide (length (proba :: rest) ≤ length classes)) as [Hle|Hgt].
  - destruct (decode_loop_Ok classes (proba :: rest) 0 None ∅) as (t & p & -> & Hdom & _);
      [done|].
    split; [done|]. split; [done|]. intros l. rewrite Hdom. simpl.
    rewrite lookup_empty. split.
    + intros [[? [=]]|?]; done.
    + auto.
  - rewrite decode_loop_unseen; [|done|simpl in *; lia]. right. split; [lia|done].
Qed.

(** X4: the top label of a decoded row is [None] exactly when no value of the
    row is greater than [-1.0] (a NaN is not); otherwise it is the decoded
    label of one of the row's classes and a key of the returned
    distribution. *)
Theorem decode_row_top_label (classes : list string) (row : list float)
    (pred : option label * gmap label float) :
  decode_row (Some classes) row = Ok pred →
  (pred.1 = None ↔ Forall (λ v, PrimFloat.ltb minus_one v = false) row)
  ∧ ∀ l, pred.1 = Some l →
         is_Some (pred.2 !! l)
         ∧ ∃ j c, j < length row ∧ classes !! j = Some c ∧ l = decode_label c.
Proof.
  intros E. unfold decode_row in E. destruct row as [|proba rest]; [done|].
  cbn [argmax_check mbind res_bind] in E.
  destruct (decide (length (proba :: rest) ≤ length classes)) as [Hle|Hgt].
  2:{ rewrite decode_loop_unseen in E; [done|done|simpl in *; lia]. }
  destruct (decode_loop_Ok classes (proba :: rest) 0 None ∅)
    as (t & p & E' & Hdom & Hnone & Hsome); [done|].
  rewrite E' in E. injection E as <-. cbn [fst snd]. split; [done|].
  intros l Hl. destruct (Hsome _ Hl) as (j & c & Hj & Hc & ->). split.
  - apply Hdom. right. eauto.
  - eauto.
Qed.

(** X5: [predict] returns, for the class ids the classifier predicts, the
    decoded label of the class at each id, in order; it raises the encoder's
    [ValueError] of unseen labels exactly when the classifier predicted an id
    that is not the id of a class. *)
Theorem predict_decodes_class_ids
    (st : pystate) (classes : list string) (examples : list example)
    (X : matrix) (y : yval) (groups : list nat) (clf : classifier) (ids : list nat) :
  _class_encoder (self st) = Some classes →
  (get_feature_matrix examples None false st).2 = Ok (X, y, groups) →
  _clf (self st) = Some clf →
  clf_predict clf X = Ok ids →
  match (predict examples st).2 with
  | Ok labels =>
      Forall2 (λ i l, ∃ c, classes !! i = Some c ∧ l = decode_label c) ids labels
  | Raise e => e = SKLabelEncoder.unseen ∧ ∃ i, i ∈ ids ∧ length classes ≤ i
  end.
Proof.
  intros Henc E%get_feature_matrix_transform_eq Hclf Hids.
  unfold predict, mbind, M_bind, bind. rewrite E, clf_method_eq, Hclf.
  unfold lift, get_self, ret. simpl. rewrite Hids, Henc. simpl.
  clear. induction ids as [|i ids IH]; [by constructor|].
  rewrite mapM_res_cons.
  destruct (classes !! i) as [c|] eqn:Hc.
  - destruct (mapM _ ids) as [cs|e]; simpl in *.
    + constructor; [eauto|done].
    + destruct IH as [-> (j & ? & ?)]. split; [done|]. exists j. split; [by right|done].
  - simpl. split; [done|]. exists i. split; [by left|]. by apply lookup_ge_None.
Qed.

End PredictionMore.

(** ** Dicts, continued *)

Section DictMore.
Context {K V : Type} `{EqDecision K}.

Lemma dict_setitem_keys (k : K) (v : V) (d : odict K V) :
  (dict_setitem k v d).*1 = if decide (k ∈ d.*1) then d.*1 else d.*1 ++ [k].
Proof.
  induction d as [|[k' v'] d IH]; [done|].
  cbn [dict_setitem]. rewrite !fmap_cons. cbn [fst].
  destruct (decide (k' = k)) as [->|Hne].
  - rewrite fmap_cons, decide_True by (by left). done.
  - rewrite fmap_cons, IH. cbn [fst]. destruct (decide (k ∈ d.*1)) as [Hin|Hnin].
    + rewrite decide_True by (by right). done.
    + rewrite decide_False; [done|]. intros [?|?]%elem_of_cons; congruence.
Qed.

Lemma dict_setitem_NoDup (k : K) (v : V) (d : odict K V) :
  NoDup d.*1 → NoDup (dict_setitem k v d).*1.
Proof.
  intros Hd. rewrite dict_setitem_keys. case_decide; [done|].
  apply NoDup_app. split; [done|]. split; [|apply NoDup_singleton].
  intros x Hx ->%list_elem_of_singleton. done.
Qed.

(** What a dict comprehension builds has each key once, and every key is the
    key of an item. *)
Lemma dict_comprehension_keys {A} (item : A → res (K * V)) (items : list A) d :
  dict_comprehension item items = Ok d →
  NoDup d.*1 ∧ ∀ k, k ∈ d.*1 → ∃ x kv, x ∈ items ∧ item x = Ok kv ∧ kv.1 = k.
Proof.
  unfold dict_comprehension.
  assert (∀ acc : odict K V,
            NoDup acc.*1 →
            foldl (λ acc x, d ← acc; kv ← item x; mret (dict_setitem kv.1 kv.2 d))
                  (Ok acc) items = Ok d →
            NoDup d.*1
            ∧ ∀ k, k ∈ d.*1 → k ∈ acc.*1 ∨ ∃ x kv, x ∈ items ∧ item x = Ok kv ∧ kv.1 = k)
    as Hgen.
  { induction items as [|x items IH]; intros acc Hacc; simpl.
    - intros [= <-]. auto.
    - destruct (item x) as [kv|e] eqn:Hx; simpl.
      + intros E. apply IH in E as [Hnd Hkeys]; [|by apply dict_setitem_NoDup].
        split; [done|]. intros k Hk. destruct (Hkeys k Hk) as [Hin|(x' & kv' & ? & ? & ?)].
        * rewrite dict_setitem_keys in Hin. case_decide; [by left|].
          apply elem_of_app in Hin as [?|Hk']; [by left|].
          apply list_elem_of_singleton in Hk' as ->.
          right. exists x, kv. split; [by left|done].
        * right. exists x', kv'. split; [by right|done].
      + intros E. exfalso. clear -E. induction items; simpl in *; [done|auto]. }
  intros E. apply (Hgen []) in E as [Hnd Hkeys]; [|constructor].
  split; [done|]. intros k Hk. destruct (Hkeys k Hk) as [Hin|?]; [|done].
  by apply elem_of_nil in Hin.
Qed.

Lemma dict_comprehension_raise {A} (item : A → res (K * V)) (items : list A) e :
  (∀ x e', x ∈ items → item x = Raise e' → e' = e) →
  (∃ x e', x ∈ items ∧ item x = Raise e') →
  dict_comprehension item items = Raise e.
Proof.
  unfold dict_comprehension. generalize (@nil (K * V)).
  induction items as [|x items IH]; intros acc Honly (x0 & e0 & Hin & Hx0).
  - by apply elem_of_nil in Hin.
  - simpl. destruct (item x) as [kv|e'] eqn:Hx; simpl.
    + apply IH.
      * intros ????. eapply Honly; [by right|done].
      * apply elem_of_cons in Hin as [->|Hin]; [congruence|eauto].
    + assert (e' = e) as -> by (eapply Honly; [by left|done]).
      clear. induction items; simpl; [done|auto].
Qed.

End DictMore.

(** ** The class encoder, continued *)

Section StringOrder.

Lemma ascii_compare_Lt_trans a b c :
  Ascii.compare a b = Lt → Ascii.compare b c = Lt → Ascii.compare a c = Lt.
Proof. unfold Ascii.compare. rewrite !N.compare_lt_iff. lia. Qed.

Lemma string_compare_Lt_trans s1 :
  ∀ s2 s3, String.compare s1 s2 = Lt → String.compare s2 s3 = Lt → String.compare s1 s3 = Lt.
Proof.
  induction s1 as [|a s1 IH]; intros [|b s2] [|c s3]; simpl; try done.
  destruct (Ascii.compare a b) eqn:Hab; [|clear IH|done].
  - apply Ascii.compare_eq_iff in Hab as ->.
    destruct (Ascii.compare b c); [apply IH|done|done].
  - destruct (Ascii.compare b c) eqn:Hbc; [| |done].
    + apply Ascii.compare_eq_iff in Hbc as ->. by rewrite Hab.
    + by rewrite (ascii_compare_Lt_trans a b c).
Qed.

Global Instance string_leb_trans : Transitive (λ s1 s2 : string, Is_true (String.leb s1 s2)).
Proof.
  intros s1 s2 s3. unfold String.leb.
  destruct (String.compare s1 s2) eqn:H12; [| |done]; intros _.
  - by apply String.compare_eq_iff in H12 as ->.
  - destruct (String.compare s2 s3) eqn:H23; [| |done]; intros _.
    + apply String.compare_eq_iff in H23 as ->. by rewrite H12.
    + by rewrite (string_compare_Lt_trans s1 s2 s3).
Qed.

Global Instance string_leb_total : Total (λ s1 s2 : string, Is_true (String.leb s1 s2)).
Proof.
  intros s1 s2. destruct (String.leb_total s1 s2) as [->| ->]; [by left|by right].
Qed.

Global Instance string_leb_antisym :
  AntiSymm (=) (λ s1 s2 : string, Is_true (String.leb s1 s2)).
Proof.
  intros s1 s2 H1%Is_true_true H2%Is_true_true. by apply String.leb_antisym.
Qed.

End StringOrder.

Section EncoderMore.

Lemma np_unique_Sorted y : Sorted String.leb (SKLabelEncoder.np_unique y).
Proof. unfold SKLabelEncoder.np_unique. apply (Sorted_merge_sort _). Qed.

(** The classes depend only on which labels there are. *)
Lemma np_unique_elements y1 y2 :
  (∀ x, x ∈ y1 ↔ x ∈ y2) → SKLabelEncoder.np_unique y1 = SKLabelEncoder.np_unique y2.
Proof.
  intros Hel. apply (Sorted_unique (λ s1 s2 : string, Is_true (String.leb s1 s2))).
  - apply np_unique_Sorted.
  - apply np_unique_Sorted.
  - apply NoDup_Permutation; [apply np_unique_NoDup..|].
    intros x. by rewrite !elem_of_np_unique.
Qed.

Lemma encode_with_np_unique y :
  ∃ ids, SKLabelEncoder.encode_with (SKLabelEncoder.np_unique y) y = Ok ids.
Proof.
  unfold SKLabelEncoder.encode_with.
  destruct (mapM_res_Forall2
              (λ x, match SKLabelEncoder.index_of (SKLabelEncoder.np_unique y) x with
                    | Some i => Ok i
                    | None => Raise SKLabelEncoder.unseen
                    end) (λ _ _, True) y) as (ids & E & _); [|by exists ids].
  apply Forall_forall. intros x Hx.
  apply elem_of_np_unique, list_elem_of_lookup in Hx as [i Hi].
  rewrite (index_of_NoDup _ _ _ (np_unique_NoDup y) Hi). by eexists.
Qed.

Lemma index_of_None classes s : s ∉ classes → SKLabelEncoder.index_of classes s = None.
Proof.
  intros Hs. unfold SKLabelEncoder.index_of.
  destruct (list_find _ classes) as [[i c]|] eqn:E; [|done].
  apply list_find_Some in E as (Hc & -> & _). exfalso. apply Hs.
  by eapply list_elem_of_lookup_2.
Qed.

End EncoderMore.

(** ** The feature pipeline, continued *)

Section PipelineMore.
Context `{Collaborators}.

(** Fitting the pipeline fits the class encoder on the labels, whatever the
    later stages do. *)
Lemma _preprocess_data_fit_encoder X labels st :
  _class_encoder (self (_preprocess_data X (Some labels) true st).1)
  = Some (SKLabelEncoder.np_unique labels).
Proof.
  destruct st as [h [cfg enc vec sel sc clf cur]].
  unfold _preprocess_data, class_encoder_fit_transform. unfold_M. simpl.
  destruct (SKLabelEncoder.encode_with _ _); simpl; [|done].
  destruct (vec_fit_transform _ _) as [v' [X1|]]; simpl; [|done].
  destruct sc as [sc|]; simpl.
  - destruct (scaler_fit_transform _ _) as [sc' [X2|]]; simpl; [|done].
    destruct sel as [sel|]; simpl; [|done].
    by destruct (selector_fit_transform _ _ _) as [sel' [X3|]].
  - destruct sel as [sel|]; simpl; [|done].
    by destruct (selector_fit_transform _ _ _) as [sel' [X3|]].
Qed.

Lemma get_feature_matrix_fit_encoder examples y st st1 r :
  get_feature_matrix examples (Some y) true st = (st1, Ok r) →
  _class_encoder (self st1) = Some (SKLabelEncoder.np_unique y).
Proof.
  unfold get_feature_matrix. unfold mbind at 1, M_bind at 1, bind at 1, lift at 1.
  destruct (mapM _extract_features examples) as [feats|]; [|done].
  pose proof (_preprocess_data_fit_encoder feats y st) as Henc.
  unfold mbind, M_bind, bind, ret.
  destruct (_preprocess_data feats (Some y) true st) as [st2 [Xy|]]; simpl in Henc; [|done].
  by intros [= <- _].
Qed.

(** X6: in fit mode the pipeline always refits the class encoder, and it
    does so first: whatever the vectorizer, the scaler and the selector then
    do, also when one of them raises, the encoder afterwards holds the
    distinct labels, each once, in sorted order; and when the pipeline
    returns, the labels it returns are the class ids, the position of each
    label among those classes. *)
Theorem preprocess_data_fits_class_encoder
    (st : pystate) (X : list featmap) (labels : list string) :
  let classes := SKLabelEncoder.np_unique labels in
  _class_encoder (self (_preprocess_data X (Some labels) true st).1) = Some classes
  ∧ NoDup classes
  ∧ (∀ x, x ∈ classes ↔ x ∈ labels)
  ∧ Sorted String.leb classes
  ∧ ∀ X' y, (_preprocess_data X (Some labels) true st).2 = Ok (X', y) →
           ∃ ids, y = YIds ids ∧ Forall2 (λ l i, classes !! i = Some l) labels ids.
Proof.
  intros classes.
  split; [|split; [apply np_unique_NoDup|split; [apply elem_of_np_unique|
           split; [apply np_unique_Sorted|]]]].
  - apply _preprocess_data_fit_encoder.
  - intros X' y. destruct st as [h [cfg enc vec sel sc clf cur]].
    unfold _preprocess_data, class_encoder_fit_transform. unfold_M. simpl.
    destruct (SKLabelEncoder.encode_with _ _) as [ids|] eqn:Hids; simpl; [|done].
    assert (Forall2 (λ l i, classes !! i = Some l) labels ids) as Hall.
    { eapply (fit_transform_spec labels classes ids).
      unfold SKLabelEncoder.fit_transform. by rewrite Hids. }
    destruct (vec_fit_transform _ _) as [v' [X1|]]; simpl; [|done].
    destruct sc as [sc|]; simpl.
    + destruct (scaler_fit_transform _ _) as [sc' [X2|]]; simpl; [|done].
      destruct sel as [sel|]; simpl; [|by intros [= _ <-]; eauto].
      destruct (selector_fit_transform _ _ _) as [sel' [X3|]]; simpl; [|done].
      intros [= _ <-]; eauto.
    + destruct sel as [sel|]; simpl; [|by intros [= _ <-]; eauto].
      destruct (selector_fit_transform _ _ _) as [sel' [X3|]]; simpl; [|done].
      intros [= _ <-]; eauto.
Qed.

(** X7: a scaler or a selector that the model settings do not name, or name
    by a word the code does not know, is left out without an error: the model
    that [__init__] builds from such settings has neither stage, and fitting
    its pipeline fits the class encoder and the vectorizer only and returns
    the vectorizer's matrix as it is. *)
Theorem init_skips_unrecognized_stages
    (cfg : ModelConfig.t) (h : gmap loc (gmap string pval)) (X : list featmap)
    (labels : list string) (vec' : vectorizer) (X1 : matrix) :
  (∀ settings, ModelConfig.model_settings cfg = Some settings →
     settings !! "feature_scaler" ≠ Some "std-dev"
     ∧ settings !! "feature_scaler" ≠ Some "max-abs"
     ∧ settings !! "feature_selector" ≠ Some "l1"
     ∧ settings !! "feature_selector" ≠ Some "f") →
  vec_fit_transform DictVectorizer X = (vec', Ok X1) →
  ∃ ids,
    _preprocess_data X (Some labels) true {| heap := h; self := __init__ cfg |}
    = ({| heap := h;
          self := {| config := cfg;
                     _class_encoder := Some (SKLabelEncoder.np_unique labels);
                     _feat_vectorizer := vec';
                     _feat_selector := None;
                     _feat_scaler := None;
                     _clf := None;
                     _current_params := None |} |},
       Ok (X1, YIds ids))
    ∧ Forall2 (λ l i, SKLabelEncoder.np_unique labels !! i = Some l) labels ids.
Proof.
  intros Hsettings Hvec.
  assert (_get_feature_scaler cfg = None) as Hsc.
  { unfold _get_feature_scaler.
    destruct (ModelConfig.model_settings cfg) as [settings|] eqn:Hs; [|done].
    destruct (Hsettings settings eq_refl) as (Hstd & Hmax & _).
    destruct (settings !! "feature_scaler") as [name|]; [|done].
    destruct (decide (name = "std-dev")) as [->|]; [done|].
    destruct (decide (name = "max-abs")) as [->|]; [done|].
    repeat (destruct name as [|[[] [] [] [] [] [] [] []] name]; try done). }
  assert (_get_feature_selector cfg = None) as Hsel.
  { unfold _get_feature_selector.
    destruct (ModelConfig.model_settings cfg) as [settings|] eqn:Hs; [|done].
    destruct (Hsettings settings eq_refl) as (_ & _ & Hl1 & Hf).
    destruct (settings !! "feature_selector") as [name|]; [|done].
    destruct (decide (name = "l1")) as [->|]; [done|].
    destruct (decide (name = "f")) as [->|]; [done|].
    repeat (destruct name as [|[[] [] [] [] [] [] [] []] name]; try done). }
  destruct (encode_with_np_unique labels) as [ids Hids]. exists ids. split.
  - unfold _preprocess_data, class_encoder_fit_transform, __init__. unfold_M. simpl.
    unfold SKLabelEncoder.fit_transform. rewrite Hids, Hvec, Hsc, Hsel. done.
  - eapply (fit_transform_spec labels _ ids).
    unfold SKLabelEncoder.fit_transform. by rewrite Hids.
Qed.

End PipelineMore.

(** ** The parameter resolver, continued *)

Section ResolverMore.
Context `{ParamSearch}.

Lemma mapM_res_Forall {A B} (f : A → res B) (P : B → Prop) l k :
  (∀ a b, f a = Ok b → P b) → mapM f l = Ok k → Forall P k.
Proof.
  intros Hf E%mapM_res_Ok_inv. induction E; constructor; eauto.
Qed.

(** [_convert_params] changes nothing before its last steps, which cannot
    fail. *)
Lemma _convert_params_raise param_grid y is_grid st st' e :
  _convert_params param_grid y is_grid st = (st', Raise e) → st' = st.
Proof.
  unfold _convert_params. destruct param_grid as [p|]; [|by intros [= <-]].
  unfold_M. simpl.
  destruct ((heap st !!! p) !! "class_weight") as [v|] eqn:Hw.
  - destruct (raw_weights_of v is_grid) as [raw|]; simpl; [|by intros [= <-]].
    destruct (mapM _ raw) as [weights|]; simpl; [|by intros [= <-]].
    destruct (weights_value weights is_grid) as [v'|]; simpl; [|by intros [= <-]].
    done.
  - destruct ((heap st !!! p) !! "class_bias") as [v|] eqn:Hb; [|done].
    destruct (ids_of y) as [ids|]; simpl; [|by intros [= <-]].
    destruct (SKLabelEncoder.classes_ _) as [classes|]; simpl; [|by intros [= <-]].
    destruct (raw_bias_of v is_grid) as [raw|]; simpl; [|by intros [= <-]].
    destruct (mapM _ raw) as [weights|]; simpl; [|by intros [= <-]].
    destruct (weights_value weights is_grid) as [v'|]; simpl; [|by intros [= <-]].
    rewrite lookup_total_insert_eq, lookup_insert_ne by done. by rewrite Hb.
Qed.

(** X8: [_convert_params] fails without a trace and touches two entries
    only: when it raises, the state is the state before the call; in every
    outcome each entry of the dict other than [class_weight] and [class_bias]
    is as it was; and when the dict has a [class_weight], its [class_bias], if
    any, stays in the dict as well (it is only used, and removed, when there
    is no [class_weight]). *)
Theorem convert_params_touches_class_weight_only
    (st st' : pystate) (p : loc) (y : yval) (is_grid : bool) (r : res (option loc)) :
  _convert_params (Some p) y is_grid st = (st', r) →
  (∀ e, r = Raise e → st' = st)
  ∧ (∀ key, key ≠ "class_weight" → key ≠ "class_bias" →
            (heap st' !!! p) !! key = (heap st !!! p) !! key)
  ∧ (is_Some ((heap st !!! p) !! "class_weight") →
     (heap st' !!! p) !! "class_bias" = (heap st !!! p) !! "class_bias").
Proof.
  intros E. destruct r as [r|e].
  - apply _convert_params_frame in E as (_ & _ & Hconv).
    destruct (Hconv r eq_refl) as [_ Hc]. unfold converted in Hc.
    split; [done|].
    destruct ((heap st !!! p) !! "class_weight") as [v|] eqn:Hw.
    + destruct Hc as [v' ->]. split.
      * intros key ? ?. by rewrite lookup_insert_ne.
      * intros _. by rewrite lookup_insert_ne.
    + split; [|by intros [? [=]]].
      intros key ? ?. destruct ((heap st !!! p) !! "class_bias").
      * destruct Hc as [v' ->]. by rewrite lookup_delete_ne, lookup_insert_ne.
      * by rewrite Hc.
  - apply _convert_params_raise in E as ->. done.
Qed.

Lemma convert_weights_unseen classes (w : wdict) s x :
  (KLabel s, x) ∈ w → s ∉ classes →
  convert_weights (Some classes) w = Raise SKLabelEncoder.unseen.
Proof.
  intros Hin Hs. apply dict_comprehension_by_raise.
  - intros [k v] e' _. simpl. rewrite convert_key_class_key.
    destruct (class_key classes k); simpl; by intros [= <-].
  - exists (KLabel s, x), SKLabelEncoder.unseen. split; [done|]. cbv beta. cbn [fst].
    rewrite convert_key_class_key. cbn [class_key]. by rewrite index_of_None.
Qed.

(** X9: a [class_weight] mapping that has a raw label among its keys which is
    not a class of the fitted class encoder makes [_convert_params] raise the
    encoder's [ValueError] of unseen labels, in both shapes, and the dict is
    left unconverted. *)
Theorem convert_params_unseen_label
    (st : pystate) (p : loc) (y : yval) (is_grid : bool) (classes : list string)
    (v : pval) (raw : list wdict) (w : wdict) (s : string) (x : float) :
  _class_encoder (self st) = Some classes →
  (heap st !!! p) !! "class_weight" = Some v →
  weights_shape is_grid raw v →
  w ∈ raw → (KLabel s, x) ∈ w → s ∉ classes →
  _convert_params (Some p) y is_grid st = (st, Raise SKLabelEncoder.unseen).
Proof.
  intros Henc Hw Hshape Hin Hkey Hs.
  unfold _convert_params. unfold_M. simpl. rewrite Hw, Henc.
  rewrite (raw_weights_of_shape _ _ _ Hshape). simpl.
  rewrite (mapM_res_raise _ _ SKLabelEncoder.unseen); [done| |].
  - intros w0 e' _. apply convert_weights_raise.
  - exists w, SKLabelEncoder.unseen. split; [done|]. by eapply convert_weights_unseen.
Qed.

(** The keys of a mapping of class ids differ as numbers. *)
Lemma class_id_keys_values (w : wdict) :
  class_id_keys w → NoDup (key_value <$> w.*1).
Proof.
  intros [Hnd Hkeys]. apply NoDup_fmap_2_strong; [|done].
  intros k1 k2 [i ->]%Hkeys [j ->]%Hkeys. simpl. by intros [= ->].
Qed.

(** Converting a mapping whose keys are Python ints keeps the keys, each
    once. *)
Lemma convert_weights_class_id_keys enc (w w' : wdict) :
  (∀ k, k ∈ w.*1 → ∃ i, k = KInt i) →
  convert_weights enc w = Ok w' → class_id_keys w'.
Proof.
  intros Hint (kvs & Hall & ->)%dict_comprehension_by_inv.
  assert (NoDup (key_value <$> (assign_all_by key_value [] kvs).*1)) as ND.
  { apply assign_all_by_NoDup. constructor. }
  split; [by apply NoDup_fmap_1 in ND|].
  intros k [[]%elem_of_nil|Hk]%assign_all_by_keys.
  apply list_elem_of_fmap in Hk as ([k' v'] & -> & [i Hi]%list_elem_of_lookup).
  destruct (Forall2_lookup_r _ _ _ _ _ Hall Hi) as ([k0 v0] & Hw & Hitem).
  destruct (Hint k0) as [j ->].
  { apply list_elem_of_fmap. exists (k0, v0). split; [done|]. by eapply list_elem_of_lookup_2. }
  simpl in Hitem. injection Hitem as <- _. by eexists.
Qed.

Lemma bias_weights_class_id_keys len_y len_classes class_count class_bias w :
  bias_weights len_y len_classes class_count class_bias = Ok w → class_id_keys w.
Proof.
  intros [Hnd Hkeys]%dict_comprehension_keys. split; [done|].
  intros k Hk. destruct (Hkeys k Hk) as (cw & kv & _ & [= <-] & <-). by eexists.
Qed.

Lemma convert_weights_fixed enc (w : wdict) :
  class_id_keys w → convert_weights enc w = Ok w.
Proof.
  intros Hw. pose proof (class_id_keys_values w Hw) as ND. destruct Hw as [_ Hkeys].
  unfold convert_weights.
  rewrite (dict_comprehension_by_Ok _ _ w w).
  - by rewrite assign_all_by_fresh.
  - apply Forall2_same_length_lookup. split; [done|].
    intros i [k v] kv Hi Hi'. rewrite Hi in Hi'. injection Hi' as <-.
    destruct (Hkeys k) as [j ->]; [|done].
    apply list_elem_of_fmap. exists (k, v). split; [done|]. by eapply list_elem_of_lookup_2.
Qed.

Lemma mapM_convert_weights_fixed enc (weights : list wdict) :
  Forall class_id_keys weights → mapM (convert_weights enc) weights = Ok weights.
Proof.
  induction 1 as [|w weights Hw _ IH]; [done|].
  by rewrite mapM_res_cons, convert_weights_fixed, IH.
Qed.

Lemma mapM_convert_weights_class_id_keys enc (raw weights : list wdict) :
  Forall (λ w : wdict, ∀ k, k ∈ w.*1 → ∃ i, k = KInt i) raw →
  mapM (convert_weights enc) raw = Ok weights → Forall class_id_keys weights.
Proof.
  intros Hint E%mapM_res_Ok_inv. induction E as [|w w' raw weights Hw _ IH].
  - constructor.
  - apply Forall_cons in Hint as [Hw0 Hint]. constructor; [|by apply IH].
    by eapply convert_weights_class_id_keys.
Qed.

(** Converting a dict whose [class_weight] is already in the style of the
    classifier changes nothing. *)
Lemma _convert_params_converted st p y is_grid weights v' :
  heap st !! p = Some (heap st !!! p) →
  (heap st !!! p) !! "class_weight" = Some v' →
  weights_value weights is_grid = Ok v' →
  Forall class_id_keys weights →
  _convert_params (Some p) y is_grid st = (st, Ok (Some p)).
Proof.
  intros Hp Hw Hv Hkeys. unfold _convert_params. unfold_M. simpl. rewrite Hw.
  assert (∃ raw, raw_weights_of v' is_grid = Ok raw ∧ Forall class_id_keys raw
                 ∧ weights_value raw is_grid = Ok v') as (raw & -> & Hraw & Hv').
  { destruct is_grid; simpl in *.
    - injection Hv as <-. by exists weights.
    - destruct weights as [|w0 weights]; [done|]. simpl in Hv. injection Hv as <-.
      exists [w0]. split; [done|]. split; [|done].
      apply Forall_cons in Hkeys as [? _]. by constructor. }
  simpl. rewrite mapM_convert_weights_fixed by done. simpl. rewrite Hv'. simpl.
  f_equal. destruct st as [h m]. simpl in *. f_equal.
  rewrite (insert_id (h !!! p)) by done. by rewrite insert_id.
Qed.

Lemma raw_weights_of_int_keyed v is_grid raw :
  int_keyed v → raw_weights_of v is_grid = Ok raw →
  Forall (λ w : wdict, ∀ k, k ∈ w.*1 → ∃ i, k = KInt i) raw.
Proof.
  unfold raw_weights_of. intros Hv E.
  destruct is_grid, v as [x|[|x xs]|[|kv w]|ws|s]; simplify_eq; simpl in *;
    try done; by constructor.
Qed.

(** X10: converting twice is converting once, for a dict in the style of the
    configuration whose [class_weight], if it has one, has ints for keys
    (the keys that the class encoder returns for raw labels are numpy
    integers, which not every Python counts as [int]): after
    [_convert_params] has converted the dict, a second call on the same dict,
    in the same shape, with any labels, returns the same reference and
    changes nothing.  So a dict with a [class_bias], which training converts
    in place, can be used for training again. *)
Theorem convert_params_idempotent
    (st st' : pystate) (p : loc) (y y' : yval) (is_grid : bool) (r : option loc) :
  (∀ v, (heap st !!! p) !! "class_weight" = Some v → int_keyed v) →
  _convert_params (Some p) y is_grid st = (st', Ok r) →
  _convert_params (Some p) y' is_grid st' = (st', Ok (Some p)).
Proof.
  intros Hint. unfold _convert_params at 1. unfold_M. simpl.
  destruct ((heap st !!! p) !! "class_weight") as [v|] eqn:Hw.
  - destruct (raw_weights_of v is_grid) as [raw|] eqn:Hraw; simpl; [|done].
    destruct (mapM _ raw) as [weights|] eqn:Hweights; simpl; [|done].
    destruct (weights_value weights is_grid) as [v'|] eqn:Hv; simpl; [|done].
    intros [= <- <-]. eapply _convert_params_converted; simpl.
    + by rewrite lookup_insert_eq, lookup_total_insert_eq.
    + by rewrite lookup_total_insert_eq, lookup_insert_eq.
    + done.
    + eapply mapM_convert_weights_class_id_keys; [|done].
      eapply raw_weights_of_int_keyed; [|done]. by apply Hint.
  - destruct ((heap st !!! p) !! "class_bias") as [v|] eqn:Hb.
    2:{ intros [= <- <-]. unfold _convert_params. unfold_M. simpl. by rewrite Hw, Hb. }
    destruct (ids_of y) as [ids|]; simpl; [|done].
    destruct (SKLabelEncoder.classes_ _) as [classes|]; simpl; [|done].
    destruct (raw_bias_of v is_grid) as [raw|]; simpl; [|done].
    destruct (mapM _ raw) as [weights|] eqn:Hweights; simpl; [|done].
    destruct (weights_value weights is_grid) as [v'|] eqn:Hv; simpl; [|done].
    rewrite lookup_total_insert_eq, lookup_insert_ne by done. rewrite Hb.
    intros [= <- <-]. eapply _convert_params_converted; simpl.
    + by rewrite lookup_insert_eq, lookup_total_insert_eq.
    + by rewrite lookup_total_insert_eq, lookup_delete_ne, lookup_insert_eq.
    + done.
    + eapply mapM_res_Forall; [|done]. intros ??. apply bias_weights_class_id_keys.
Qed.

End ResolverMore.

(** ** Training, continued *)

Section TrainingMore.
Context `{ParamSearch}.

Lemma py_or_empty p b st : heap st !!! p = ∅ → py_or (Some p) b st = py_or None b st.
Proof.
  intros Hd. unfold py_or, mbind, M_bind, bind, get_dict. simpl.
  by rewrite decide_True.
Qed.

Lemma fit_py_or indices examples labels params params0 st :
  py_or params (ModelConfig.params (config (self st))) st
    = py_or params0 (ModelConfig.params (config (self st))) st →
  fit indices examples labels params st = fit indices examples labels params0 st.
Proof.
  intros Hor. cbv beta iota delta [fit mbind M_bind bind get_self]. by rewrite Hor.
Qed.

(** X11: an empty dict of parameters counts as no parameters: [fit] called
    with a reference to an empty dict does in every respect what it does when
    called with [None], so it falls back on the parameters of the
    configuration and does not bypass the parameter selection. *)
Theorem fit_empty_params_as_none
    (st : pystate) (indices : list nat) (examples : list example) (labels : list label)
    (p : loc) :
  heap st !!! p = ∅ →
  fit indices examples labels (Some p) st = fit indices examples labels None st.
Proof. intros Hd. apply fit_py_or. by apply py_or_empty. Qed.

Lemma mapM_py_index_outcome {A} (l : list A) (indices : list nat) :
  match mapM (py_index l) indices with
  | Ok l' => Forall2 (λ i x, l !! i = Some x) indices l'
  | Raise e => e = IndexError ∧ ∃ i, i ∈ indices ∧ length l ≤ i
  end.
Proof.
  induction indices as [|i indices IH]; [constructor|].
  rewrite mapM_res_cons. unfold py_index at 1.
  destruct (l !! i) as [x|] eqn:Hx.
  - destruct (mapM _ indices) as [l'|e].
    + by constructor.
    + destruct IH as [-> (j & ? & ?)]. split; [done|]. exists j. split; [by right|done].
  - split; [done|]. exists i. split; [by left|]. by apply lookup_ge_None.
Qed.

Lemma fit_shuffle_raises indices examples labels params st e :
  mapM (py_index examples) indices = Raise e →
  fit indices examples labels params st = (st, Raise e).
Proof.
  intros Hex. unfold fit.
  unfold mbind at 1, M_bind at 1, bind at 1, get_self at 1.
  unfold mbind at 1, M_bind at 1, bind at 1.
  destruct (py_or_Ok params (ModelConfig.params (config (self st))) st) as [p ->].
  rewrite Hex. done.
Qed.

(** X12: with fewer examples than labels [fit] raises an [IndexError], for
    every shuffle, before anything is fitted: the state is unchanged. *)
Theorem fit_too_few_examples
    (st : pystate) (indices : list nat) (examples : list example) (labels : list label)
    (params : option loc) :
  indices ≡ₚ seq 0 (length labels) →
  length examples < length labels →
  fit indices examples labels params st = (st, Raise IndexError).
Proof.
  intros Hperm Hlen. apply fit_shuffle_raises.
  pose proof (mapM_py_index_outcome examples indices) as Hout.
  destruct (mapM _ indices) as [examples'|e].
  - exfalso. assert (length examples ∈ indices) as Hin.
    { rewrite Hperm. apply elem_of_seq. lia. }
    apply list_elem_of_lookup in Hin as [k Hk].
    destruct (Forall2_lookup_l _ _ _ _ _ Hout Hk) as (x & _ & Hx).
    apply lookup_lt_Some in Hx. lia.
  - by destruct Hout as [-> _].
Qed.

Lemma mapM_py_index_take {A} (l : list A) (indices : list nat) n :
  Forall (λ i, i < n) indices →
  mapM (py_index (take n l)) indices = mapM (py_index l) indices.
Proof.
  induction 1 as [|i indices Hi _ IH]; [done|].
  rewrite !mapM_res_cons, IH. unfold py_index. by rewrite lookup_take_lt.
Qed.

(** X13: [fit] reads as many examples as there are labels: the examples
    beyond the number of labels are ignored, for every shuffle and in every
    outcome. *)
Theorem fit_ignores_surplus_examples
    (st : pystate) (indices : list nat) (examples : list example) (labels : list label)
    (params : option loc) :
  indices ≡ₚ seq 0 (length labels) →
  fit indices examples labels params st
  = fit indices (take (length labels) examples) labels params st.
Proof.
  intros Hperm. unfold fit.
  rewrite (mapM_py_index_take examples indices (length labels)); [done|].
  apply Forall_forall. intros i. rewrite Hperm, elem_of_seq. lia.
Qed.

Lemma py_or_cases a b st :
  ∃ p, py_or a b st = (st, Ok p) ∧ (p = a ∨ p = b).
Proof.
  unfold py_or. destruct a as [p|]; [|eexists; split; [done|by right]].
  unfold mbind, M_bind, bind, get_dict. simpl.
  case_decide; eexists; (split; [done|]); auto.
Qed.

(** What [fit] does when no selection settings are configured: it raises on
    the shuffle, returns early, or trains directly. *)
Lemma fit_cases indices examples labels params st :
  ModelConfig.param_selection (config (self st)) = None →
  ∃ params',
    py_or params (ModelConfig.params (config (self st))) st = (st, Ok params')
    ∧ ((∃ e, fit indices examples labels params st = (st, Raise e)
             ∧ (mapM (py_index examples) indices = Raise e
                ∨ mapM (py_index labels) indices = Raise e))
       ∨ (∃ examples' labels',
            mapM (py_index examples) indices = Ok examples'
            ∧ mapM (py_index labels) indices = Ok labels'
            ∧ if decide (size (list_to_set labels' : gset label) ≤ 1)
              then fit indices examples labels params st = (st, Ok tt)
              else fit indices examples labels params st
                   = fit_direct examples' labels' params' st)).
Proof.
  intros Hsel.
  destruct (py_or_Ok params (ModelConfig.params (config (self st))) st) as [params' Hor].
  exists params'. split; [done|].
  destruct (mapM (py_index examples) indices) as [examples'|e] eqn:Hex.
  2:{ left. exists e. split; [by apply fit_shuffle_raises|by left]. }
  destruct (mapM (py_index labels) indices) as [labels'|e] eqn:Hlab.
  2:{ left. exists e. split; [|by right]. unfold fit.
      unfold mbind at 1, M_bind at 1, bind at 1, get_self at 1.
      unfold mbind at 1, M_bind at 1, bind at 1. by rewrite Hor, Hex, Hlab. }
  right. exists examples', labels'. split; [done|]. split; [done|].
  case_decide as Hsize.
  - unfold fit.
    unfold mbind at 1, M_bind at 1, bind at 1, get_self at 1.
    unfold mbind at 1, M_bind at 1, bind at 1. rewrite Hor, Hex, Hlab.
    unfold mbind at 1, M_bind at 1, bind at 1, lift at 1.
    unfold mbind at 1, M_bind at 1, bind at 1, lift at 1.
    by rewrite decide_True.
  - rewrite (fit_eq _ _ _ _ _ _ _ _ Hor Hex Hlab) by lia.
    unfold fit_direct. rewrite Hsel.
    rewrite (bool_decide_eq_true_2 (None = None)), orb_true_r by done. done.
Qed.

Lemma _fit_frame X y params st st' r :
  _fit X y params st = (st', r) →
  self st' = self st
  ∧ match params with
    | Some p => ∀ q, q ≠ p → heap st' !!! q = heap st !!! q
    | None => st' = st
    end.
Proof.
  rewrite _fit_eq.
  destruct (_convert_params params y false st) as [st1 r1] eqn:E.
  apply _convert_params_frame in E as [Hself Hheap].
  assert (st' = st1 → self st' = self st
          ∧ match params with
            | Some p => ∀ q, q ≠ p → heap st' !!! q = heap st !!! q
            | None => st' = st
            end) as Hgoal.
  { intros ->. split; [done|]. destruct params; [by destruct Hheap|done]. }
  destruct r1 as [params'|e]; [|by intros [= <- _]; apply Hgoal].
  destruct (_get_model_constructor _); [|by intros [= <- _]; apply Hgoal].
  destruct params'; by intros [= <- _]; apply Hgoal.
Qed.

(** X14: when no selection settings are configured, [fit] never changes the
    configuration and never changes a parameter dict other than the one it was
    given and the one of the configuration; and when it raises, the classifier
    and the current parameters of the model are the ones it had before. *)
Theorem fit_direct_frame
    (st st' : pystate) (indices : list nat) (examples : list example)
    (labels : list label) (params : option loc) (r : res unit) :
  ModelConfig.param_selection (config (self st)) = None →
  fit indices examples labels params st = (st', r) →
  config (self st') = config (self st)
  ∧ (∀ q, params ≠ Some q → ModelConfig.params (config (self st)) ≠ Some q →
          heap st' !!! q = heap st !!! q)
  ∧ (∀ e, r = Raise e →
          _clf (self st') = _clf (self st)
          ∧ _current_params (self st') = _current_params (self st)).
Proof.
  intros Hsel Hfit.
  destruct (fit_cases indices examples labels params st Hsel) as (params' & Hor & Hcases).
  destruct (py_or_cases params (ModelConfig.params (config (self st))) st)
    as (p0 & Hor' & Hp0).
  rewrite Hor in Hor'. injection Hor' as <-.
  destruct Hcases as [(e & E & _)|(examples' & labels' & _ & _ & E)].
  { rewrite Hfit in E. by injection E as -> ->. }
  case_decide.
  { rewrite Hfit in E. by injection E as -> ->. }
  rewrite Hfit in E. unfold fit_direct in E.
  destruct (get_feature_matrix examples' _ true st) as [st1 r1] eqn:Hg.
  apply get_feature_matrix_frame in Hg as (Hh1 & Hc1 & Hclf1 & Hcur1).
  destruct r1 as [[[X y] groups]|e1]; [|by injection E as -> ->; rewrite Hh1].
  destruct (_fit X y params' st1) as [st2 r2] eqn:Hf.
  apply _fit_frame in Hf as [Hself2 Hheap2].
  assert (∀ q, params ≠ Some q → ModelConfig.params (config (self st)) ≠ Some q →
               heap st2 !!! q = heap st !!! q) as Hheap.
  { intros q Hq1 Hq2. rewrite <- Hh1. destruct params' as [p|]; [|by subst].
    apply Hheap2. intros ->. destruct Hp0; congruence. }
  destruct r2 as [clf|e2]; injection E as -> ->.
  - simpl. rewrite Hself2. done.
  - rewrite Hself2. split; [done|]. split; [done|]. done.
Qed.

(** X15: a model that is configured with neither parameters nor selection
    settings cannot be trained: [fit] called without parameters on labels
    with more than one distinct value always raises, a [TypeError] if the
    feature pipeline succeeds, and by then the pipeline has been fitted: the
    state the exception leaves is the state after the pipeline. *)
Theorem fit_without_parameters
    (st : pystate) (indices : list nat) (examples : list example) (labels : list label) :
  ModelConfig.params (config (self st)) = None →
  ModelConfig.param_selection (config (self st)) = None →
  indices ≡ₚ seq 0 (length labels) →
  length labels ≤ length examples →
  1 < size (list_to_set labels : gset label) →
  ∃ examples' labels',
    mapM (py_index examples) indices = Ok examples'
    ∧ mapM (py_index labels) indices = Ok labels'
    ∧ fit indices examples labels None st
      = match get_feature_matrix examples' (Some (encode_label <$> labels')) true st with
        | (st1, Ok _) => (st1, Raise TypeError)
        | (st1, Raise e) => (st1, Raise e)
        end.
Proof.
  intros Hpar Hsel Hperm Hlen Hsize.
  destruct (mapM_py_index examples indices) as (examples' & Hex & _).
  { by eapply shuffle_indices_valid. }
  destruct (mapM_py_index labels indices) as (labels' & Hlab & Hlabels).
  { by eapply shuffle_indices_valid. }
  exists examples', labels'. split; [done|]. split; [done|].
  assert ((list_to_set labels' : gset label) = list_to_set labels) as Hset.
  { apply set_eq. intros x. rewrite !elem_of_list_to_set. by eapply shuffled_elements. }
  assert (py_or None (ModelConfig.params (config (self st))) st = (st, Ok None)) as Hor.
  { by rewrite Hpar. }
  rewrite (fit_eq _ _ _ _ _ _ _ _ Hor Hex Hlab) by (by rewrite Hset).
  destruct (get_feature_matrix examples' _ true st) as [st1 [[[X y] groups]|e]]; [|done].
  rewrite Hsel, (bool_decide_eq_true_2 (None = None)), orb_true_r by done.
  by rewrite _fit_eq.
Qed.

(** When [fit] trains directly, the parameters it settled on are there or
    there are no selection settings. *)
Lemma trains_directly_skip params params' st :
  trains_directly params st →
  py_or params (ModelConfig.params (config (self st))) st = (st, Ok params') →
  bool_decide (params' ≠ None)
  || bool_decide (ModelConfig.param_selection (config (self st)) = None) = true.
Proof.
  intros [(p & -> & Hne)|[Hcfg|Hsel]] Hor.
  - rewrite (py_or_explicit p _ st Hne) in Hor. injection Hor as <-.
    by rewrite bool_decide_eq_true_2.
  - destruct (py_or_cases params (ModelConfig.params (config (self st))) st)
      as (p0 & Hor' & Hp0).
    rewrite Hor in Hor'. injection Hor' as <-.
    destruct Hp0 as [->| ->]; [|by rewrite bool_decide_eq_true_2].
    destruct params as [p|]; [by rewrite bool_decide_eq_true_2|].
    simpl in Hor. unfold ret in Hor. injection Hor as Hnone. by destruct Hcfg.
  - by rewrite (bool_decide_eq_true_2 _ Hsel), orb_true_r.
Qed.

(** X16: the classes do not depend on the shuffle: after a direct training
    that succeeded (with parameters given to [fit] or configured, also on a
    model that has selection settings, or without selection settings), the
    class encoder holds the sorted distinct encoded labels of the call,
    whatever the order in which the shuffle presented them, and the model has
    a classifier. *)
Theorem fit_classes_independent_of_shuffle
    (st st' : pystate) (indices : list nat) (examples : list example)
    (labels : list label) (params : option loc) :
  trains_directly params st →
  indices ≡ₚ seq 0 (length labels) →
  1 < size (list_to_set labels : gset label) →
  fit indices examples labels params st = (st', Ok tt) →
  _class_encoder (self st') = Some (SKLabelEncoder.np_unique (encode_label <$> labels))
  ∧ is_Some (_clf (self st')).
Proof.
  intros Hdirect Hperm Hsize Hfit.
  destruct (py_or_Ok params (ModelConfig.params (config (self st))) st) as [params' Hor].
  pose proof (trains_directly_skip _ _ _ Hdirect Hor) as Hskip.
  destruct (mapM (py_index examples) indices) as [examples'|e] eqn:Hex.
  2:{ by rewrite (fit_shuffle_raises _ _ _ _ _ _ Hex) in Hfit. }
  destruct (mapM (py_index labels) indices) as [labels'|e] eqn:Hlab.
  2:{ revert Hfit. unfold fit.
      unfold mbind at 1, M_bind at 1, bind at 1, get_self at 1.
      unfold mbind at 1, M_bind at 1, bind at 1. by rewrite Hor, Hex, Hlab. }
  pose proof (mapM_py_index_outcome labels indices) as Hlabels. rewrite Hlab in Hlabels.
  assert (∀ x, x ∈ labels' ↔ x ∈ labels) as Hel by (by eapply shuffled_elements).
  assert ((list_to_set labels' : gset label) = list_to_set labels) as Hset.
  { apply set_eq. intros x. by rewrite !elem_of_list_to_set. }
  rewrite (fit_eq _ _ _ _ _ _ _ _ Hor Hex Hlab) in Hfit by (by rewrite Hset).
  rewrite Hskip in Hfit.
  destruct (get_feature_matrix examples' _ true st) as [st1 [[[X y] groups]|e1]] eqn:Hg;
    [|done].
  apply get_feature_matrix_fit_encoder in Hg.
  destruct (_fit X y params' st1) as [st2 [clf|e2]] eqn:Hf; [|done].
  apply _fit_frame in Hf as [Hself _].
  injection Hfit as <-. simpl. rewrite Hself, Hg. split; [|by eexists].
  f_equal. apply np_unique_elements. intros x. rewrite !list_elem_of_fmap.
  split; intros (l & -> & Hl); exists l; (split; [done|]); by apply Hel.
Qed.

(** X17: training on the parameters of the configuration converts them in
    place: after a successful [fit] without explicit parameters of a model
    whose configuration has parameters (with or without selection settings),
    the current parameters of the model are the very dict of the
    configuration, that dict is left converted, and no other dict has
    changed. *)
Theorem fit_converts_configured_params
    (st st' : pystate) (indices : list nat) (examples : list example)
    (labels : list label) (q : loc) :
  ModelConfig.params (config (self st)) = Some q →
  indices ≡ₚ seq 0 (length labels) →
  1 < size (list_to_set labels : gset label) →
  fit indices examples labels None st = (st', Ok tt) →
  ModelConfig.params (config (self st')) = Some q
  ∧ _current_params (self st') = Some q
  ∧ converted (heap st !!! q) (heap st' !!! q)
  ∧ ∀ q', q' ≠ q → heap st' !!! q' = heap st !!! q'.
Proof.
  intros Hpar Hperm Hsize Hfit.
  destruct (mapM (py_index examples) indices) as [examples'|e] eqn:Hex.
  2:{ by rewrite (fit_shuffle_raises _ _ _ _ _ _ Hex) in Hfit. }
  destruct (mapM_py_index labels indices) as (labels' & Hlab & Hlabels).
  { by eapply shuffle_indices_valid. }
  assert ((list_to_set labels' : gset label) = list_to_set labels) as Hset.
  { apply set_eq. intros x. rewrite !elem_of_list_to_set. by eapply shuffled_elements. }
  assert (py_or None (ModelConfig.params (config (self st))) st = (st, Ok (Some q))) as Hor.
  { by rewrite Hpar. }
  rewrite (fit_eq _ _ _ _ _ _ _ _ Hor Hex Hlab) in Hfit by (by rewrite Hset).
  destruct (get_feature_matrix examples' _ true st) as [st1 [[[X y] groups]|e1]] eqn:Hg;
    [|done].
  apply get_feature_matrix_frame in Hg as (Hh1 & Hc1 & _ & _).
  rewrite (bool_decide_eq_true_2 (Some q ≠ None)) in Hfit by done. cbn [orb] in Hfit.
  rewrite _fit_eq in Hfit.
  destruct (_convert_params (Some q) y false st1) as [st2 [params2|e2]] eqn:Hconv; [|done].
  apply _convert_params_frame in Hconv as (Hself2 & Hother & Hconv).
  destruct (Hconv params2 eq_refl) as [-> Hconverted].
  destruct (_get_model_constructor (self st2)); [|done].
  destruct (clf_fit _ _ X y) as [clf|]; [|done].
  injection Hfit as <-. simpl. rewrite Hself2, Hc1, <- Hh1. done.
Qed.

(** X18: when there are no parameters and selection settings are
    configured, [fit] on labels with more than one distinct value is
    [select_params] on the shuffled data, without selection settings of its
    own, followed by recording the parameters that were found as the current
    parameters. *)
Theorem fit_search_is_select_params
    (st : pystate) (indices : list nat) (examples examples' : list example)
    (labels labels' : list label) :
  ModelConfig.params (config (self st)) = None →
  ModelConfig.param_selection (config (self st)) ≠ None →
  mapM (py_index examples) indices = Ok examples' →
  mapM (py_index labels) indices = Ok labels' →
  1 < size (list_to_set labels' : gset label) →
  fit indices examples labels None st
  = match select_params examples' labels' None st with
    | (st', Ok params) =>
        ({| heap := heap st'; self := set_current_params (Some params) (self st') |}, Ok tt)
    | (st', Raise e) => (st', Raise e)
    end.
Proof.
  intros Hpar Hsel Hex Hlab Hsize.
  assert (py_or None (ModelConfig.params (config (self st))) st = (st, Ok None)) as Hor.
  { by rewrite Hpar. }
  rewrite (fit_eq _ _ _ _ _ _ _ _ Hor Hex Hlab) by done.
  unfold select_params. unfold mbind at 1, M_bind at 1, bind at 1.
  destruct (get_feature_matrix examples' _ true st) as [st1 [[[X y] groups]|e]]; [|done].
  rewrite (bool_decide_eq_false_2 (None ≠ None)) by (by intros ?).
  rewrite (bool_decide_eq_false_2 (_ = None)) by done. cbn [orb].
  unfold mbind, M_bind, bind, set_self, ret.
  by destruct (_fit_cv X y groups None st1) as [st2 [best|]].
Qed.

End TrainingMore.

(** ** Evaluation *)

Section EvaluationMore.
Context `{Evaluation}.

Lemma evaluations_from cfg (labels : list label)
    (predictions : list (option label * gmap label float)) (examples : list example) :
  ∀ k,
    k ≤ length labels → k ≤ length predictions →
    mapM (λ ie : nat * example,
            let '(i, e) := ie in
            expected ← py_index labels i;
            prediction ← py_index predictions i;
            Ok {| evaluated := e;
                  expected := expected;
                  predicted := prediction.1;
                  probas := prediction.2;
                  evaluated_label_type := label_type cfg |})
         (imap (λ i e, (k + i, e)) examples)
    = if decide (k + length examples ≤ length labels
                 ∧ k + length examples ≤ length predictions)
      then Ok (evaluated_examples cfg examples (drop k labels) (drop k predictions))
      else Raise IndexError.
Proof.
  induction examples as [|e examples IH]; intros k Hk1 Hk2.
  - simpl. rewrite decide_True by lia. done.
  - cbn [imap]. rewrite mapM_res_cons. rewrite Nat.add_0_r. unfold py_index at 1 2.
    destruct (labels !! k) as [l|] eqn:Hl.
    2:{ apply lookup_ge_None in Hl. rewrite decide_False; [done|]. simpl. lia. }
    destruct (predictions !! k) as [p|] eqn:Hp.
    2:{ apply lookup_ge_None in Hp. rewrite decide_False; [done|]. simpl. lia. }
    cbn [mbind res_bind].
    rewrite (imap_ext _ (λ i e, (S k + i, e))) by (intros; simpl; f_equal; lia).
    pose proof (lookup_lt_Some _ _ _ Hl). pose proof (lookup_lt_Some _ _ _ Hp).
    rewrite IH by lia. simpl.
    destruct (decide (S (k + length examples) ≤ length labels
                      ∧ S (k + length examples) ≤ length predictions)) as [Hle|Hgt].
    + rewrite decide_True by lia.
      rewrite (drop_S _ _ _ Hl), (drop_S _ _ _ Hp). done.
    + rewrite decide_False by lia. done.
Qed.

(** X19: [evaluate], once the prediction and the effective configuration
    are there, returns one evaluation per example, in order, each with the
    expected label and the prediction at the example's position and with the
    label type of the effective configuration; expected labels beyond the
    number of examples are ignored.  With fewer expected labels, or fewer
    predictions, than examples it raises an [IndexError]. *)
Theorem evaluate_pairs_predictions
    (st st1 : pystate) (examples : list example) (labels : list label)
    (predictions : list (option label * gmap label float)) (cfg : effective_config) :
  predict_proba examples st = (st, Ok predictions) →
  _get_effective_config st = (st1, Ok cfg) →
  evaluate examples labels st
  = (st1,
     if decide (length examples ≤ length labels ∧ length examples ≤ length predictions)
     then Ok {| evaluation_config := cfg;
                evaluations := evaluated_examples cfg examples labels predictions |}
     else Raise IndexError).
Proof.
  intros Hpred Hcfg. unfold evaluate.
  unfold mbind at 1, M_bind at 1, bind at 1. rewrite Hpred.
  unfold mbind at 1, M_bind at 1, bind at 1. rewrite Hcfg.
  unfold mbind at 1, M_bind at 1, bind at 1, lift, ret.
  change (imap pair examples) with (imap (λ i (e : example), (0 + i, e)) examples).
  rewrite evaluations_from by lia. rewrite !drop_0. cbn [Nat.add].
  by case_decide.
Qed.

End EvaluationMore.

(** ** Pickling, continued *)

Section PicklingMore.
Context {pyobj : Type} (WORD_FREQ_RSC QUERY_FREQ_RSC : string) (empty_dict : pyobj).

(** X20: the state that [__getstate__] returns is a fixed point: for an
    instance whose attributes are that state, [__getstate__] returns the same
    state again. *)
Theorem getstate_idempotent (__dict__ state : gmap string (@attr pyobj)) :
  __getstate__ WORD_FREQ_RSC QUERY_FREQ_RSC empty_dict __dict__ = Ok state →
  __getstate__ WORD_FREQ_RSC QUERY_FREQ_RSC empty_dict state = Ok state.
Proof.
  unfold __getstate__.
  destruct (__dict__ !! "_resources") as [[_resources|]|]; [|done..].
  intros [= <-]. rewrite lookup_insert_eq. f_equal.
  rewrite insert_insert_eq. f_equal. f_equal.
  rewrite lookup_insert_eq. simpl.
  destruct (decide (QUERY_FREQ_RSC = WORD_FREQ_RSC)) as [->|Hne].
  - rewrite lookup_insert_eq. simpl. by rewrite insert_insert_eq.
  - rewrite lookup_insert_ne, lookup_insert_eq by done. done.
Qed.

End PicklingMore.

(** ** Blueprints *)

Section BlueprintProps.
Context `{Util.System}.
Import Util.

Ltac run_W :=
  cbv beta iota zeta delta [mbind W_bind then_ read returns raises log try_except].

Lemma setup_app_path name app_path w w' path :
  setup_app name app_path w = (w', Returns path) →
  name ∈ BLUEPRINTS
  ∧ path = os_path_abspath (str_or app_path (os_path_join (os_getcwd w) name)) w.
Proof.
  unfold setup_app. case_decide as Hname; [|done]. split; [done|].
  revert H0. run_W.
  destruct (_fetch_archive name "app" w) as [w1 [archive|]]; [|done].
  destruct (tarfile_open archive w1) as [w2 [tar|]]; [|done].
  destruct (tarball_extractall tar _ w2) as [w3 [[]|]]; [|done].
  by intros [= _ <-].
Qed.

(** X21: the blueprint is called by name.  With a name that is not a
    blueprint, the call raises the [ValueError] that names it and nothing has
    happened, and so do [setup_app] and [setup_kb]; and whenever the call
    returns, the name is a blueprint and the path returned is the absolute
    path of the given application path or, when that is [None] or empty, of
    the directory of the blueprint's name in the working directory. *)
Theorem blueprint_call_outcome
    (name : string) (app_path es_host : option string) (w w' : world)
    (r : result string) :
  __call__ name app_path es_host w = (w', r) →
  (name ∉ BLUEPRINTS →
   w' = w ∧ r = Raises (ValueError ("Unknown blueprint name: " +:+ py_repr name))
   ∧ setup_app name app_path w = (w, r)
   ∧ setup_kb name app_path es_host w
     = (w, Raises (ValueError ("Unknown blueprint name: " +:+ py_repr name))))
  ∧ (∀ path, r = Returns path →
       name ∈ BLUEPRINTS
       ∧ path = os_path_abspath (str_or app_path (os_path_join (os_getcwd w) name)) w).
Proof.
  intros Hcall. split.
  - intros Hname. unfold __call__ in Hcall. rewrite decide_False in Hcall by done.
    injection Hcall as <- <-. unfold setup_app, setup_kb.
    by rewrite !decide_False by done.
  - intros path ->. unfold __call__ in Hcall. case_decide as Hname; [|done].
    revert Hcall. run_W.
    destruct (setup_app name app_path w) as [w1 [path1|]] eqn:Happ; [|done].
    apply setup_app_path in Happ as [_ ->].
    destruct (setup_kb _ _ _ w1) as [w2 [[]|]]; [|done].
    by intros [= _ <-].
Qed.

Lemma setup_kb_fetch_raises name app_path es_host w w1 e :
  name ∈ BLUEPRINTS →
  _fetch_archive name "kb" w = (w1, Raises e) →
  setup_kb name app_path es_host w
  = match e with
    | ClientError code =>
        if decide (code = "404")
        then (logger "warning" "No knowledge base to set up." [] w1, Returns tt)
        else (w1, Raises e)
    | _ => (w1, Raises e)
    end.
Proof.
  intros Hname Hfetch. unfold setup_kb. rewrite decide_True by done.
  run_W. rewrite Hfetch.
  destruct e as [| | |code| | | |]; try done.
  by case_decide.
Qed.

(** X22: a blueprint without a knowledge base archive is set up without
    one: when fetching the archive fails with a client error whose code is
    404, [setup_kb] logs a warning and returns, having extracted and loaded
    nothing, and the call of the blueprint returns the application path; a
    client error with another code is raised again. *)
Theorem blueprint_without_knowledge_base
    (name : string) (app_path es_host : option string) (w w0 w1 : world)
    (path code : string) :
  setup_app name app_path w = (w0, Returns path) →
  _fetch_archive name "kb" w0 = (w1, Raises (ClientError code)) →
  setup_kb name (Some path) es_host w0
  = (if decide (code = "404")
     then (logger "warning" "No knowledge base to set up." [] w1, Returns tt)
     else (w1, Raises (ClientError code)))
  ∧ __call__ name app_path es_host w
    = (if decide (code = "404")
       then (logger "warning" "No knowledge base to set up." [] w1, Returns path)
       else (w1, Raises (ClientError code))).
Proof.
  intros Happ Hfetch. destruct (setup_app_path _ _ _ _ _ Happ) as [Hname _].
  pose proof (setup_kb_fetch_raises name (Some path) es_host w0 w1 _ Hname Hfetch) as Hkb.
  split; [done|].
  unfold __call__. rewrite decide_True by done. run_W. rewrite Happ, Hkb.
  by case_decide.
Qed.

(** X23: the cache of [_fetch_archive]: for the application and the
    knowledge base archive, whether or not the cache directory existed, the
    archive [workbench-data/blueprints/<name>/<file>] of the bucket is
    downloaded to the file of that name in the cache directory unless the
    cached file is strictly newer than the archive was last modified; a
    cached file that is missing counts as modified at the minimum time.  The
    path of the cached file is returned in both cases. *)
Theorem fetch_archive_cache_policy
    (name archive_type filename : string) (w w1 w2 w3 w4 : world)
    (made : result unit) (service : s3_service) (remote : datetime)
    (mtime : result datetime) :
  let cache_dir := get_cached_blueprint_path name in
  let local_archive := os_path_join cache_dir filename in
  let object_key := BLUEPRINT_S3_KEY_BASE +:+ "/" +:+ name +:+ "/" +:+ filename in
  let local_modified := match mtime with Returns t => t | Raises _ => MINYEAR_utc end in
  (archive_type, filename) ∈ [("app", BLUEPRINT_APP_ARCHIVE); ("kb", BLUEPRINT_KB_ARCHIVE)] →
  os_makedirs cache_dir w = (w1, made) →
  made = Returns tt ∨ made = Raises OSError →
  boto3_resource_s3 w1 = (w2, Returns service) →
  s3_last_modified service BLUEPRINT_S3_BUCKET object_key w2 = (w3, Returns remote) →
  os_path_getmtime local_archive w3 = (w4, mtime) →
  (∀ e, mtime = Raises e → e = OSError) →
  _fetch_archive name archive_type w
  = if datetime_lt remote local_modified
    then (logger "info" "Using cached %r %s archive" [name; archive_type] w4,
          Returns local_archive)
    else
      match s3_download_file service BLUEPRINT_S3_BUCKET object_key local_archive
              (logger "info" "Fetching %s archive from %r" [archive_type; object_key] w4)
      with
      | (w5, Returns _) => (w5, Returns local_archive)
      | (w5, Raises e) => (w5, Raises e)
      end.
Proof.
  intros cache_dir local_archive object_key local_modified Hty Hmk Hmade Hs3 Hremote
    Hmtime Honly.
  unfold local_modified, object_key, local_archive, cache_dir in *.
  clear cache_dir local_archive object_key local_modified.
  unfold _fetch_archive.
  assert (({[ "app" := BLUEPRINT_APP_ARCHIVE; "kb" := BLUEPRINT_KB_ARCHIVE ]}
            : gmap string string) !! archive_type = Some filename) as ->.
  { apply elem_of_cons in Hty as [[= -> ->]|Hty]; [done|].
    apply list_elem_of_singleton in Hty as [= -> ->]. done. }
  run_W. rewrite Hmk.
  assert (made = Returns tt ∨ made = Raises OSError) as [-> | ->] by done.
  all: rewrite Hs3, Hremote, Hmtime.
  all: destruct mtime as [t|e]; [|rewrite (Honly e eq_refl)].
  all: destruct (datetime_lt remote _); [done|].
  all: by destruct (s3_download_file _ _ _ _ _) as [w5 [[]|]].
Qed.

(** X24: the index files of a knowledge base are loaded in order, and the
    first failure ends the loop: loading a list of files is loading a first
    part and then, if that raised nothing, the rest, from the world the first
    part left. *)
Theorem load_indexes_in_order
    (app_name kb_dir es_host : string) (first rest : list string) (w : world) :
  load_indexes app_name kb_dir es_host (first ++ rest) w
  = match load_indexes app_name kb_dir es_host first w with
    | (w', Returns _) => load_indexes app_name kb_dir es_host rest w'
    | (w', Raises e) => (w', Raises e)
    end.
Proof.
  revert w. induction first as [|index first IH]; intros w; [done|].
  cbn [app load_indexes].
  cbv beta iota zeta delta [mbind W_bind then_].
  destruct (try_except _ _ w) as [w1 [[]|e]]; [|done].
  apply IH.
Qed.

End BlueprintProps.

(** ** The query factory *)

Section QueryFactoryProps.
Context `{QueryFactory.Components}.
Import QueryFactory.

(** X25: the query that [create_query] returns has the given text as its
    raw text, the tokens the tokenizer made of its processed text, and system
    entity candidates.  Without a preprocessor the processed text is the raw
    text and the character maps are the two between the processed and the
    normalized text; with a preprocessor the processed text is what it made
    of the raw text and the maps between the raw and the processed text come
    first.  (The three text forms are distinct constants.) *)
Theorem create_query_char_maps
    (self : QueryFactory.t) (text : string) (query : Query text_form char_map candidates) :
  TEXT_FORM_RAW ≠ TEXT_FORM_PROCESSED →
  TEXT_FORM_RAW ≠ TEXT_FORM_NORMALIZED →
  TEXT_FORM_PROCESSED ≠ TEXT_FORM_NORMALIZED →
  create_query self text = Ok query →
  raw_text query = text
  ∧ tokenize (tokenizer self) (processed_text query) false = Ok (normalized_tokens query)
  ∧ is_Some (system_entity_candidates query)
  ∧ match preprocessor self with
    | None =>
        processed_text query = text
        ∧ (char_maps query).*1
          = [(TEXT_FORM_PROCESSED, TEXT_FORM_NORMALIZED);
             (TEXT_FORM_NORMALIZED, TEXT_FORM_PROCESSED)]
    | Some p =>
        process p text = Ok (processed_text query)
        ∧ (char_maps query).*1
          = [(TEXT_FORM_RAW, TEXT_FORM_PROCESSED);
             (TEXT_FORM_PROCESSED, TEXT_FORM_RAW);
             (TEXT_FORM_PROCESSED, TEXT_FORM_NORMALIZED);
             (TEXT_FORM_NORMALIZED, TEXT_FORM_PROCESSED)]
    end.
Proof.
  intros Hrp Hrn Hpn. unfold create_query.
  destruct (preprocessor self) as [p|].
  - destruct (process p text) as [processed|] eqn:Hprocess; [|done].
    cbn [mbind res_bind].
    destruct (preprocessor_get_char_index_map p text processed) as [[f b]|]; [|done].
    cbn [mbind res_bind].
    destruct (tokenize _ processed false) as [tokens|] eqn:Htok; [|done].
    cbn [mbind res_bind].
    destruct (join_entities tokens) as [normalized|]; [|done]. cbn [mbind res_bind].
    destruct (tokenizer_get_char_index_map _ _ _) as [[f' b']|]; [|done].
    cbn [mbind res_bind].
    destruct (get_candidates _) as [found|]; [|done]. cbn [mbind res_bind].
    intros [= <-]. cbn [raw_text processed_text normalized_tokens char_maps
                        system_entity_candidates].
    split; [done|]. split; [done|]. split; [by eexists|]. split; [done|].
    repeat (cbn [dict_setitem]; rewrite decide_False by congruence). done.
  - cbn [mbind res_bind].
    destruct (tokenize _ text false) as [tokens|] eqn:Htok; [|done].
    cbn [mbind res_bind].
    destruct (join_entities tokens) as [normalized|]; [|done]. cbn [mbind res_bind].
    destruct (tokenizer_get_char_index_map _ _ _) as [[f' b']|]; [|done].
    cbn [mbind res_bind].
    destruct (get_candidates _) as [found|]; [|done]. cbn [mbind res_bind].
    intros [= <-]. cbn [raw_text processed_text normalized_tokens char_maps
                        system_entity_candidates].
    split; [done|]. split; [done|]. split; [by eexists|]. split; [done|].
    repeat (cbn [dict_setitem]; rewrite decide_False by congruence). done.
Qed.

End QueryFactoryProps.

(** ** The statements on the small instance *)

Import Instance.

Ltac solve_NoDup :=
  repeat (apply NoDup_cons_2; [rewrite ?elem_of_cons, elem_of_nil; intuition discriminate|]);
  apply NoDup_nil_2.

Lemma convert_params_class_bias_witness :
  ∃ v',
    weights_shape false (bias_class_weight ["a"; "a"; "a"; "b"] ["a"; "b"] <$> [0.5%float]) v'
    ∧ _convert_params (Some bias_params) (YIds [0; 0; 0; 1]) false
        {| heap := dicts; self := preprocessed "logreg" |}
      = ({| heap := <[bias_params := delete "class_bias"
                                       (<["class_weight" := v']> (dicts !!! bias_params))]>
                      dicts;
            self := preprocessed "logreg" |},
         Ok (Some bias_params))
    ∧ ∀ i c, ["a"; "b"] !! i = Some c →
        (∀ bias, dict_get (KInt (Z.of_nat i))
                   (bias_class_weight ["a"; "a"; "a"; "b"] ["a"; "b"] bias)
                 = Some (interpolate bias (balanced_weight ["a"; "a"; "a"; "b"] ["a"; "b"] c)))
        ∧ 1 ≤ class_count ["a"; "a"; "a"; "b"] c
        ∧ interpolate 0 (balanced_weight ["a"; "a"; "a"; "b"] ["a"; "b"] c) = 1%float
        ∧ interpolate 1 (balanced_weight ["a"; "a"; "a"; "b"] ["a"; "b"] c)
          = balanced_weight ["a"; "a"; "a"; "b"] ["a"; "b"] c.
Proof.
  apply (convert_params_class_bias (H := collaborators)
           {| heap := dicts; self := preprocessed "logreg" |} bias_params false
           ["a"; "a"; "a"; "b"] ["a"; "b"] [0; 0; 0; 1] (PFloat 0.5) [0.5%float]).
  - reflexivity.
  - reflexivity.
  - reflexivity.
  - reflexivity.
  - reflexivity.
  - exists 0.5%float. split; reflexivity.
Defined.

Lemma predict_log_proba_no_neg_infinity_witness :
  ∃ preds',
    predict_log_proba (H := collaborators) ["x"] (state_of two_classes)
      = (state_of two_classes, Ok preds')
    ∧ Forall2 (λ pred pred' : option string * gmap string float,
                 pred'.1 = pred.1
                 ∧ ∀ l,
                     (∀ v, pred'.2 !! l = Some v → v ≠ neg_infinity)
                     ∧ (pred.2 !! l = Some neg_infinity → pred'.2 !! l = Some _NEG_INF)
                     ∧ (∀ v, pred.2 !! l = Some v → v ≠ neg_infinity →
                             pred'.2 !! l = Some v)
                     ∧ (pred.2 !! l = None → pred'.2 !! l = None))
              [(Some "a", {[ "a" := 0%float; "b" := neg_infinity ]})] preds'.
Proof.
  apply (predict_log_proba_no_neg_infinity (H := collaborators) (state_of two_classes)
           ["x"] ["x"] YNone [0] ([1; 0], [0; neg_infinity])%float).
  - reflexivity.
  - reflexivity.
  - vm_compute. reflexivity.
Defined.

Lemma fit_single_label_noop_witness :
  fit (H0 := search) [1; 0] ["x"; "y"] ["a"; "a"] (Some bias_params) (unfit "logreg")
  = (unfit "logreg", Ok tt).
Proof.
  apply (fit_single_label_noop (H0 := search)).
  - apply perm_swap.
  - simpl. lia.
  - vm_compute. lia.
Defined.

Lemma fit_unrecognized_kind_witness :
  fit (H0 := search) [1; 0] ["x"; "y"] ["a"; "b"] (Some plain_params) (unfit "bogus")
  = ({| heap := dicts; self := preprocessed "bogus" |},
     Raise (ValueError "TextModel: Classifier type 'bogus' not recognized")).
Proof.
  apply (fit_unrecognized_kind (H0 := search) (unfit "bogus")
           {| heap := dicts; self := preprocessed "bogus" |}
           {| heap := dicts; self := preprocessed "bogus" |}
           [1; 0] ["x"; "y"] ["y"; "x"] ["a"; "b"] ["b"; "a"]
           (Some plain_params) (Some plain_params) (Some plain_params)
           {[ "classifier_type" := "bogus" ]} "bogus" ["y"; "x"] (YIds [1; 0]) [0; 1]).
  - reflexivity.
  - reflexivity.
  - unfold BASE_MODEL_TYPES. rewrite !not_elem_of_cons.
    repeat split; try discriminate. apply not_elem_of_nil.
  - vm_compute. reflexivity.
  - left. discriminate.
  - reflexivity.
  - reflexivity.
  - vm_compute. lia.
  - vm_compute. reflexivity.
  - vm_compute. reflexivity.
Defined.

Lemma preprocess_data_stage_order_witness :
  _preprocess_data (H := collaborators) ["x"; "y"] (Some ["b"; "a"]) true with_scaler
    = (with_scaler_fitted, Ok (["x"; "y"], YIds [1; 0]))
  ∧ _preprocess_data (H := collaborators) ["x"; "y"] None false with_scaler_fitted
    = (with_scaler_fitted, Ok (["x"; "y"], YNone)).
Proof.
  split.
  - exact (proj1 (preprocess_data_stage_order (H := collaborators) with_scaler ["x"; "y"])
             ["b"; "a"] (Some ["a"; "b"]) [1; 0] true (Some true) None
             ["x"; "y"] ["x"; "y"] ["x"; "y"] eq_refl eq_refl eq_refl eq_refl).
  - exact (proj2 (preprocess_data_stage_order (H := collaborators) with_scaler_fitted
                    ["x"; "y"])
             None ["x"; "y"] ["x"; "y"] ["x"; "y"] eq_refl eq_refl eq_refl).
Defined.


Lemma getstate_prunes_resources_witness :
  ∃ state kept,
    __getstate__ "w_freq" "q_freq" "{}" attributes = Ok state
    ∧ state !! "_resources" = Some (ADict kept)
    ∧ (∀ name, name ≠ "_resources" → state !! name = attributes !! name)
    ∧ kept !! "w_freq" = Some "word counts"
    ∧ kept !! "q_freq" = Some "{}"
    ∧ (∀ name, name ≠ "w_freq" → name ≠ "q_freq" → kept !! name = None).
Proof.
  exact (getstate_prunes_resources "w_freq" "q_freq" "{}" attributes
           {[ "w_freq" := "word counts"; "gazetteers" := "entities";
              "sys_types" := "types" ]} eq_refl).
Defined.


Lemma predict_log_proba_top_none_witness :
  ∃ preds preds',
    _predict_proba (H := collaborators) ["x"] (clf_predict_log_proba uniform)
      (state_of four_classes)
      = (state_of four_classes, Ok preds)
    ∧ Forall (λ pred, pred.1 = None) preds
    ∧ predict_log_proba (H := collaborators) ["x"] (state_of four_classes)
      = (state_of four_classes, Ok preds')
    ∧ length preds' = 1
    ∧ Forall (λ pred, pred.1 = None) preds'.
Proof.
  apply (predict_log_proba_top_none (H := collaborators) (state_of four_classes)
           ["a"; "b"; "c"; "d"] ["x"] ["x"] YNone [0] uniform
           [[-0x1.62e42fefa39efp+0; -0x1.62e42fefa39efp+0;
             -0x1.62e42fefa39efp+0; -0x1.62e42fefa39efp+0]]%float).
  - reflexivity.
  - reflexivity.
  - reflexivity.
  - reflexivity.
  - repeat constructor; simpl; try lia; try discriminate.
Defined.

Lemma predict_proba_top_is_first_max_witness :
  ∃ preds,
    _predict_proba (H := collaborators) ["x"; "y"] (clf_predict_proba uniform)
      (state_of four_classes)
      = (state_of four_classes, Ok preds)
    ∧ predict_proba (H := collaborators) ["x"; "y"] (state_of four_classes)
      = (state_of four_classes, Ok preds)
    ∧ Forall2 (top_is_first_max (H := collaborators) ["a"; "b"; "c"; "d"])
        [[0.25; 0.25; 0.25; 0.25]; [0.25; 0.25; 0.25; 0.25]]%float preds.
Proof.
  apply (predict_proba_top_is_first_max (H := collaborators) (state_of four_classes)
           ["a"; "b"; "c"; "d"] ["x"; "y"] ["x"; "y"] YNone [0; 1] uniform
           [[0.25; 0.25; 0.25; 0.25]; [0.25; 0.25; 0.25; 0.25]]%float).
  - reflexivity.
  - cbn. solve_NoDup.
  - reflexivity.
  - reflexivity.
  - reflexivity.
  - repeat constructor; simpl; try lia; try discriminate.
Defined.


(** C5 as the specification states it fails: with the classifier type [bogus],
    [fit] raises only after the class encoder and the vectorizer were fitted
    on the shuffled data, and with a single distinct label it raises
    nothing. *)
Lemma fit_unrecognized_kind_after_fitting :
  fit (H0 := search) [1; 0] ["x"; "y"] ["a"; "b"] (Some plain_params) (unfit "bogus")
    = ({| heap := dicts; self := preprocessed "bogus" |},
       Raise (ValueError "TextModel: Classifier type 'bogus' not recognized"))
  ∧ _class_encoder (self (unfit "bogus")) = None
  ∧ _class_encoder (preprocessed "bogus") = Some ["a"; "b"]
  ∧ fit (H0 := search) [1; 0] ["x"; "y"] ["a"; "a"] (Some plain_params) (unfit "bogus")
    = (unfit "bogus", Ok tt).
Proof. vm_compute. auto. Qed.

(** The scenario of two classes with counts 3 and 1 and bias 0.5: balanced
    weights 4/(2*3) and 4/(2*1), resolved weights 0.8333333333333333 and
    1.5. *)
Example class_bias_scenario :
  balanced_weight ["a"; "a"; "a"; "b"] ["a"; "b"] "a" = 0x1.5555555555555p-1%float
  ∧ balanced_weight ["a"; "a"; "a"; "b"] ["a"; "b"] "b" = 2%float
  ∧ bias_class_weight ["a"; "a"; "a"; "b"] ["a"; "b"] 0.5
    = [(KInt 0, 0x1.aaaaaaaaaaaaap-1%float); (KInt 1, 1.5%float)]
  ∧ (_convert_params (H := collaborators) (Some bias_params) (YIds [0; 0; 0; 1]) false
       {| heap := dicts; self := preprocessed "logreg" |}).1
    = {| heap := <[bias_params :=
                     {[ "C" := POther "10";
                        "class_weight" := PWeights [(KInt 0, 0x1.aaaaaaaaaaaaap-1%float);
                                                    (KInt 1, 1.5%float)] ]}]> dicts;
         self := preprocessed "logreg" |}.
Proof. vm_compute. auto. Qed.

(** A raw label key becomes its class id, a numpy integer, and an int key
    stays; the weights stay. *)
Example class_weight_scenario :
  (_convert_params (H := collaborators) (Some weight_params) YNone false
     {| heap := dicts; self := preprocessed "logreg" |}).1
  = {| heap := <[weight_params :=
                   {[ "class_weight" := PWeights [(KNumpy 1, 2%float); (KInt 0, 1%float)] ]}]>
                 dicts;
       self := preprocessed "logreg" |}.
Proof. vm_compute. reflexivity. Qed.

(** Four equally likely classes: the first wins the tie, and on the
    log-probabilities, all below [-1.0], no class wins. *)
Example tie_scenario :
  (predict_proba (H := collaborators) ["x"] (state_of four_classes)).2
    = Ok [(Some "a", {[ "a" := 0.25; "b" := 0.25; "c" := 0.25; "d" := 0.25 ]}%float)]
  ∧ (predict_log_proba (H := collaborators) ["x"] (state_of four_classes)).2
    = Ok [(None, {[ "a" := -0x1.62e42fefa39efp+0; "b" := -0x1.62e42fefa39efp+0;
                    "c" := -0x1.62e42fefa39efp+0; "d" := -0x1.62e42fefa39efp+0 ]}%float)].
Proof. vm_compute. auto. Qed.

(** A class the classifier excludes is reported with the sentinel. *)
Example sentinel_scenario :
  (predict_log_proba (H := collaborators) ["x"] (state_of two_classes)).2
  = Ok [(Some "a", {[ "a" := 0; "b" := -1e10 ]}%float)].
Proof. vm_compute. reflexivity. Qed.

(** The grid shape, with the candidates 0, 0.5 and 1: uniform weights at 0, the
    balanced weights at 1. *)
Example class_bias_grid_scenario :
  (_convert_params (H := collaborators) (Some bias_grid) (YIds [0; 0; 0; 1]) true
     {| heap := dicts; self := preprocessed "logreg" |}).1
  = {| heap := <[bias_grid :=
                   {[ "class_weight" :=
                        PWeightsGrid
                          [[(KInt 0, 1%float); (KInt 1, 1%float)];
                           [(KInt 0, 0x1.aaaaaaaaaaaaap-1%float); (KInt 1, 1.5%float)];
                           [(KInt 0, 0x1.5555555555555p-1%float); (KInt 1, 2%float)]] ]}]>
                 dicts;
       self := preprocessed "logreg" |}.
Proof. vm_compute. reflexivity. Qed.

(** ** The further properties on the small instances *)

Import Scenarios.

Lemma prediction_without_classifier_witness :
  predict (H := collaborators) ["x"] {| heap := dicts; self := preprocessed "logreg" |}
    = ({| heap := dicts; self := preprocessed "logreg" |}, Raise TypeError)
  ∧ predict_proba (H := collaborators) ["x"] {| heap := dicts; self := preprocessed "logreg" |}
    = ({| heap := dicts; self := preprocessed "logreg" |}, Raise TypeError)
  ∧ predict_log_proba (H := collaborators) ["x"]
      {| heap := dicts; self := preprocessed "logreg" |}
    = ({| heap := dicts; self := preprocessed "logreg" |}, Raise TypeError).
Proof.
  apply (prediction_without_classifier (H := collaborators) ["x"]
           {| heap := dicts; self := preprocessed "logreg" |}).
  reflexivity.
Defined.

Lemma decode_row_top_label_witness :
  (Some "b" = None ↔ Forall (λ v, PrimFloat.ltb minus_one v = false) [0.25; 0.75]%float)
  ∧ ∀ l, Some "b" = Some l →
         is_Some (({[ "a" := 0.25; "b" := 0.75 ]}%float : gmap string float) !! l)
         ∧ ∃ j c, j < 2 ∧ ["a"; "b"] !! j = Some c ∧ l = c.
Proof.
  assert (decode_row (H := collaborators) (Some ["a"; "b"]) [0.25; 0.75]%float
          = Ok (Some "b", {[ "a" := 0.25; "b" := 0.75 ]}%float)) as E
    by (vm_compute; reflexivity).
  exact (decode_row_top_label (H := collaborators) ["a"; "b"] [0.25; 0.75]%float
           (Some "b", {[ "a" := 0.25; "b" := 0.75 ]}%float) E).
Defined.

Lemma predict_decodes_class_ids_witness :
  match (predict (H := collaborators) ["x"; "y"] (state_of two_classes)).2 with
  | Ok labels => Forall2 (λ i l, ∃ c, ["a"; "b"] !! i = Some c ∧ l = c) [0; 0] labels
  | Raise e => e = SKLabelEncoder.unseen ∧ ∃ i, i ∈ [0; 0] ∧ 2 ≤ i
  end.
Proof.
  apply (predict_decodes_class_ids (H := collaborators) (state_of two_classes)
           ["a"; "b"] ["x"; "y"] ["x"; "y"] YNone [0; 1] ([1; 0], [0; neg_infinity])%float
           [0; 0]).
  - reflexivity.
  - reflexivity.
  - reflexivity.
  - reflexivity.
Defined.

Lemma init_skips_unrecognized_stages_witness :
  ∃ ids,
    _preprocess_data (H := collaborators) ["x"; "y"] (Some ["b"; "a"]) true
      {| heap := dicts; self := __init__ (settings "logreg") |}
    = ({| heap := dicts; self := preprocessed "logreg" |}, Ok (["x"; "y"], YIds ids))
    ∧ Forall2 (λ l i, ["a"; "b"] !! i = Some l) ["b"; "a"] ids.
Proof.
  refine (init_skips_unrecognized_stages (H := collaborators) (settings "logreg") dicts
            ["x"; "y"] ["b"; "a"] _ _ _ _).
  - intros s [= <-]. vm_compute. repeat split; discriminate.
  - reflexivity.
Defined.

Lemma convert_params_touches_class_weight_only_witness :
  (∀ e, Ok (Some weight_params) = Raise e →
        {| heap := <[weight_params :=
                       {[ "class_weight" := PWeights [(KNumpy 1, 2%float); (KInt 0, 1%float)] ]}]>
                     dicts;
           self := preprocessed "logreg" |}
        = {| heap := dicts; self := preprocessed "logreg" |})
  ∧ (∀ key, key ≠ "class_weight" → key ≠ "class_bias" →
        (<[weight_params :=
             {[ "class_weight" := PWeights [(KNumpy 1, 2%float); (KInt 0, 1%float)] ]}]>
           dicts !!! weight_params) !! key
        = (dicts !!! weight_params) !! key)
  ∧ (is_Some ((dicts !!! weight_params) !! "class_weight") →
     (<[weight_params :=
          {[ "class_weight" := PWeights [(KNumpy 1, 2%float); (KInt 0, 1%float)] ]}]>
        dicts !!! weight_params) !! "class_bias"
     = (dicts !!! weight_params) !! "class_bias").
Proof.
  assert (_convert_params (H := collaborators) (Some weight_params) YNone false
            {| heap := dicts; self := preprocessed "logreg" |}
          = ({| heap := <[weight_params :=
                            {[ "class_weight" :=
                                 PWeights [(KNumpy 1, 2%float); (KInt 0, 1%float)] ]}]> dicts;
                self := preprocessed "logreg" |},
             Ok (Some weight_params))) as E by (vm_compute; reflexivity).
  exact (convert_params_touches_class_weight_only (H := collaborators) _ _ _ _ _ _ E).
Defined.

Lemma convert_params_unseen_label_witness :
  _convert_params (H := collaborators) (Some weight_params) YNone false
    {| heap := dicts; self := set_class_encoder (Some ["a"]) (preprocessed "logreg") |}
  = ({| heap := dicts; self := set_class_encoder (Some ["a"]) (preprocessed "logreg") |},
     Raise SKLabelEncoder.unseen).
Proof.
  apply (convert_params_unseen_label (H := collaborators)
           {| heap := dicts; self := set_class_encoder (Some ["a"]) (preprocessed "logreg") |}
           weight_params YNone false ["a"]
           (PWeights [(KLabel "b", 2%float); (KInt 0, 1%float)])
           [[(KLabel "b", 2%float); (KInt 0, 1%float)]]
           [(KLabel "b", 2%float); (KInt 0, 1%float)] "b" 2%float).
  - reflexivity.
  - reflexivity.
  - eexists. split; reflexivity.
  - by left.
  - by left.
  - intros [[=]|[]%elem_of_nil]%elem_of_cons.
Defined.

Lemma convert_params_idempotent_witness :
  _convert_params (H := collaborators) (Some bias_params) YNone false
    {| heap := <[bias_params :=
                   {[ "C" := POther "10";
                      "class_weight" := PWeights [(KInt 0, 0x1.aaaaaaaaaaaaap-1%float);
                                                  (KInt 1, 1.5%float)] ]}]> dicts;
       self := preprocessed "logreg" |}
  = ({| heap := <[bias_params :=
                    {[ "C" := POther "10";
                       "class_weight" := PWeights [(KInt 0, 0x1.aaaaaaaaaaaaap-1%float);
                                                   (KInt 1, 1.5%float)] ]}]> dicts;
        self := preprocessed "logreg" |},
     Ok (Some bias_params)).
Proof.
  apply (convert_params_idempotent (H := collaborators)
           {| heap := dicts; self := preprocessed "logreg" |} _ bias_params
           (YIds [0; 0; 0; 1]) YNone false (Some bias_params)).
  - intros v Hv. vm_compute in Hv. discriminate.
  - vm_compute. reflexivity.
Defined.

Lemma fit_empty_params_as_none_witness :
  fit (H0 := search) [1; 0] ["x"; "y"] ["a"; "b"] (Some 9%positive) (unfit "logreg")
  = fit (H0 := search) [1; 0] ["x"; "y"] ["a"; "b"] None (unfit "logreg").
Proof.
  apply (fit_empty_params_as_none (H0 := search) (unfit "logreg")).
  vm_compute. reflexivity.
Defined.

Lemma fit_too_few_examples_witness :
  fit (H0 := search) [1; 0] ["x"] ["a"; "b"] (Some plain_params) (unfit "logreg")
  = (unfit "logreg", Raise IndexError).
Proof.
  apply (fit_too_few_examples (H0 := search)).
  - apply perm_swap.
  - simpl. lia.
Defined.

Lemma fit_ignores_surplus_examples_witness :
  fit (H0 := search) [1; 0] ["x"; "y"; "z"] ["a"; "b"] (Some plain_params) (unfit "logreg")
  = fit (H0 := search) [1; 0] (take 2 ["x"; "y"; "z"]) ["a"; "b"] (Some plain_params)
      (unfit "logreg").
Proof.
  apply (fit_ignores_surplus_examples (H0 := search) (unfit "logreg") [1; 0]
           ["x"; "y"; "z"] ["a"; "b"]).
  apply perm_swap.
Defined.

Lemma fit_direct_frame_witness :
  config (preprocessed "bogus") = config (self (unfit "bogus"))
  ∧ (∀ q, Some plain_params ≠ Some q →
          ModelConfig.params (config (self (unfit "bogus"))) ≠ Some q →
          dicts !!! q = heap (unfit "bogus") !!! q)
  ∧ (∀ e, (Raise (ValueError "TextModel: Classifier type 'bogus' not recognized") : res unit)
          = Raise e →
          _clf (preprocessed "bogus") = _clf (self (unfit "bogus"))
          ∧ _current_params (preprocessed "bogus") = _current_params (self (unfit "bogus"))).
Proof.
  assert (fit (H0 := search) [1; 0] ["x"; "y"] ["a"; "b"] (Some plain_params) (unfit "bogus")
          = ({| heap := dicts; self := preprocessed "bogus" |},
             Raise (ValueError "TextModel: Classifier type 'bogus' not recognized"))) as E
    by (vm_compute; reflexivity).
  exact (fit_direct_frame (H0 := search) (unfit "bogus") _ _ _ _ _ _ eq_refl E).
Defined.

Lemma fit_without_parameters_witness :
  ∃ examples' labels' : list string,
    mapM (M := res) (py_index ["x"; "y"]) [1; 0] = Ok examples'
    ∧ mapM (M := res) (py_index ["a"; "b"]) [1; 0] = Ok labels'
    ∧ fit (H0 := search) [1; 0] ["x"; "y"] ["a"; "b"] None (unfit "logreg")
      = match get_feature_matrix (H := collaborators) examples'
                (Some (encode_label (Collaborators := collaborators) <$> labels')) true
                (unfit "logreg") with
        | (st1, Ok _) => (st1, Raise TypeError)
        | (st1, Raise e) => (st1, Raise e)
        end.
Proof.
  apply (fit_without_parameters (H0 := search) (unfit "logreg") [1; 0] ["x"; "y"]
           ["a"; "b"]).
  - reflexivity.
  - reflexivity.
  - apply perm_swap.
  - simpl. lia.
  - vm_compute. lia.
Defined.

Lemma fit_classes_independent_of_shuffle_witness :
  _class_encoder
    (self (fit (H0 := search) [1; 0] ["x"; "y"] ["a"; "b"] (Some plain_params)
             (configured None (Some bias_grid))).1)
  = Some (SKLabelEncoder.np_unique ["a"; "b"])
  ∧ is_Some
      (_clf
         (self (fit (H0 := search) [1; 0] ["x"; "y"] ["a"; "b"] (Some plain_params)
                  (configured None (Some bias_grid))).1)).
Proof.
  assert (fit (H0 := search) [1; 0] ["x"; "y"] ["a"; "b"] (Some plain_params)
            (configured None (Some bias_grid))
          = ((fit (H0 := search) [1; 0] ["x"; "y"] ["a"; "b"] (Some plain_params)
                (configured None (Some bias_grid))).1, Ok tt))
    as E by (vm_compute; reflexivity).
  assert (1 < size (list_to_set ["a"; "b"] : gset string)) as Hsize by (vm_compute; lia).
  assert (trains_directly (H := collaborators) (Some plain_params)
            (configured None (Some bias_grid))) as Hdirect.
  { left. exists plain_params. split; [reflexivity|]. vm_compute. discriminate. }
  exact (fit_classes_independent_of_shuffle (H0 := search)
           (configured None (Some bias_grid)) _ [1; 0]
           ["x"; "y"] ["a"; "b"] (Some plain_params) Hdirect (perm_swap 0 1 []) Hsize E).
Defined.

Lemma fit_converts_configured_params_witness :
  ∃ st',
    fit (H0 := search) [1; 0] ["x"; "y"] ["a"; "b"] None (configured (Some bias_params) None)
      = (st', Ok tt)
    ∧ ModelConfig.params (config (self st')) = Some bias_params
    ∧ _current_params (self st') = Some bias_params
    ∧ converted (heap (configured (Some bias_params) None) !!! bias_params)
                (heap st' !!! bias_params)
    ∧ ∀ q', q' ≠ bias_params →
            heap st' !!! q' = heap (configured (Some bias_params) None) !!! q'.
Proof.
  eexists. split; [vm_compute; reflexivity|].
  apply (fit_converts_configured_params (H0 := search) (configured (Some bias_params) None)
           _ [1; 0] ["x"; "y"] ["a"; "b"] bias_params).
  - reflexivity.
  - apply perm_swap.
  - vm_compute. lia.
  - vm_compute. reflexivity.
Defined.

Lemma fit_search_is_select_params_witness :
  fit (H0 := fixed_search) [1; 0] ["x"; "y"] ["a"; "b"] None
    (configured None (Some plain_params))
  = match select_params (H0 := fixed_search) ["y"; "x"] ["b"; "a"] None
            (configured None (Some plain_params)) with
    | (st', Ok params) =>
        ({| heap := heap st'; self := set_current_params (Some params) (self st') |}, Ok tt)
    | (st', Raise e) => (st', Raise e)
    end.
Proof.
  apply (fit_search_is_select_params (H0 := fixed_search)
           (configured None (Some plain_params)) [1; 0] ["x"; "y"] ["y"; "x"]
           ["a"; "b"] ["b"; "a"]).
  - reflexivity.
  - discriminate.
  - reflexivity.
  - reflexivity.
  - vm_compute. lia.
Defined.

Lemma evaluate_pairs_predictions_witness :
  evaluate (H0 := evaluation) ["x"; "y"] ["a"; "b"; "c"] fitted
  = (fitted,
     if decide (length ["x"; "y"] ≤ length ["a"; "b"; "c"]
                ∧ length ["x"; "y"]
                  ≤ length [(Some "a", ({[ "a" := 0.5; "b" := 0.5 ]}%float : gmap string float));
                            (Some "a", {[ "a" := 0.5; "b" := 0.5 ]}%float)])
     then Ok (@Build_StandardModelEvaluation collaborators evaluation "class"
                (evaluated_examples (H0 := evaluation) "class" ["x"; "y"] ["a"; "b"; "c"]
                   [(Some "a", {[ "a" := 0.5; "b" := 0.5 ]}%float);
                    (Some "a", {[ "a" := 0.5; "b" := 0.5 ]}%float)]))
     else Raise IndexError).
Proof.
  apply (evaluate_pairs_predictions (H0 := evaluation) fitted fitted ["x"; "y"]
           ["a"; "b"; "c"]).
  - vm_compute. reflexivity.
  - reflexivity.
Defined.

Lemma getstate_idempotent_witness :
  __getstate__ "w_freq" "q_freq" "{}"
    (<["_resources" := ADict {[ "w_freq" := "word counts"; "q_freq" := "{}" ]}]> attributes)
  = Ok (<["_resources" := ADict {[ "w_freq" := "word counts"; "q_freq" := "{}" ]}]>
          attributes).
Proof.
  apply (getstate_idempotent "w_freq" "q_freq" "{}" attributes).
  vm_compute. reflexivity.
Defined.

Lemma blueprint_call_outcome_witness :
  ("quickstart" ∉ Util.BLUEPRINTS →
   app_set_up = app_only
   ∧ Util.Returns "/work/quickstart"
     = Util.Raises (Util.ValueError ("Unknown blueprint name: " +:+ "'quickstart'"))
   ∧ Util.setup_app (H := system) "quickstart" None app_only
     = (app_only, Util.Returns "/work/quickstart")
   ∧ Util.setup_kb (H := system) "quickstart" None None app_only
     = (app_only,
        Util.Raises (Util.ValueError ("Unknown blueprint name: " +:+ "'quickstart'"))))
  ∧ (∀ path, Util.Returns "/work/quickstart" = Util.Returns path →
       "quickstart" ∈ Util.BLUEPRINTS
       ∧ path = Util.str_or None ("/work" +:+ "/" +:+ "quickstart")).
Proof.
  assert (Util.__call__ (H := system) "quickstart" None None app_only
          = (app_set_up, Util.Returns "/work/quickstart")) as E by (vm_compute; reflexivity).
  exact (blueprint_call_outcome (H := system) _ _ _ _ _ _ E).
Defined.

Lemma blueprint_without_knowledge_base_witness :
  Util.setup_kb (H := system) "quickstart" (Some "/work/quickstart") None app_extracted
  = (if decide ("404" = "404")
     then (Util.logger (System := system) "warning" "No knowledge base to set up." [] app_extracted,
           Util.Returns tt)
     else (app_extracted, Util.Raises (Util.ClientError "404")))
  ∧ Util.__call__ (H := system) "quickstart" None None app_only
    = (if decide ("404" = "404")
       then (Util.logger (System := system) "warning" "No knowledge base to set up." [] app_extracted,
             Util.Returns "/work/quickstart")
       else (app_extracted, Util.Raises (Util.ClientError "404"))).
Proof.
  apply (blueprint_without_knowledge_base (H := system) "quickstart" None None app_only
           app_extracted app_extracted "/work/quickstart" "404").
  - vm_compute. reflexivity.
  - vm_compute. reflexivity.
Defined.

Lemma fetch_archive_cache_policy_witness :
  Util._fetch_archive (H := system) "quickstart" "app" app_only
  = if Util.datetime_lt (System := system) 100%Z 200%Z
    then (Util.logger (System := system) "info" "Using cached %r %s archive" ["quickstart"; "app"] app_only,
          Util.Returns "/cache/quickstart/app.tar.gz")
    else
      match Util.s3_download_file (System := system) tt Util.BLUEPRINT_S3_BUCKET
              "workbench-data/blueprints/quickstart/app.tar.gz"
              "/cache/quickstart/app.tar.gz"
              (Util.logger (System := system) "info" "Fetching %s archive from %r"
                 ["app"; "workbench-data/blueprints/quickstart/app.tar.gz"] app_only)
      with
      | (w5, Util.Returns _) => (w5, Util.Returns "/cache/quickstart/app.tar.gz")
      | (w5, Util.Raises e) => (w5, Util.Raises e)
      end.
Proof.
  assert (("app", "app.tar.gz")
          ∈ [("app", Util.BLUEPRINT_APP_ARCHIVE); ("kb", Util.BLUEPRINT_KB_ARCHIVE)]) as Hty
    by (by left).
  exact (fetch_archive_cache_policy (H := system) "quickstart" "app" "app.tar.gz"
           app_only app_only app_only app_only app_only (Util.Raises Util.OSError) tt
           100%Z (Util.Returns 200%Z) Hty eq_refl (or_intror eq_refl) eq_refl eq_refl
           eq_refl (λ e (E : Util.Returns 200%Z = Util.Raises e),
                      match E in _ = r return match r with
                                              | Util.Returns _ => True
                                              | Util.Raises e => e = Util.OSError
                                              end with eq_refl => I end)).
Defined.

Lemma create_query_char_maps_witness :
  ∃ query,
    QueryFactory.create_query (H := components) factory "hi" = Ok query
    ∧ QueryFactory.raw_text query = "hi"
    ∧ QueryFactory.tokenize (QueryFactory.tokenizer factory)
        (QueryFactory.processed_text query) false
      = Ok (QueryFactory.normalized_tokens query)
    ∧ is_Some (QueryFactory.system_entity_candidates query)
    ∧ match QueryFactory.preprocessor factory with
      | None =>
          QueryFactory.processed_text query = "hi"
          ∧ (QueryFactory.char_maps query).*1 = [(1, 2); (2, 1)]
      | Some p =>
          QueryFactory.process p "hi" = Ok (QueryFactory.processed_text query)
          ∧ (QueryFactory.char_maps query).*1 = [(0, 1); (1, 0); (1, 2); (2, 1)]
      end.
Proof.
  eexists. split; [vm_compute; reflexivity|].
  apply (create_query_char_maps (H := components) factory "hi").
  - discriminate.
  - discriminate.
  - discriminate.
  - vm_compute. reflexivity.
Defined.
